(** * Quest progress service of gamify-dashboard

    A shallow embedding of [src/lib/services/QuestService.ts] (with the
    [getWeekKey] of its second revision beside the first), of the parts of
    [src/lib/services/QuestConfigService.ts] it calls and of the two
    progress models, together with the properties of the period keys, the
    completion check, claiming, the catalog migration and the read-model
    that the specification states about them.

    Conventions of the embedding:
    - a JavaScript [number] holding a counter, a threshold, a reward or an
      order is an integer of [Z], and [+= 1] on a counter is [addOne], which
      is the successor on the safe integers;
    - a Mongo collection with a unique index is a finite map from the indexed
      key to the stored document; the service object is bound to one
      [companyId], so the collections below hold that company's documents;
    - a Mongoose document in memory is a value of its own: what a query
      returns is a copy, and [save] writes back the paths that differ from
      the copy as it was loaded;
    - a method of the service is a function of the small state-and-exception
      monad [M]: the state is the database, an exception is what a rejected
      promise is in the source;
    - the instant [new Date ()] is represented by its calendar date on the
      New York wall clock, and the host runs in UTC. *)

From stdpp Require Import gmap strings list pretty.
From Stdlib Require Import ZArith Lia.

Open Scope Z_scope.

(* ===================================================================== *)
(** * Calendar arithmetic behind the JavaScript [Date] object            *)
(* ===================================================================== *)

Module JSDate.

Definition msPerDay : Z := 86400000.

(** Day number (days since 1970-01-01) of a proleptic Gregorian date;
    [m] is the month 1..12. *)
Definition daysFromCivil (y m d : Z) : Z :=
  let y' := if m <=? 2 then y - 1 else y in
  let era := y' / 400 in
  let yoe := y' - era * 400 in
  let doy := (153 * (if 2 <? m then m - 3 else m + 9) + 2) / 5 + d - 1 in
  let doe := yoe * 365 + yoe / 4 - yoe / 100 + doy in
  era * 146097 + doe - 719468.

(** The inverse: year, month 1..12 and day of the month of a day number. *)
Definition civilFromDays (z0 : Z) : Z * Z * Z :=
  let z := z0 + 719468 in
  let era := z / 146097 in
  let doe := z - era * 146097 in
  let yoe := (doe - doe / 1460 + doe / 36524 - doe / 146096) / 365 in
  let doy := doe - (365 * yoe + yoe / 4 - yoe / 100) in
  let mp := (5 * doy + 2) / 153 in
  let d := doy - (153 * mp + 2) / 5 + 1 in
  let m := if mp <? 10 then mp + 3 else mp - 9 in
  let y := yoe + era * 400 in
  (if m <=? 2 then y + 1 else y, m, d).

(** ECMAScript MakeDay: month index 0-based and allowed to overflow, the
    day of the month allowed to overflow; years 0..99 mean 1900..1999 in
    [Date.UTC] and in the [Date] constructor. *)
Definition makeDay (year monthIndex date : Z) : Z :=
  let year := if (0 <=? year) && (year <=? 99) then 1900 + year else year in
  let ym := year + monthIndex / 12 in
  let mn := monthIndex mod 12 in
  daysFromCivil ym (mn + 1) 1 + date - 1.

(** A [Date] is its time value, milliseconds since the epoch.  The
    accessors below are the UTC ones; for a host whose timezone is UTC the
    local accessors ([getFullYear], [getDay], [setDate], ...) coincide
    with them. *)
Definition UTC (year monthIndex date : Z) : Z :=
  makeDay year monthIndex date * msPerDay.

Definition dayOf (t : Z) : Z := t / msPerDay.

Definition getUTCFullYear (t : Z) : Z := fst (fst (civilFromDays (dayOf t))).
Definition getUTCMonth (t : Z) : Z := snd (fst (civilFromDays (dayOf t))) - 1.
Definition getUTCDate (t : Z) : Z := snd (civilFromDays (dayOf t)).

(** 0 = Sunday ... 6 = Saturday; 1970-01-01 was a Thursday. *)
Definition getUTCDay (t : Z) : Z := (dayOf t + 4) mod 7.

(** [d.setUTCDate(n)]: same year and month, day of the month [n] (which
    may lie outside the month), time of day kept. *)
Definition setUTCDate (t n : Z) : Z :=
  makeDay (getUTCFullYear t) (getUTCMonth t) n * msPerDay + t mod msPerDay.

(** [Math.ceil (n / k)] and [Math.floor (n / k)] for integers [n] and a
    positive integer [k]. *)
Definition ceilDiv (n k : Z) : Z := - ((- n) / k).
Definition floorDiv (n k : Z) : Z := n / k.

End JSDate.

(* ===================================================================== *)
(** * Period keys                                                        *)
(* ===================================================================== *)

(** The instant [now] enters the service only through its calendar date on
    the New York wall clock, which [toLocaleString] and
    [Intl.DateTimeFormat] read off the timezone database, and which the
    first revision parses back into the [Date] object [nyDate].  [month] is
    1..12. *)
Record NYDate : Type := { year : Z; month : Z; day : Z }.

Module PeriodKey.
Import JSDate.

(** [String.prototype.padStart (n, '0')]. *)
Definition padStart (n : nat) (s : string) : string :=
  String.concat "" (replicate (n - String.length s)%nat "0") +:+ s.

(** [Number.prototype.toString] of an integer. *)
Definition toString (z : Z) : string := pretty z.

(** [getDateKey]: the date part of [nyDate.toISOString ()], where
    [nyDate] carries the New York wall clock in its local fields (host
    timezone UTC).  [now] stands for those fields: [nyDate] is parsed from
    the en-US locale string of the instant, which names the year of the New
    York date when that year has four digits (a New York year 0..99 is
    read back as a year of the 20th or 21st century).  Years outside
    0..9999 use the expanded form. *)
Definition getDateKey (now : NYDate) : string :=
  let y := year now in
  let ys := if (0 <=? y) && (y <=? 9999) then padStart 4 (toString y)
            else (if y <? 0 then "-" else "+") +:+ padStart 6 (toString (Z.abs y)) in
  ys +:+ "-" +:+ padStart 2 (toString (month now)) +:+ "-" +:+ padStart 2 (toString (day now)).

(** [getWeekNumber] of QuestService.ts. *)
Definition getWeekNumber (date : NYDate) : Z :=
  let d := UTC (year date) (month date - 1) (day date) in
  let dayNum := if getUTCDay d =? 0 then 7 else getUTCDay d in
  let d := setUTCDate d (getUTCDate d + 4 - dayNum) in
  let yearStart := UTC (getUTCFullYear d) 0 1 in
  ceilDiv ((d - yearStart) / msPerDay + 1) 7.

(** [getWeekKey] of QuestService.ts: the year is the one of the date
    itself. *)
Definition getWeekKey (now : NYDate) : string :=
  let year := year now in
  let week := getWeekNumber now in
  toString year +:+ "-W" +:+ padStart 2 (toString week).

(** [getWeekKey] of the second revision of the service (the file whose
    comment reads "using ISO 8601"), on a host in UTC. *)
Definition getWeekKeyISO (now : NYDate) : string :=
  let d := UTC (year now) (month now - 1) (day now) in
  let dayOfWeek := getUTCDay d in
  let thursdayOffset := (4 - dayOfWeek + 7) mod 7 in
  let thursday := setUTCDate d (getUTCDate d + thursdayOffset) in
  let jan4 := UTC (getUTCFullYear thursday) 0 4 in
  let jan4DayOfWeek := getUTCDay jan4 in
  let jan4ThursdayOffset := (4 - jan4DayOfWeek + 7) mod 7 in
  let firstThursday := setUTCDate jan4 (getUTCDate jan4 + jan4ThursdayOffset) in
  let daysDiff := floorDiv (thursday - firstThursday) (24 * 60 * 60 * 1000) in
  let weekNumber := floorDiv daysDiff 7 + 1 in
  let weekYear := getUTCFullYear thursday in
  toString weekYear +:+ "-W" +:+ padStart 2 (toString weekNumber).

(** The ISO-8601 week of a date, following the words of the
    specification: weeks run Monday to Sunday, a week belongs to the year
    of its Thursday, and its number counts the Thursdays of that year. *)
Definition isoThursday (date : NYDate) : Z :=
  let n := makeDay (year date) (month date - 1) (day date) in
  let mondayBased := (n + 3) mod 7 in
  n - mondayBased + 3.

Definition isoWeekKey (date : NYDate) : string :=
  let th := isoThursday date in
  let y := fst (fst (civilFromDays th)) in
  let week := (th - daysFromCivil y 1 1) / 7 + 1 in
  toString y +:+ "-W" +:+ padStart 2 (toString week).

End PeriodKey.

(* ===================================================================== *)
(** * Data model                                                         *)
(* ===================================================================== *)

(** ['daily' | 'weekly']. *)
Inductive QuestType : Type := daily | weekly.

#[global] Instance QuestType_eq_dec : EqDecision QuestType.
Proof. solve_decision. Defined.

Definition questTypeName (t : QuestType) : string :=
  match t with daily => "daily" | weekly => "weekly" end.

(** Modelled from the spec: the declaration of [IQuestObjective] in
    [models/Quest] is not among the sources.  It is the ObjectiveDefinition
    of the specification, under the field names that the service reads and
    that the literals of [initializeDefaultQuests] and [updateQuest]
    write. *)
Module IQuestObjective.
Record t : Type := mk {
  id : string;
  messageCount : Z;
  successMessageCount : Z;
  xpReward : Z;
  order : Z
}.
#[global] Instance eq_dec : EqDecision t.
Proof. solve_decision. Defined.
End IQuestObjective.

(** Modelled from the spec: the declaration of [IQuest] in [models/Quest]
    is not among the sources.  A quest is a typed, possibly inactive entry
    of the catalog with its ordered objectives; the fields are those of the
    literals of [initializeDefaultQuests], without the [companyId] the
    service is bound to. *)
Module IQuest.
Record t : Type := mk {
  questId : string;
  questType : QuestType;
  title : string;
  description : string;
  objectives : list IQuestObjective.t;
  isActive : bool
}.
End IQuest.

(** An objective state of a progress document; [IDailyObjectiveProgress]
    and [IWeeklyObjectiveProgress] declare the same fields. *)
Module IObjectiveProgress.
Record t : Type := mk {
  objectiveId : string;
  messageCount : Z;
  successMessageCount : Z;
  xpReward : Z;
  order : Z;
  completed : bool;
  claimed : bool
}.
#[global] Instance eq_dec : EqDecision t.
Proof. solve_decision. Defined.

Definition setCompleted (b : bool) (o : t) : t :=
  mk (objectiveId o) (messageCount o) (successMessageCount o) (xpReward o) (order o)
     b (claimed o).
Definition setClaimed (b : bool) (o : t) : t :=
  mk (objectiveId o) (messageCount o) (successMessageCount o) (xpReward o) (order o)
     (completed o) b.
End IObjectiveProgress.

(** A progress document; [IDailyQuestProgress] and [IWeeklyQuestProgress]
    declare the same fields but for the name of the period key.  The
    identifying [(userId, dateKey)] or [(userId, weekKey)] is the key of the
    collection; [version] is the [__v] that Mongoose keeps on every
    document. *)
Module IQuestProgress.
Record t : Type := mk {
  currentMessages : Z;
  currentSuccessMessages : Z;
  Objectives : list IObjectiveProgress.t;
  Completed : bool;
  QuestSeen : bool;
  NotificationCount : Z;
  version : Z
}.

Definition setCounters (m s : Z) (p : t) : t :=
  mk m s (Objectives p) (Completed p) (QuestSeen p) (NotificationCount p) (version p).
Definition setObjectives (os : list IObjectiveProgress.t) (p : t) : t :=
  mk (currentMessages p) (currentSuccessMessages p) os (Completed p) (QuestSeen p)
     (NotificationCount p) (version p).
Definition setQuestSeen (b : bool) (p : t) : t :=
  mk (currentMessages p) (currentSuccessMessages p) (Objectives p) (Completed p) b
     (NotificationCount p) (version p).
Definition setVersion (v : Z) (p : t) : t :=
  mk (currentMessages p) (currentSuccessMessages p) (Objectives p) (Completed p)
     (QuestSeen p) (NotificationCount p) v.
End IQuestProgress.

(** The objective of the read-model (interface [QuestObjective] with the
    [title] and [description] of the response). *)
Module QuestObjective.
Record t : Type := mk {
  id : string;
  title : string;
  description : string;
  progress : Z;
  target : Z;
  completed : bool;
  claimed : bool;
  xp : Z;
  order : Z
}.
End QuestObjective.

(** One half of the result of [getUserProgress]. *)
Module PeriodProgress.
Record t : Type := mk {
  msgCount : Z;
  successMsgCount : Z;
  objectives : list QuestObjective.t;
  questSeen : bool;
  notificationCount : Z
}.
End PeriodProgress.

Module UserProgress.
Record t : Type := mk { daily : PeriodProgress.t; weekly : PeriodProgress.t }.
End UserProgress.

(** The result of [claimObjective]. *)
Module ClaimResult.
Record t : Type := mk { success : bool; error : option string; xp : Z }.
End ClaimResult.

(** The result of [updateProgress]; every field is optional. *)
Module UpdateResult.
Record t : Type := mk {
  dailyProgress : option IQuestProgress.t;
  weeklyProgress : option IQuestProgress.t;
  completedObjectives : option (list string)
}.
End UpdateResult.

(* ===================================================================== *)
(** * The database and the monad of the service                          *)
(* ===================================================================== *)

(** A progress collection: its unique index is (companyId, userId, key). *)
Abbreviation Collection := (gmap (string * string) IQuestProgress.t).

(** The database as one company sees it.  [connected] tells whether
    [connectDB ()] resolves. *)
Record DB : Type := mkDB {
  connected : bool;
  quests : list IQuest.t;
  dailyProgress : Collection;
  weeklyProgress : Collection
}.

Definition setQuests (qs : list IQuest.t) (db : DB) : DB :=
  mkDB (connected db) qs (dailyProgress db) (weeklyProgress db).

Definition progressOf (qt : QuestType) (db : DB) : Collection :=
  match qt with daily => dailyProgress db | weekly => weeklyProgress db end.

Definition setProgress (qt : QuestType) (c : Collection) (db : DB) : DB :=
  match qt with
  | daily => mkDB (connected db) (quests db) c (weeklyProgress db)
  | weekly => mkDB (connected db) (quests db) (dailyProgress db) c
  end.

(** What an awaited call leaves behind: a value, or a thrown error. *)
Inductive Outcome (A : Type) : Type :=
| Returned (a : A)
| Thrown.
Arguments Returned {A} a.
Arguments Thrown {A}.

Definition M (A : Type) : Type := DB -> DB * Outcome A.

Definition ret {A} (a : A) : M A := fun db => (db, Returned a).
Definition throw {A} : M A := fun db => (db, Thrown).
Definition bind {A B} (m : M A) (k : A -> M B) : M B :=
  fun db => match m db with
            | (db', Returned a) => k a db'
            | (db', Thrown) => (db', Thrown)
            end.
(** [try { m } catch { h }]; what [m] wrote before it threw stays
    written. *)
Definition tryCatch {A} (m : M A) (h : M A) : M A :=
  fun db => match m db with
            | (db', Returned a) => (db', Returned a)
            | (db', Thrown) => h db'
            end.
Definition get : M DB := fun db => (db, Returned db).
Definition modify (f : DB -> DB) : M unit := fun db => (f db, Returned tt).

Notation "'let!' x ':=' m 'in' k" := (bind m (fun x => k))
  (at level 10, x pattern, m at level 100, k at level 200).
Notation "m ';;' k" := (bind m (fun _ => k))
  (at level 100, k at level 200, right associativity).

(** The state an operation leaves and the value it resolves to. *)
Definition stateOf {A} (r : DB * Outcome A) : DB := fst r.
Definition valueOf {A} (r : DB * Outcome A) : Outcome A := snd r.

(** Modelled from the spec: [connectDB] of [lib/mongodb], the persistence
    bootstrap, is not among the sources.  It is an external collaborator
    that resolves when the store is available and rejects when it is
    not. *)
Definition connectDB : M unit :=
  fun db => if connected db then (db, Returned tt) else (db, Thrown).

(* ===================================================================== *)
(** * Mongoose documents: queries and [save]                             *)
(* ===================================================================== *)

Module Mongoose.
Import IQuestProgress.

(** [Model.findOne ({companyId, userId, key})]: a fresh in-memory copy of
    the stored document. *)
Definition findOne (qt : QuestType) (userId key : string) : M (option IQuestProgress.t) :=
  let! db := get in ret (progressOf qt db !! (userId, key)).

(** [Model.findOneAndUpdate (key, {$setOnInsert: doc}, {upsert, new})]:
    the stored document, inserted first when there is none. *)
Definition upsert (qt : QuestType) (userId key : string) (doc : IQuestProgress.t)
  : M IQuestProgress.t :=
  let! db := get in
  match progressOf qt db !! (userId, key) with
  | Some p => ret p
  | None => modify (fun db => setProgress qt (<[(userId, key) := doc]> (progressOf qt db)) db) ;;
            ret doc
  end.

(** [new Model (doc).save ()]: an insert, refused by the unique index
    when the key is taken. *)
Definition insertNew (qt : QuestType) (userId key : string) (doc : IQuestProgress.t)
  : M IQuestProgress.t :=
  let! db := get in
  match progressOf qt db !! (userId, key) with
  | Some _ => throw
  | None => modify (fun db => setProgress qt (<[(userId, key) := doc]> (progressOf qt db)) db) ;;
            ret doc
  end.

(** [save ()] of a document that was loaded as [loaded] and is now [cur]
    sends the modified paths only: a [$set] for each changed field (by
    position inside [Objectives]), a [$push] for the elements added at the
    end.  [pick l c s] is the stored value [s] of a field after that
    write. *)
Definition pick {A} `{EqDecision A} (l c s : A) : A :=
  if decide (l = c) then s else c.

Definition patchObjective (l c s : IObjectiveProgress.t) : IObjectiveProgress.t :=
  IObjectiveProgress.mk
    (pick (IObjectiveProgress.objectiveId l) (IObjectiveProgress.objectiveId c)
          (IObjectiveProgress.objectiveId s))
    (pick (IObjectiveProgress.messageCount l) (IObjectiveProgress.messageCount c)
          (IObjectiveProgress.messageCount s))
    (pick (IObjectiveProgress.successMessageCount l) (IObjectiveProgress.successMessageCount c)
          (IObjectiveProgress.successMessageCount s))
    (pick (IObjectiveProgress.xpReward l) (IObjectiveProgress.xpReward c)
          (IObjectiveProgress.xpReward s))
    (pick (IObjectiveProgress.order l) (IObjectiveProgress.order c)
          (IObjectiveProgress.order s))
    (pick (IObjectiveProgress.completed l) (IObjectiveProgress.completed c)
          (IObjectiveProgress.completed s))
    (pick (IObjectiveProgress.claimed l) (IObjectiveProgress.claimed c)
          (IObjectiveProgress.claimed s)).

(** The stored array after the write: the elements the copy had loaded are
    patched in place, the elements it pushed go behind whatever is stored
    by now.  (No operation removes an element, so the stored array is never
    shorter than the loaded one and [cur] never shorter than [loaded]; the
    two remaining cases are there for totality.) *)
Fixpoint patchObjectives (loaded cur stored : list IObjectiveProgress.t)
  : list IObjectiveProgress.t :=
  match loaded, cur with
  | l :: loaded', c :: cur' =>
      match stored with
      | s :: stored' => patchObjective l c s :: patchObjectives loaded' cur' stored'
      | [] => patchObjectives loaded' cur' []
      end
  | [], _ => stored ++ cur
  | _ :: _, [] => stored
  end.

(** Did the in-memory copy change a field of an element it had loaded
    (these writes carry [__v] in their filter), did it push elements
    (these writes increment [__v])? *)
Definition positionalSets (loaded cur : IQuestProgress.t) : bool :=
  existsb (fun lc => negb (bool_decide (fst lc = snd lc)))
          (zip (Objectives loaded) (Objectives cur)).

Definition pushes (loaded cur : IQuestProgress.t) : bool :=
  (length (Objectives loaded) <? length (Objectives cur))%nat.

Definition patch (loaded cur stored : IQuestProgress.t) : IQuestProgress.t :=
  mk (pick (currentMessages loaded) (currentMessages cur) (currentMessages stored))
     (pick (currentSuccessMessages loaded) (currentSuccessMessages cur)
           (currentSuccessMessages stored))
     (patchObjectives (Objectives loaded) (Objectives cur) (Objectives stored))
     (pick (Completed loaded) (Completed cur) (Completed stored))
     (pick (QuestSeen loaded) (QuestSeen cur) (QuestSeen stored))
     (pick (NotificationCount loaded) (NotificationCount cur) (NotificationCount stored))
     (if pushes loaded cur then version stored + 1 else version stored).

(** The in-memory document after its [save ()]. *)
Definition saved (loaded cur : IQuestProgress.t) : IQuestProgress.t :=
  if pushes loaded cur then setVersion (version cur + 1) cur else cur.

(** [doc.save ()].  A write that sets fields inside the array finds no
    document when the stored [__v] is no longer the loaded one, and [save]
    throws a [VersionError]; it throws as well when the document is gone
    from the collection. *)
Definition save (qt : QuestType) (userId key : string) (loaded cur : IQuestProgress.t)
  : M IQuestProgress.t :=
  let! db := get in
  match progressOf qt db !! (userId, key) with
  | None => throw
  | Some stored =>
      if positionalSets loaded cur && negb (version stored =? version loaded)
      then throw
      else modify (fun db => setProgress qt
                               (<[(userId, key) := patch loaded cur stored]> (progressOf qt db)) db) ;;
           ret (saved loaded cur)
  end.

End Mongoose.

(* ===================================================================== *)
(** * QuestConfigService.ts                                              *)
(* ===================================================================== *)

Module QuestConfigService.

Definition defaultQuests : list IQuest.t :=
  [ IQuest.mk "daily_quest" daily "Daily Quest" "Complete daily objectives in order"
      [ IQuestObjective.mk "daily_success1" 0 1 10 1;
        IQuestObjective.mk "daily_send10" 10 0 15 2 ]
      true;
    IQuest.mk "weekly_quest" weekly "Weekly Quest" "Complete weekly objectives in order"
      [ IQuestObjective.mk "weekly_send100" 100 0 15 1;
        IQuestObjective.mk "weekly_success10" 0 10 50 2 ]
      true ].

(** A stable sort, as [Array.prototype.sort] and an ordered query are. *)
Fixpoint insertBy {A} (le : A -> A -> bool) (x : A) (l : list A) : list A :=
  match l with
  | [] => [x]
  | y :: l' => if le x y then x :: y :: l' else y :: insertBy le x l'
  end.

Definition sortBy {A} (le : A -> A -> bool) (l : list A) : list A :=
  foldr (insertBy le) [] l.

(** [[...q.objectives].sort ((a, b) => a.order - b.order)]. *)
Definition sortObjectives (os : list IQuestObjective.t) : list IQuestObjective.t :=
  sortBy (fun a b => IQuestObjective.order a <=? IQuestObjective.order b) os.

Definition normalize (q : IQuest.t) : IQuest.t :=
  IQuest.mk (IQuest.questId q) (IQuest.questType q) (IQuest.title q) (IQuest.description q)
            (sortObjectives (IQuest.objectives q)) (IQuest.isActive q).

(** [initializeDefaultQuests]. *)
Definition initializeDefaultQuests : M bool :=
  tryCatch
    (connectDB ;;
     let! db := get in
     if (0 <? length (quests db))%nat then ret true
     else modify (setQuests (quests db ++ defaultQuests)) ;; ret true)
    (ret false).

(** The order of [.sort ({ questType: 1, questId: 1 })]. *)
Definition byTypeThenId (a b : IQuest.t) : bool :=
  match String.compare (questTypeName (IQuest.questType a))
                       (questTypeName (IQuest.questType b)) with
  | Lt => true
  | Gt => false
  | Eq => String.leb (IQuest.questId a) (IQuest.questId b)
  end.

(** [getAllQuests]. *)
Definition getAllQuests : M (list IQuest.t) :=
  tryCatch
    (connectDB ;;
     let! db := get in
     ret (map normalize (sortBy byTypeThenId (quests db))))
    (ret []).

(** [getQuestsByType]. *)
Definition getQuestsByType (questType : QuestType) : M (list IQuest.t) :=
  tryCatch
    (connectDB ;;
     let! db := get in
     let found := filter (fun q => IQuest.questType q = questType /\ IQuest.isActive q = true)
                         (quests db) in
     ret (map normalize
              (sortBy (fun a b => String.leb (IQuest.questId a) (IQuest.questId b)) found)))
    (ret []).

End QuestConfigService.

(* ===================================================================== *)
(** * QuestService.ts                                                    *)
(* ===================================================================== *)

Module QuestService.
Import PeriodKey QuestConfigService Mongoose.

(** [ensureQuestsInitialized]. *)
Definition ensureQuestsInitialized : M unit :=
  tryCatch (connectDB ;; let! _ := initializeDefaultQuests in ret tt) (ret tt).

(** The objective state a document is seeded with
    ([dailyQuest.objectives.map (obj => ({ ..., completed: false,
    claimed: false }))]); migration pushes the same literal. *)
Definition seedObjective (obj : IQuestObjective.t) : IObjectiveProgress.t :=
  IObjectiveProgress.mk (IQuestObjective.id obj) (IQuestObjective.messageCount obj)
    (IQuestObjective.successMessageCount obj) (IQuestObjective.xpReward obj)
    (IQuestObjective.order obj) false false.

Definition seedObjectives (quest : option IQuest.t) : list IObjectiveProgress.t :=
  match quest with
  | Some q => map seedObjective (IQuest.objectives q)
  | None => []
  end.

(** The document of [$setOnInsert] and of [new DailyQuestProgress]. *)
Definition newProgress (objectives : list IObjectiveProgress.t) : IQuestProgress.t :=
  IQuestProgress.mk 0 0 objectives false true 0 0.

(** ** Completion check *)

(** The value of [isCompleted] in the body of the loop. *)
Definition isCompleted (progress : IQuestProgress.t) (objective : IObjectiveProgress.t) : bool :=
  if 0 <? IObjectiveProgress.messageCount objective
  then IObjectiveProgress.messageCount objective <=? IQuestProgress.currentMessages progress
  else if 0 <? IObjectiveProgress.successMessageCount objective
  then IObjectiveProgress.successMessageCount objective
         <=? IQuestProgress.currentSuccessMessages progress
  else false.

(** The loop [for (const objective of progress.Objectives)], threading
    [questCompleted]. *)
Fixpoint checkLoop (progress : IQuestProgress.t) (objectives : list IObjectiveProgress.t)
         (questCompleted : bool) : list IObjectiveProgress.t * bool :=
  match objectives with
  | [] => ([], questCompleted)
  | objective :: rest =>
      if IObjectiveProgress.completed objective
      then let '(rest', qc) := checkLoop progress rest questCompleted in
           (objective :: rest', qc)
      else if isCompleted progress objective
      then let '(rest', qc) := checkLoop progress rest true in
           (IObjectiveProgress.setCompleted true objective :: rest', qc)
      else let '(rest', qc) := checkLoop progress rest questCompleted in
           (objective :: rest', qc)
  end.

(** [checkObjectiveCompletionDaily]. *)
Definition checkObjectiveCompletionDaily (progress : IQuestProgress.t) : IQuestProgress.t :=
  let '(objectives, questCompleted) :=
    checkLoop progress (IQuestProgress.Objectives progress) false in
  let progress := IQuestProgress.setObjectives objectives progress in
  if questCompleted then IQuestProgress.setQuestSeen false progress else progress.

(** [checkObjectiveCompletionWeekly]: the same text on the weekly
    document. *)
Definition checkObjectiveCompletionWeekly (progress : IQuestProgress.t) : IQuestProgress.t :=
  let '(objectives, questCompleted) :=
    checkLoop progress (IQuestProgress.Objectives progress) false in
  let progress := IQuestProgress.setObjectives objectives progress in
  if questCompleted then IQuestProgress.setQuestSeen false progress else progress.

Definition checkObjectiveCompletion (qt : QuestType) : IQuestProgress.t -> IQuestProgress.t :=
  match qt with
  | daily => checkObjectiveCompletionDaily
  | weekly => checkObjectiveCompletionWeekly
  end.

(** ** Recording an event *)

(** [n += 1] on a JavaScript number that holds an integer.  The sum is
    exact from -2^53 up to 2^53 - 1.  From 2^53 on, and below -2^53, the
    numbers are 2 apart up to 2^54 in size and the sum rounds to the
    neighbour with the even significand, which is [n] itself or [n + 2]
    (2^53 + 1 gives 2^53 again); further out the sum is [n]. *)
Definition addOne (n : Z) : Z :=
  if (- 2 ^ 53 <=? n) && (n <? 2 ^ 53) then n + 1
  else if (Z.abs n <? 2 ^ 54) && Z.even n && Z.odd (n / 2) then n + 2
  else n.

(** [progress.currentMessages += 1] or [progress.currentSuccessMessages += 1]. *)
Definition increment (isSuccessMessage : bool) (progress : IQuestProgress.t) : IQuestProgress.t :=
  IQuestProgress.setCounters
    (if negb isSuccessMessage then addOne (IQuestProgress.currentMessages progress)
     else IQuestProgress.currentMessages progress)
    (if isSuccessMessage then addOne (IQuestProgress.currentSuccessMessages progress)
     else IQuestProgress.currentSuccessMessages progress)
    progress.

(** [updateDailyProgress] and [updateWeeklyProgress], which differ in the
    collection, the key and the check they call.  The upsert returns the
    document, so the fallback after it never runs. *)
Definition updatePeriodProgress (qt : QuestType) (userId key : string)
           (isSuccessMessage : bool) : M IQuestProgress.t :=
  ensureQuestsInitialized ;;
  let! periodQuests := getQuestsByType qt in
  let periodQuest := head periodQuests in
  let! found := findOne qt userId key in
  let! progress :=
    match found with
    | Some p => ret p
    | None => upsert qt userId key (newProgress (seedObjectives periodQuest))
    end in
  let progress' := checkObjectiveCompletion qt (increment isSuccessMessage progress) in
  save qt userId key progress progress'.

Definition updateDailyProgress := updatePeriodProgress daily.
Definition updateWeeklyProgress := updatePeriodProgress weekly.

(** [updateProgress]. *)
Definition updateProgress (userId : string) (isSuccessMessage : bool) (now : NYDate)
  : M UpdateResult.t :=
  tryCatch
    (connectDB ;;
     let dateKey := getDateKey now in
     let weekKey := getWeekKey now in
     let completedObjectives : list string := [] in
     let! dailyProgress := updateDailyProgress userId dateKey isSuccessMessage in
     let! weeklyProgress := updateWeeklyProgress userId weekKey isSuccessMessage in
     ret (UpdateResult.mk (Some dailyProgress) (Some weeklyProgress) (Some completedObjectives)))
    (ret (UpdateResult.mk None None None)).

(** ** Claiming *)

Definition failed (message : string) : ClaimResult.t :=
  ClaimResult.mk false (Some message) 0.

(** [array.find (obj => obj.id === objectiveId)] on catalog objectives and
    on objective states; the index is that of the element found, which
    the caller may then mutate in place. *)
Definition findConfig (objectiveId : string) (os : list IQuestObjective.t)
  : option (nat * IQuestObjective.t) :=
  list_find (fun obj => IQuestObjective.id obj = objectiveId) os.

Definition findState (objectiveId : string) (os : list IObjectiveProgress.t)
  : option (nat * IObjectiveProgress.t) :=
  list_find (fun obj => IObjectiveProgress.objectiveId obj = objectiveId) os.

(** The loop [for (const quest of allQuests)] with its [break]. *)
Fixpoint findObjective (allQuests : list IQuest.t) (objectiveId : string)
  : option (IQuestObjective.t * QuestType) :=
  match allQuests with
  | [] => None
  | quest :: rest =>
      match findConfig objectiveId (IQuest.objectives quest) with
      | Some (_, foundObjective) => Some (foundObjective, IQuest.questType quest)
      | None => findObjective rest objectiveId
      end
  end.

(** The key of the period a quest type is looked up under. *)
Definition periodKey (qt : QuestType) (now : NYDate) : string :=
  match qt with daily => getDateKey now | weekly => getWeekKey now end.

(** What [claimObjective] does once [findOne] has resolved to [found]
    (the two branches of [if (questType === 'daily')] have the same
    text). *)
Definition claimLoaded (qt : QuestType) (userId key objectiveId : string)
           (objective : IQuestObjective.t) (found : option IQuestProgress.t)
  : M ClaimResult.t :=
  match found with
  | None => ret (failed "Quest progress not found")
  | Some progress =>
      match findState objectiveId (IQuestProgress.Objectives progress) with
      | None => ret (failed "Objective progress not found")
      | Some (i, objectiveProgress) =>
          if negb (IObjectiveProgress.completed objectiveProgress)
          then ret (failed "Objective not completed yet")
          else if IObjectiveProgress.claimed objectiveProgress
          then ret (failed "Objective already claimed")
          else
            let progress' :=
              IQuestProgress.setObjectives
                (<[i := IObjectiveProgress.setClaimed true objectiveProgress]>
                   (IQuestProgress.Objectives progress)) progress in
            let! _ := save qt userId key progress progress' in
            ret (ClaimResult.mk true None (IQuestObjective.xpReward objective))
      end
  end.

(** [claimObjective] up to and including its [findOne]: either the result
    is already known, or the call holds a loaded document. *)
Inductive ClaimPending : Type :=
| Resolved (r : ClaimResult.t)
| Loaded (qt : QuestType) (key : string) (objective : IQuestObjective.t)
         (found : option IQuestProgress.t).

Definition claimLoad (userId objectiveId : string) (now : NYDate) : M ClaimPending :=
  connectDB ;;
  let dateKey := getDateKey now in
  ensureQuestsInitialized ;;
  let! allQuests := getAllQuests in
  match findObjective allQuests objectiveId with
  | None => ret (Resolved (failed "Objective not found"))
  | Some (objective, questType) =>
      let key := match questType with daily => dateKey | weekly => getWeekKey now end in
      let! found := findOne questType userId key in
      ret (Loaded questType key objective found)
  end.

Definition claimFinish (userId objectiveId : string) (p : ClaimPending) : M ClaimResult.t :=
  match p with
  | Resolved r => ret r
  | Loaded qt key objective found => claimLoaded qt userId key objectiveId objective found
  end.

Definition internalError : ClaimResult.t := failed "Internal server error".

(** [claimObjective]. *)
Definition claimObjective (userId objectiveId : string) (now : NYDate) : M ClaimResult.t :=
  tryCatch
    (let! p := claimLoad userId objectiveId now in claimFinish userId objectiveId p)
    (ret internalError).

(** ** Marking a quest as seen *)

(** [markQuestSeen]. *)
Definition markQuestSeen (userId : string) (questType : QuestType) (now : NYDate) : M bool :=
  tryCatch
    (connectDB ;;
     let dateKey := getDateKey now in
     let weekKey := getWeekKey now in
     let key := match questType with daily => dateKey | weekly => weekKey end in
     let! found := findOne questType userId key in
     match found with
     | None => ret false
     | Some doc =>
         let! _ := save questType userId key doc (IQuestProgress.setQuestSeen true doc) in
         ret true
     end)
    (ret false).

(** ** Migration *)

(** The loop "Add missing objectives": [ids] is [currentDailyIds], taken
    before the loop. *)
Fixpoint addMissing (ids : list string) (configObjs : list IQuestObjective.t)
         (objectives : list IObjectiveProgress.t) (needsUpdate : bool)
  : list IObjectiveProgress.t * bool :=
  match configObjs with
  | [] => (objectives, needsUpdate)
  | configObj :: rest =>
      if negb (bool_decide (IQuestObjective.id configObj ∈ ids))
      then addMissing ids rest (objectives ++ [seedObjective configObj]) true
      else addMissing ids rest objectives needsUpdate
  end.

(** The test of the [if] in the loop "Update existing objectives". *)
Definition differs (progressObj : IObjectiveProgress.t) (configObj : IQuestObjective.t) : bool :=
  negb (IObjectiveProgress.messageCount progressObj =? IQuestObjective.messageCount configObj)
  || negb (IObjectiveProgress.successMessageCount progressObj
             =? IQuestObjective.successMessageCount configObj)
  || negb (IObjectiveProgress.xpReward progressObj =? IQuestObjective.xpReward configObj)
  || negb (IObjectiveProgress.order progressObj =? IQuestObjective.order configObj).

(** The four assignments of that [if]. *)
Definition overwrite (progressObj : IObjectiveProgress.t) (configObj : IQuestObjective.t)
  : IObjectiveProgress.t :=
  IObjectiveProgress.mk (IObjectiveProgress.objectiveId progressObj)
    (IQuestObjective.messageCount configObj) (IQuestObjective.successMessageCount configObj)
    (IQuestObjective.xpReward configObj) (IQuestObjective.order configObj)
    (IObjectiveProgress.completed progressObj) (IObjectiveProgress.claimed progressObj).

(** The loop "Update existing objectives with new values if needed". *)
Fixpoint updateExisting (configObjs : list IQuestObjective.t)
         (objectives : list IObjectiveProgress.t) (needsUpdate : bool)
  : list IObjectiveProgress.t * bool :=
  match objectives with
  | [] => ([], needsUpdate)
  | progressObj :: rest =>
      match findConfig (IObjectiveProgress.objectiveId progressObj) configObjs with
      | Some (_, configObj) =>
          if differs progressObj configObj
          then let '(rest', nu) := updateExisting configObjs rest true in
               (overwrite progressObj configObj :: rest', nu)
          else let '(rest', nu) := updateExisting configObjs rest needsUpdate in
               (progressObj :: rest', nu)
      | None =>
          let '(rest', nu) := updateExisting configObjs rest needsUpdate in
          (progressObj :: rest', nu)
      end
  end.

(** The body of [for (const progress of allDaily)] (and of the weekly
    loop, whose text is the same) up to its [save]: the document in
    memory and [needsUpdate]. *)
Definition migrateDocument (quest : option IQuest.t) (progress : IQuestProgress.t)
  : IQuestProgress.t * bool :=
  match quest with
  | None => (progress, false)
  | Some quest =>
      let currentIds := map IObjectiveProgress.objectiveId (IQuestProgress.Objectives progress) in
      let '(objectives, needsUpdate) :=
        addMissing currentIds (IQuest.objectives quest)
                   (IQuestProgress.Objectives progress) false in
      let '(objectives, needsUpdate) :=
        updateExisting (IQuest.objectives quest) objectives needsUpdate in
      (IQuestProgress.setObjectives objectives progress, needsUpdate)
  end.

(** One turn of the loop with its [if (needsUpdate) await progress.save ()]:
    the document was loaded by the [find] of this call and no other write
    comes in between, so the stored document is the loaded one. *)
Definition migrateStored (quest : option IQuest.t) (progress : IQuestProgress.t)
  : IQuestProgress.t :=
  let '(progress', needsUpdate) := migrateDocument quest progress in
  if needsUpdate then patch progress progress' progress else progress.

(** [migrateQuestProgress]: every document of the company, in both
    collections. *)
Definition migrateQuestProgress : M unit :=
  tryCatch
    (connectDB ;;
     let! dailyQuests := getQuestsByType daily in
     let! weeklyQuests := getQuestsByType weekly in
     let dailyQuest := head dailyQuests in
     let weeklyQuest := head weeklyQuests in
     match dailyQuest, weeklyQuest with
     | None, None => ret tt
     | _, _ =>
         modify (fun db => setProgress daily (migrateStored dailyQuest <$> dailyProgress db) db) ;;
         modify (fun db => setProgress weekly (migrateStored weeklyQuest <$> weeklyProgress db) db)
     end)
    (ret tt).

(** ** The read-model *)

Definition plural (n : Z) : string := if 1 <? n then "s" else "".

(** The body of [.map ((objective: IQuestObjective) => ...)]. *)
Definition buildObjective (doc : IQuestProgress.t) (objective : IQuestObjective.t)
  : QuestObjective.t :=
  let objectiveProgress :=
    snd <$> findState (IQuestObjective.id objective) (IQuestProgress.Objectives doc) in
  let current := if 0 <? IQuestObjective.messageCount objective
                 then IQuestProgress.currentMessages doc
                 else IQuestProgress.currentSuccessMessages doc in
  let target := if 0 <? IQuestObjective.messageCount objective
                then IQuestObjective.messageCount objective
                else IQuestObjective.successMessageCount objective in
  let isSuccessObjective := 0 <? IQuestObjective.successMessageCount objective in
  let title :=
    if isSuccessObjective
    then "Send " +:+ toString (IQuestObjective.successMessageCount objective)
         +:+ " Success Message" +:+ plural (IQuestObjective.successMessageCount objective)
    else "Send " +:+ toString (IQuestObjective.messageCount objective)
         +:+ " Message" +:+ plural (IQuestObjective.messageCount objective) in
  let description :=
    if isSuccessObjective
    then "Send " +:+ toString (IQuestObjective.successMessageCount objective)
         +:+ " message" +:+ plural (IQuestObjective.successMessageCount objective)
         +:+ " in success channels"
    else "Send " +:+ toString (IQuestObjective.messageCount objective)
         +:+ " message" +:+ plural (IQuestObjective.messageCount objective)
         +:+ " in any channel" in
  QuestObjective.mk (IQuestObjective.id objective) title description
    (Z.min current target) target
    (from_option IObjectiveProgress.completed false objectiveProgress)
    (from_option IObjectiveProgress.claimed false objectiveProgress)
    (IQuestObjective.xpReward objective) (IQuestObjective.order objective).

(** [dailyObjectives] and [weeklyObjectives]. *)
Definition buildObjectives (quest : IQuest.t) (doc : IQuestProgress.t) : list QuestObjective.t :=
  map (buildObjective doc) (sortObjectives (IQuest.objectives quest)).

(** [objectives.reduce ((sum, o) => sum + o.progress, 0)]. *)
Definition sumProgress (objectives : list QuestObjective.t) : Z :=
  foldl (fun sum o => sum + QuestObjective.progress o) 0 objectives.

(** [objectives.filter (obj => obj.completed && !obj.claimed).length]. *)
Definition countUnclaimed (objectives : list QuestObjective.t) : Z :=
  Z.of_nat (length (List.filter (fun obj => QuestObjective.completed obj
                                            && negb (QuestObjective.claimed obj)) objectives)).

(** One half of the object returned on the configured path. *)
Definition buildPeriod (quest : IQuest.t) (doc : IQuestProgress.t) : PeriodProgress.t :=
  let objectives := buildObjectives quest doc in
  PeriodProgress.mk (sumProgress objectives) (sumProgress objectives) objectives
                    (IQuestProgress.QuestSeen doc) (countUnclaimed objectives).

(** The literal returned when there is no quest configuration, and again
    in the [catch]. *)
Definition emptyPeriod : PeriodProgress.t := PeriodProgress.mk 0 0 [] false 0.
Definition emptyProgress : UserProgress.t := UserProgress.mk emptyPeriod emptyPeriod.

(** "Initialize progress if it doesn't exist". *)
Definition loadOrCreate (qt : QuestType) (userId key : string)
           (found : option IQuestProgress.t) (quest : option IQuest.t) : M IQuestProgress.t :=
  match found with
  | Some doc => ret doc
  | None => insertNew qt userId key (newProgress (seedObjectives quest))
  end.

(** The body of the [try] of [getUserProgress]. *)
Definition getUserProgressBody (userId : string) (now : NYDate) : M UserProgress.t :=
  connectDB ;;
  let dateKey := getDateKey now in
  let weekKey := getWeekKey now in
  let! dailyFound := findOne daily userId dateKey in
  let! weeklyFound := findOne weekly userId weekKey in
  ensureQuestsInitialized ;;
  let! dailyQuests := getQuestsByType daily in
  let! weeklyQuests := getQuestsByType weekly in
  let dailyQuest := head dailyQuests in
  let weeklyQuest := head weeklyQuests in
  let! dailyDoc := loadOrCreate daily userId dateKey dailyFound dailyQuest in
  let! weeklyDoc := loadOrCreate weekly userId weekKey weeklyFound weeklyQuest in
  match dailyQuest, weeklyQuest with
  | Some dailyQuest, Some weeklyQuest =>
      migrateQuestProgress ;;
      let! dailyDoc := save daily userId dateKey dailyDoc
                            (checkObjectiveCompletionDaily dailyDoc) in
      let! weeklyDoc := save weekly userId weekKey weeklyDoc
                             (checkObjectiveCompletionWeekly weeklyDoc) in
      ret (UserProgress.mk (buildPeriod dailyQuest dailyDoc) (buildPeriod weeklyQuest weeklyDoc))
  | _, _ => ret emptyProgress
  end.

(** [getUserProgress]. *)
Definition getUserProgress (userId : string) (now : NYDate) : M UserProgress.t :=
  tryCatch (getUserProgressBody userId now) (ret emptyProgress).

End QuestService.

(* ===================================================================== *)
(** * Overlapping calls of [claimObjective]                              *)
(* ===================================================================== *)

(** A call of an [async] method runs without interruption between two
    [await]s and may be overtaken by another call at an [await].  For
    [claimObjective] the stretch that matters is the one between the
    [findOne] that loads the document and the [save] that writes it back:
    [resume] runs a call up to the end of its [findOne], and from there to
    its end. *)
Module Overlap.
Import QuestService.

Inductive ClaimCall : Type :=
| Waiting
| Holding (p : ClaimPending)
| Finished (r : ClaimResult.t).

Definition resume (userId objectiveId : string) (now : NYDate) (c : ClaimCall) : M ClaimCall :=
  match c with
  | Waiting =>
      tryCatch (let! p := claimLoad userId objectiveId now in ret (Holding p))
               (ret (Finished internalError))
  | Holding p =>
      tryCatch (let! r := claimFinish userId objectiveId p in ret (Finished r))
               (ret (Finished internalError))
  | Finished r => ret (Finished r)
  end.

(** Two calls with the same arguments; the schedule tells whose turn it
    is ([true]: the first call). *)
Fixpoint run (userId objectiveId : string) (now : NYDate) (schedule : list bool)
         (a b : ClaimCall) : M (ClaimCall * ClaimCall) :=
  match schedule with
  | [] => ret (a, b)
  | true :: rest =>
      let! a' := resume userId objectiveId now a in run userId objectiveId now rest a' b
  | false :: rest =>
      let! b' := resume userId objectiveId now b in run userId objectiveId now rest a b'
  end.

End Overlap.

(* ===================================================================== *)
(** * Vocabulary of the specification                                    *)
(* ===================================================================== *)

Module Spec.
Import QuestService.

(** The error kinds of the specification that [claim] can return, and the
    message of [claimObjective] each one stands for. *)
Inductive ErrorKind : Type := NotFound | NotCompleted | AlreadyClaimed | Internal.

Definition kindOf (r : ClaimResult.t) : option ErrorKind :=
  match ClaimResult.error r with
  | None => None
  | Some m =>
      if decide (m = "Objective not found") then Some NotFound
      else if decide (m = "Quest progress not found") then Some NotFound
      else if decide (m = "Objective progress not found") then Some NotFound
      else if decide (m = "Objective not completed yet") then Some NotCompleted
      else if decide (m = "Objective already claimed") then Some AlreadyClaimed
      else Some Internal
  end.

(** The database after [ensureQuestsInitialized]. *)
Definition initialized (db : DB) : DB := stateOf (ensureQuestsInitialized db).

(** The catalog as a call sees it: what [getAllQuests] and
    [getQuestsByType] resolve to after [ensureQuestsInitialized]. *)
Definition allQuestsSeen (db : DB) : list IQuest.t :=
  match (ensureQuestsInitialized ;; QuestConfigService.getAllQuests) db with
  | (_, Returned qs) => qs
  | (_, Thrown) => []
  end.

Definition questsByType (qt : QuestType) (db : DB) : list IQuest.t :=
  match QuestConfigService.getQuestsByType qt db with
  | (_, Returned qs) => qs
  | (_, Thrown) => []
  end.

(** The current catalog of a quest type: the objectives of its first
    active quest. *)

(** What migration makes of an objective state whose id the catalog
    knows (definition fields from the catalog, id and flags kept), and the
    states it appends for the catalog objectives the document lacks. *)
Definition refreshed (catalog : list IQuestObjective.t) (st : IObjectiveProgress.t)
  : IObjectiveProgress.t :=
  match findConfig (IObjectiveProgress.objectiveId st) catalog with
  | Some (_, configObj) => overwrite st configObj
  | None => st
  end.

Definition missing (catalog : list IQuestObjective.t) (doc : IQuestProgress.t)
  : list IObjectiveProgress.t :=
  map seedObjective
      (List.filter
         (fun configObj =>
            negb (bool_decide (IQuestObjective.id configObj
                                 ∈ map IObjectiveProgress.objectiveId
                                       (IQuestProgress.Objectives doc))))
         catalog).

Definition objectivesOf (quest : option IQuest.t) : list IQuestObjective.t :=
  match quest with
  | Some q => IQuest.objectives q
  | None => []
  end.

Definition catalog (qt : QuestType) (db : DB) : list IQuestObjective.t :=
  objectivesOf (head (questsByType qt db)).

(** The document [getUserProgress] holds in memory for a period: the one
    it found, or the one it created from the first active quest. *)
Definition memoryDoc (qt : QuestType) (userId : string) (now : NYDate) (db : DB)
  : IQuestProgress.t :=
  default (newProgress (seedObjectives (head (questsByType qt (initialized db)))))
          (progressOf qt db !! (userId, periodKey qt now)).




(** The sum of the capped progress values of a quest's objectives. *)
Definition current (doc : IQuestProgress.t) (o : IQuestObjective.t) : Z :=
  if 0 <? IQuestObjective.messageCount o then IQuestProgress.currentMessages doc
  else IQuestProgress.currentSuccessMessages doc.

Definition target (o : IQuestObjective.t) : Z :=
  if 0 <? IQuestObjective.messageCount o then IQuestObjective.messageCount o
  else IQuestObjective.successMessageCount o.


(** [claimed => completed]. *)
Definition stateInv (st : IObjectiveProgress.t) : Prop :=
  IObjectiveProgress.claimed st = true -> IObjectiveProgress.completed st = true.

Definition docInv (doc : IQuestProgress.t) : Prop :=
  Forall stateInv (IQuestProgress.Objectives doc).

Definition dbInv (db : DB) : Prop :=
  forall qt key doc, progressOf qt db !! key = Some doc -> docInv doc.

(** An operation keeps the invariant of the database. *)
Definition preserves {A} (m : M A) : Prop :=
  forall db, dbInv db -> dbInv (stateOf (m db)).

(** A state in memory differs from the loaded one at most by
    [completed = true]. *)
Definition onlyCompletes (l c : IObjectiveProgress.t) : Prop :=
  c = l \/ c = IObjectiveProgress.setCompleted true l.

(** The operations on the progress documents, and what the collaborators
    may do in between: the catalog is edited, the connection comes and
    goes. *)
Inductive step (db : DB) : DB -> Prop :=
| step_recordEvent userId isSuccessMessage now :
    step db (stateOf (updateProgress userId isSuccessMessage now db))
| step_claim userId objectiveId now :
    step db (stateOf (claimObjective userId objectiveId now db))
| step_markSeen userId questType now :
    step db (stateOf (markQuestSeen userId questType now db))
| step_migrate :
    step db (stateOf (migrateQuestProgress db))
| step_getProgress userId now :
    step db (stateOf (getUserProgress userId now db))
| step_catalog qs :
    step db (setQuests qs db)
| step_connection b :
    step db (mkDB b (quests db) (dailyProgress db) (weeklyProgress db)).

(** Documents are created by the operations themselves: the history
    starts with empty progress collections. *)
Inductive reachable : DB -> Prop :=
| reachable_start b qs : reachable (mkDB b qs ∅ ∅)
| reachable_step db db' : reachable db -> step db db' -> reachable db'.

(** ** Statements of the specification that the code does not meet *)

(** A successful claim returns the [xpReward] of the objective state of
    the document it claimed in. *)
Definition SnapshotRewardReturned : Prop :=
  forall db userId objectiveId now r objective qt doc i st,
    valueOf (claimObjective userId objectiveId now db) = Returned r ->
    ClaimResult.success r = true ->
    findObjective (allQuestsSeen db) objectiveId = Some (objective, qt) ->
    progressOf qt db !! (userId, periodKey qt now) = Some doc ->
    findState objectiveId (IQuestProgress.Objectives doc) = Some (i, st) ->
    ClaimResult.xp r = IObjectiveProgress.xpReward st.

(** A call that failed cannot be taken for one that did not. *)
Definition FailureVisible {A} (op : M A) : Prop :=
  forall dbFailing dbWorking,
    connected dbFailing = false -> connected dbWorking = true ->
    valueOf (op dbFailing) <> valueOf (op dbWorking).

Definition FailuresAreTyped : Prop :=
  (forall userId isSuccessMessage now, FailureVisible (updateProgress userId isSuccessMessage now))
  /\ (forall userId objectiveId now, FailureVisible (claimObjective userId objectiveId now))
  /\ (forall userId now, FailureVisible (getUserProgress userId now)).

(** Of two overlapping claims of a completed, unclaimed objective state,
    exactly one succeeds and the other one is told "already claimed". *)
Definition ClaimedExactlyOnce : Prop :=
  forall db userId objectiveId now schedule db' ra rb first,
    valueOf (claimObjective userId objectiveId now db) = Returned first ->
    ClaimResult.success first = true ->
    Overlap.run userId objectiveId now schedule Overlap.Waiting Overlap.Waiting db
      = (db', Returned (Overlap.Finished ra, Overlap.Finished rb)) ->
    (ClaimResult.success ra = true /\ kindOf rb = Some AlreadyClaimed)
    \/ (kindOf ra = Some AlreadyClaimed /\ ClaimResult.success rb = true).

End Spec.

(* ===================================================================== *)
(** * Concrete databases                                                 *)
(* ===================================================================== *)

Module Examples.

Definition newYearsEve : NYDate := {| year := 2024; month := 12; day := 31 |}.

Definition weeklyQuest : IQuest.t :=
  IQuest.mk "weekly_quest" weekly "Weekly Quest" "Complete weekly objectives in order"
    [ IQuestObjective.mk "weekly_send100" 100 0 15 1;
      IQuestObjective.mk "weekly_success10" 0 10 50 2 ] true.

(** The daily quest after [daily_send10] (10 messages, 15 XP) was added
    to it, and a daily document seeded before that, now at 12 messages. *)
Definition dailyQuest : IQuest.t :=
  IQuest.mk "daily_quest" daily "Daily Quest" "Complete daily objectives in order"
    [ IQuestObjective.mk "daily_success1" 0 1 10 1;
      IQuestObjective.mk "daily_send10" 10 0 15 2 ] true.

Definition docBefore : IQuestProgress.t :=
  IQuestProgress.mk 12 0 [ IObjectiveProgress.mk "daily_success1" 0 1 10 1 false false ]
                    false true 0 0.

Definition dbGrown : DB :=
  mkDB true [dailyQuest; weeklyQuest] {[ ("u", "2024-12-31") := docBefore ]} ∅.

(** What [getUserProgress] returns for that database. *)
Definition progressGrown : UserProgress.t :=
  Eval vm_compute in
    match valueOf (QuestService.getUserProgress "u" newYearsEve dbGrown) with
    | Returned r => r
    | Thrown => QuestService.emptyProgress
    end.

(** A document whose first objective is completed with a snapshot reward
    of 10, and a catalog that now grants 25 for it. *)
Definition dailyQuestRaised : IQuest.t :=
  IQuest.mk "daily_quest" daily "Daily Quest" "Complete daily objectives in order"
    [ IQuestObjective.mk "daily_success1" 0 1 25 1 ] true.

Definition docCompleted : IQuestProgress.t :=
  IQuestProgress.mk 0 1 [ IObjectiveProgress.mk "daily_success1" 0 1 10 1 true false ]
                    false false 0 0.

Definition dbRaised : DB :=
  mkDB true [dailyQuestRaised; weeklyQuest] {[ ("u", "2024-12-31") := docCompleted ]} ∅.


(** The default catalog with one completed, unclaimed objective. *)
Definition dbCompleted : DB :=
  mkDB true QuestConfigService.defaultQuests {[ ("u", "2024-12-31") := docCompleted ]} ∅.

(** The database after one success message and the claim of the objective
    it completed, starting from nothing. *)
Definition dbPlayed : DB :=
  stateOf (QuestService.claimObjective "u" "daily_success1" newYearsEve
             (stateOf (QuestService.updateProgress "u" true newYearsEve (mkDB true [] ∅ ∅)))).

(** The same data behind a connection that fails, and a reachable
    database whose quests are all inactive. *)
Definition dbDown : DB :=
  mkDB false QuestConfigService.defaultQuests {[ ("u", "2024-12-31") := docCompleted ]} ∅.

Definition dbUnconfigured : DB :=
  mkDB true
    [ IQuest.mk "daily_quest" daily "Daily Quest" "Complete daily objectives in order" [] false ]
    ∅ ∅.

End Examples.

(* ===================================================================== *)
(** * QuestConfigService.ts: editing the catalog                         *)
(* ===================================================================== *)

(** The argument [updates] of [updateQuest]: every field may be absent. *)
Module Updates.
Record t : Type := mk {
  title : option string;
  description : option string;
  objectives : option (list IQuestObjective.t);
  isActive : option bool
}.
End Updates.

Module QuestConfigEdit.
Import QuestConfigService.

(** The body of the first [.map ((obj, idx) => ...)] of [updateQuest].
    [now idx] is what [Date.now ()] returns while element [idx] is mapped.
    On integers [x || 0] is [x], and [obj.order && obj.order > 0] is
    [obj.order > 0]. *)
Definition normalizeObjective (now : nat -> Z) (idx : nat) (obj : IQuestObjective.t)
  : IQuestObjective.t :=
  let msg := Z.max 0 (IQuestObjective.messageCount obj) in
  let suc := Z.max 0 (IQuestObjective.successMessageCount obj) in
  let messageCount :=
    if (0 <? msg) && (0 <? suc) then (if suc <=? msg then msg else 0) else msg in
  let successMessageCount :=
    if (0 <? msg) && (0 <? suc) then (if suc <=? msg then 0 else suc) else suc in
  IQuestObjective.mk
    (if decide (IQuestObjective.id obj = "")
     then "objective_" +:+ PeriodKey.toString (now idx) +:+ "_" +:+ PeriodKey.toString (Z.of_nat idx)
     else IQuestObjective.id obj)
    messageCount successMessageCount
    (Z.max 0 (IQuestObjective.xpReward obj))
    (if 0 <? IQuestObjective.order obj then IQuestObjective.order obj
     else Z.of_nat idx + 1).

(** The last [.map ((obj, i) => ({ ...obj, order: i + 1 }))]. *)
Definition renumber (i : nat) (obj : IQuestObjective.t) : IQuestObjective.t :=
  IQuestObjective.mk (IQuestObjective.id obj) (IQuestObjective.messageCount obj)
    (IQuestObjective.successMessageCount obj) (IQuestObjective.xpReward obj)
    (Z.of_nat i + 1).

(** [normalizedObjectives]. *)
Definition normalizedObjectives (now : nat -> Z) (objectives : list IQuestObjective.t)
  : list IQuestObjective.t :=
  imap renumber (sortObjectives (imap (normalizeObjective now) objectives)).

(** [{ ...updates }] with the objectives replaced by the normalized ones. *)
Definition sanitize (now : nat -> Z) (updates : Updates.t) : Updates.t :=
  Updates.mk (Updates.title updates) (Updates.description updates)
             (normalizedObjectives now <$> Updates.objectives updates)
             (Updates.isActive updates).

(** [{ $set: sanitized }] on one quest. *)
Definition applyUpdates (sanitized : Updates.t) (q : IQuest.t) : IQuest.t :=
  IQuest.mk (IQuest.questId q) (IQuest.questType q)
            (default (IQuest.title q) (Updates.title sanitized))
            (default (IQuest.description q) (Updates.description sanitized))
            (default (IQuest.objectives q) (Updates.objectives sanitized))
            (default (IQuest.isActive q) (Updates.isActive sanitized)).

(** [Quest.findOneAndUpdate ({ companyId, questId }, ...)]: the first quest
    with that id is replaced; [None] when there is none. *)
Fixpoint findOneAndUpdate (questId : string) (f : IQuest.t -> IQuest.t) (qs : list IQuest.t)
  : option (list IQuest.t) :=
  match qs with
  | [] => None
  | q :: rest =>
      if decide (IQuest.questId q = questId) then Some (f q :: rest)
      else cons q <$> findOneAndUpdate questId f rest
  end.

(** [updateQuest]. *)
Definition updateQuest (now : nat -> Z) (questId : string) (updates : Updates.t) : M bool :=
  tryCatch
    (connectDB ;;
     let sanitized := sanitize now updates in
     let! db := get in
     match findOneAndUpdate questId (applyUpdates sanitized) (quests db) with
     | Some qs => modify (setQuests qs) ;; ret true
     | None => ret false
     end)
    (ret false).

(** [getQuestById]. *)
Definition getQuestById (questId : string) : M (option IQuest.t) :=
  tryCatch
    (connectDB ;;
     let! db := get in
     ret (snd <$> list_find (fun q => IQuest.questId q = questId) (quests db)))
    (ret None).

(** An objective as [updateQuest] stores it. *)
Definition wellFormed (obj : IQuestObjective.t) : Prop :=
  IQuestObjective.id obj <> ""
  /\ 0 <= IQuestObjective.messageCount obj
  /\ 0 <= IQuestObjective.successMessageCount obj
  /\ (IQuestObjective.messageCount obj = 0 \/ IQuestObjective.successMessageCount obj = 0)
  /\ 0 <= IQuestObjective.xpReward obj.

(** An objective without its [order]. *)
Definition content (obj : IQuestObjective.t) : string * Z * Z * Z :=
  (IQuestObjective.id obj, IQuestObjective.messageCount obj,
   IQuestObjective.successMessageCount obj, IQuestObjective.xpReward obj).

End QuestConfigEdit.

(* ===================================================================== *)
(** * More example data                                                  *)
(* ===================================================================== *)

Module Scenes.
Import Examples.

(** A user one message short of [daily_send10], and the two documents
    the next message leaves. *)
Definition docNine : IQuestProgress.t :=
  IQuestProgress.mk 9 0
    [ IObjectiveProgress.mk "daily_success1" 0 1 10 1 false false;
      IObjectiveProgress.mk "daily_send10" 10 0 15 2 false false ]
    false true 0 0.

Definition dbNine : DB :=
  mkDB true QuestConfigService.defaultQuests {[ ("u", "2024-12-31") := docNine ]} ∅.

Definition dailyTen : IQuestProgress.t :=
  IQuestProgress.mk 10 0
    [ IObjectiveProgress.mk "daily_success1" 0 1 10 1 false false;
      IObjectiveProgress.mk "daily_send10" 10 0 15 2 true false ]
    false false 0 0.

Definition weeklyOne : IQuestProgress.t :=
  IQuestProgress.mk 1 0
    [ IObjectiveProgress.mk "weekly_send100" 100 0 15 1 false false;
      IObjectiveProgress.mk "weekly_success10" 0 10 50 2 false false ]
    false true 0 0.

(** The same user after that message, and what [getUserProgress] shows
    them. *)
Definition dbTen : DB :=
  mkDB true QuestConfigService.defaultQuests {[ ("u", "2024-12-31") := dailyTen ]} ∅.

Definition shownTen : UserProgress.t :=
  Eval vm_compute in
    match valueOf (QuestService.getUserProgress "u" newYearsEve dbTen) with
    | Returned r => r
    | Thrown => QuestService.emptyProgress
    end.

(** A document that reached [daily_send10] without a completion check,
    and what [getUserProgress] shows for it. *)
Definition docTenUnchecked : IQuestProgress.t :=
  IQuestProgress.mk 10 0
    [ IObjectiveProgress.mk "daily_success1" 0 1 10 1 false false;
      IObjectiveProgress.mk "daily_send10" 10 0 15 2 false false ]
    false true 0 0.

Definition dbTenUnchecked : DB :=
  mkDB true QuestConfigService.defaultQuests {[ ("u", "2024-12-31") := docTenUnchecked ]} ∅.

Definition shownTenUnchecked : UserProgress.t :=
  Eval vm_compute in
    match valueOf (QuestService.getUserProgress "u" newYearsEve dbTenUnchecked) with
    | Returned r => r
    | Thrown => QuestService.emptyProgress
    end.

End Scenes.

(* ===================================================================== *)
(** * Overlapping calls of [updateProgress]                              *)
(* ===================================================================== *)

(** [updateDailyProgress] and [updateWeeklyProgress] around the await that
    separates loading the document from writing it back. *)
Module OverlapEvents.
Import QuestConfigService Mongoose QuestService.

(** Up to the document in memory. *)
Definition recordLoad (qt : QuestType) (userId key : string) : M IQuestProgress.t :=
  ensureQuestsInitialized ;;
  let! periodQuests := getQuestsByType qt in
  let periodQuest := head periodQuests in
  let! found := findOne qt userId key in
  match found with
  | Some p => ret p
  | None => upsert qt userId key (newProgress (seedObjectives periodQuest))
  end.

(** From the increment to the [save]. *)
Definition recordFinish (qt : QuestType) (userId key : string) (isSuccessMessage : bool)
           (progress : IQuestProgress.t) : M IQuestProgress.t :=
  save qt userId key progress
       (checkObjectiveCompletion qt (increment isSuccessMessage progress)).

(** Two calls for the same document that both load before either writes. *)
Definition recordBoth (qt : QuestType) (userId key : string) (first second : bool)
  : M (IQuestProgress.t * IQuestProgress.t) :=
  let! a := recordLoad qt userId key in
  let! b := recordLoad qt userId key in
  let! a' := recordFinish qt userId key first a in
  let! b' := recordFinish qt userId key second b in
  ret (a', b').

End OverlapEvents.

(* ===================================================================== *)
(** * Vocabulary for the period keys and the histories                   *)
(* ===================================================================== *)

Module Facts.
Import JSDate PeriodKey QuestService.

(** The ISO-8601 year and week number of a date, the two halves of
    [isoWeekKey]. *)
Definition isoYear (date : NYDate) : Z := fst (fst (civilFromDays (isoThursday date))).

Definition isoWeekNumber (date : NYDate) : Z :=
  (isoThursday date - daysFromCivil (isoYear date) 1 1) / 7 + 1.

(** A date of the calendar: its day number names the same year, month
    and day. *)
Definition realDate (date : NYDate) : Prop :=
  civilFromDays (makeDay (year date) (month date - 1) (day date))
  = (year date, month date, day date).

(** The value of a string of decimal digits. *)
Definition digitValue (c : Ascii.ascii) : Z := Z.of_nat (Ascii.nat_of_ascii c) - 48.

Fixpoint digitsValueFrom (acc : Z) (s : string) : Z :=
  match s with
  | EmptyString => acc
  | String c s' => digitsValueFrom (10 * acc + digitValue c) s'
  end.

Definition digitsValue (s : string) : Z := digitsValueFrom 0 s.

(** A calendar date with a year of four digits, the years for which the
    locale string that [getDateKey] has re-parsed names the year the New
    York wall clock shows. *)
Definition validDate (d : NYDate) : Prop :=
  1000 <= year d <= 9999 /\ 1 <= month d <= 12 /\ 1 <= day d <= 31.

(** The integers a JavaScript number counts exactly: [+= 1] is the
    successor on them. *)
Definition safeCounter (n : Z) : Prop := - 2 ^ 53 <= n < 2 ^ 53.

(** Nothing earned is lost between two states of a document: every
    objective state is still at its place with its id, and stays completed
    and claimed if it was. *)
Definition stateKept (st st' : IObjectiveProgress.t) : Prop :=
  IObjectiveProgress.objectiveId st' = IObjectiveProgress.objectiveId st
  /\ (IObjectiveProgress.completed st = true -> IObjectiveProgress.completed st' = true)
  /\ (IObjectiveProgress.claimed st = true -> IObjectiveProgress.claimed st' = true).

Definition docKept (doc doc' : IQuestProgress.t) : Prop :=
  IQuestProgress.currentMessages doc <= IQuestProgress.currentMessages doc'
  /\ IQuestProgress.currentSuccessMessages doc <= IQuestProgress.currentSuccessMessages doc'
  /\ forall i st, IQuestProgress.Objectives doc !! i = Some st ->
       exists st', IQuestProgress.Objectives doc' !! i = Some st' /\ stateKept st st'.

Definition dbKept (db db' : DB) : Prop :=
  forall qt key doc, progressOf qt db !! key = Some doc ->
    exists doc', progressOf qt db' !! key = Some doc' /\ docKept doc doc'.

(** An operation that keeps what every document has earned. *)
Definition keeps {A} (m : M A) : Prop := forall db, dbKept db (stateOf (m db)).

(** What a copy in memory may change so that its [save] keeps the stored
    document, whatever that is by now: no counter, no id, no flag back to
    [false]. *)
Definition mayWrite (l c : IQuestProgress.t) : Prop :=
  IQuestProgress.currentMessages c = IQuestProgress.currentMessages l
  /\ IQuestProgress.currentSuccessMessages c = IQuestProgress.currentSuccessMessages l
  /\ Forall2 stateKept (IQuestProgress.Objectives l) (IQuestProgress.Objectives c).

(** The document an event or a read holds in memory for a key: the stored
    one, or the one created from the first active quest. *)
Definition loadedDoc (qt : QuestType) (userId key : string) (db : DB) : IQuestProgress.t :=
  default (newProgress (seedObjectives (head (Spec.questsByType qt (Spec.initialized db)))))
          (progressOf qt db !! (userId, key)).

(** The document an event leaves for a key. *)
Definition recorded (qt : QuestType) (userId key : string) (isSuccessMessage : bool) (db : DB)
  : IQuestProgress.t :=
  checkObjectiveCompletion qt (increment isSuccessMessage (loadedDoc qt userId key db)).

(** The document migration stores for a document, field by field. *)
Definition migrated (catalog : list IQuestObjective.t) (doc : IQuestProgress.t)
  : IQuestProgress.t :=
  IQuestProgress.mk (IQuestProgress.currentMessages doc)
    (IQuestProgress.currentSuccessMessages doc)
    (map (Spec.refreshed catalog) (IQuestProgress.Objectives doc ++ Spec.missing catalog doc))
    (IQuestProgress.Completed doc) (IQuestProgress.QuestSeen doc)
    (IQuestProgress.NotificationCount doc)
    (match Spec.missing catalog doc with
     | [] => IQuestProgress.version doc
     | _ :: _ => IQuestProgress.version doc + 1
     end).

(** The ids of the catalog objectives a document has no state for, in the
    order of the catalog. *)
Definition missingIds (catalog : list IQuestObjective.t) (doc : IQuestProgress.t)
  : list string :=
  List.filter
    (fun id => negb (bool_decide (id ∈ map IObjectiveProgress.objectiveId
                                         (IQuestProgress.Objectives doc))))
    (map IQuestObjective.id catalog).

(** A state carries the definition fields of a catalog objective. *)
Definition definedBy (configObj : IQuestObjective.t) (st : IObjectiveProgress.t) : Prop :=
  IObjectiveProgress.messageCount st = IQuestObjective.messageCount configObj
  /\ IObjectiveProgress.successMessageCount st = IQuestObjective.successMessageCount configObj
  /\ IObjectiveProgress.xpReward st = IQuestObjective.xpReward configObj
  /\ IObjectiveProgress.order st = IQuestObjective.order configObj.

(** A list is in the order of [le], neighbour by neighbour. *)
Fixpoint sortedBy {A} (le : A -> A -> bool) (l : list A) : bool :=
  match l with
  | [] => true
  | x :: l' => match l' with [] => true | y :: _ => le x y end && sortedBy le l'
  end.

(** The comparators of the catalog queries: [a.order - b.order] and
    [.sort ({ questId: 1 })]. *)
Definition byOrder (a b : IQuestObjective.t) : bool :=
  IQuestObjective.order a <=? IQuestObjective.order b.

Definition byQuestId (a b : IQuest.t) : bool :=
  String.leb (IQuest.questId a) (IQuest.questId b).

(** The quests a query for the active quests of a type matches. *)
Definition activeOfType (qt : QuestType) (qs : list IQuest.t) : list IQuest.t :=
  filter (fun q => IQuest.questType q = qt /\ IQuest.isActive q = true) qs.

(** One half of a read-model. *)
Definition periodOf (qt : QuestType) (r : UserProgress.t) : PeriodProgress.t :=
  match qt with daily => UserProgress.daily r | weekly => UserProgress.weekly r end.

(** The document [getUserProgress] leaves stored for the user's period on
    its configured path: the migrated document, with the completions of the
    copy in memory written into it. *)
Definition readStored (qt : QuestType) (userId : string) (now : NYDate) (db : DB)
  : IQuestProgress.t :=
  let l := Spec.memoryDoc qt userId now db in
  Mongoose.patch l (checkObjectiveCompletion qt l)
                 (migrated (Spec.catalog qt (Spec.initialized db)) l).

(** A document is in step with a catalog: every catalog objective has a
    state of its id there, and the first such state carries the two
    thresholds of the objective. *)
Definition inSync (catalog : list IQuestObjective.t) (doc : IQuestProgress.t) : Prop :=
  forall obj, obj ∈ catalog ->
    exists i st,
      findState (IQuestObjective.id obj) (IQuestProgress.Objectives doc) = Some (i, st)
      /\ IObjectiveProgress.messageCount st = IQuestObjective.messageCount obj
      /\ IObjectiveProgress.successMessageCount st = IQuestObjective.successMessageCount obj.

(** Two objective states with the same id and thresholds. *)
Definition sameDefinition (st st' : IObjectiveProgress.t) : Prop :=
  IObjectiveProgress.objectiveId st' = IObjectiveProgress.objectiveId st
  /\ IObjectiveProgress.messageCount st' = IObjectiveProgress.messageCount st
  /\ IObjectiveProgress.successMessageCount st' = IObjectiveProgress.successMessageCount st.

(** Two objective states with the same id and flags. *)
Definition sameFlags (st st' : IObjectiveProgress.t) : Prop :=
  IObjectiveProgress.objectiveId st' = IObjectiveProgress.objectiveId st
  /\ IObjectiveProgress.completed st' = IObjectiveProgress.completed st
  /\ IObjectiveProgress.claimed st' = IObjectiveProgress.claimed st.

End Facts.

(* ===================================================================== *)
(** * Basic facts about the collaborators                                *)
(* ===================================================================== *)

Section Collaborators.
Import QuestConfigService QuestService Spec.

Lemma progressOf_setProgress qt c db : progressOf qt (setProgress qt c db) = c.
Proof. by destruct qt. Qed.

Lemma progressOf_setProgress_ne qt qt' c db :
  qt <> qt' -> progressOf qt' (setProgress qt c db) = progressOf qt' db.
Proof. by destruct qt, qt'. Qed.

Lemma progressOf_setQuests qt qs db : progressOf qt (setQuests qs db) = progressOf qt db.
Proof. by destruct qt. Qed.

Lemma setProgress_same qt db : setProgress qt (progressOf qt db) db = db.
Proof. by destruct qt, db. Qed.

(** [ensureQuestsInitialized] never throws and touches the catalog only;
    a second run finds the catalog filled. *)
Lemma ensureQuestsInitialized_returns db :
  ensureQuestsInitialized db = (initialized db, Returned tt).
Proof.
  unfold initialized, ensureQuestsInitialized, initializeDefaultQuests, tryCatch, bind,
    connectDB, get, ret, modify.
  destruct db as [[] [|q qs] d w]; done.
Qed.

Lemma initialized_quests db :
  initialized db
  = if connected db && negb (0 <? length (quests db))%nat
    then setQuests (quests db ++ defaultQuests) db else db.
Proof.
  unfold initialized, ensureQuestsInitialized, initializeDefaultQuests, tryCatch, bind,
    connectDB, get, ret, modify.
  destruct db as [[] [|q qs] d w]; done.
Qed.

Lemma progressOf_initialized qt db : progressOf qt (initialized db) = progressOf qt db.
Proof.
  rewrite initialized_quests.
  destruct (_ && _); [apply progressOf_setQuests | done].
Qed.

Lemma connected_initialized db : connected (initialized db) = connected db.
Proof. rewrite initialized_quests. by destruct (_ && _). Qed.

Lemma initialized_idem db : initialized (initialized db) = initialized db.
Proof.
  rewrite (initialized_quests (initialized db)), connected_initialized.
  rewrite (initialized_quests db).
  destruct (connected db) eqn:Hc; simpl; [|done].
  destruct (0 <? length (quests db))%nat eqn:Hq; simpl.
  - by rewrite Hq.
  - rewrite length_app. simpl.
    destruct (0 <? length (quests db) + 2)%nat eqn:Hq'; [done|].
    apply Nat.ltb_ge in Hq'. lia.
Qed.

Lemma getQuestsByType_returns qt db :
  getQuestsByType qt db = (db, Returned (questsByType qt db)).
Proof.
  unfold questsByType, getQuestsByType, tryCatch, bind, connectDB, get, ret.
  by destruct (connected db).
Qed.

Lemma getAllQuests_returns db : exists qs, getAllQuests db = (db, Returned qs).
Proof.
  unfold getAllQuests, tryCatch, bind, connectDB, get, ret.
  destruct (connected db); eauto.
Qed.

End Collaborators.

(* ===================================================================== *)
(** * Saving a document that nobody else wrote to                        *)
(* ===================================================================== *)

Section Saving.
Import Mongoose.

Lemma pick_same {A} `{EqDecision A} (l c : A) : pick l c l = c.
Proof. unfold pick. by destruct (decide (l = c)). Qed.

Lemma pick_unchanged {A} `{EqDecision A} (l s : A) : pick l l s = s.
Proof. unfold pick. by destruct (decide (l = l)). Qed.

Lemma patchObjective_same l c : patchObjective l c l = c.
Proof. destruct l, c. unfold patchObjective; simpl. by rewrite !pick_same. Qed.

Lemma patchObjective_unchanged l s : patchObjective l l s = s.
Proof. destruct l, s. unfold patchObjective; simpl. by rewrite !pick_unchanged. Qed.

Lemma patchObjectives_same l c :
  (length l <= length c)%nat -> patchObjectives l c l = c.
Proof.
  revert c. induction l as [|a l IH]; intros [|b c] Hlen; simpl in *; try done; try lia.
  rewrite patchObjective_same, IH; [done | lia].
Qed.

Lemma patchObjectives_unchanged l s : patchObjectives l l s = s.
Proof.
  revert s. induction l as [|a l IH]; intros s; simpl.
  - by rewrite app_nil_r.
  - destruct s as [|b s]; [apply IH |]. by rewrite patchObjective_unchanged, IH.
Qed.

Lemma patch_same l c :
  (length (IQuestProgress.Objectives l) <= length (IQuestProgress.Objectives c))%nat ->
  IQuestProgress.version c = IQuestProgress.version l ->
  patch l c l = saved l c.
Proof.
  intros Hlen Hv. unfold patch, saved. rewrite !pick_same, patchObjectives_same by done.
  destruct c as [m s os cp qs nc v]; simpl in *. subst v.
  by destruct (pushes l _).
Qed.

Lemma patch_unchanged l s : patch l l s = s.
Proof.
  unfold patch, pushes. rewrite !pick_unchanged, patchObjectives_unchanged.
  rewrite Nat.ltb_irrefl. by destruct s.
Qed.

(** Loaded and saved with no write in between: the stored document becomes
    the one in memory. *)
Lemma save_loaded qt userId key l c db :
  progressOf qt db !! (userId, key) = Some l ->
  (length (IQuestProgress.Objectives l) <= length (IQuestProgress.Objectives c))%nat ->
  IQuestProgress.version c = IQuestProgress.version l ->
  save qt userId key l c db
  = (setProgress qt (<[(userId, key) := saved l c]> (progressOf qt db)) db,
     Returned (saved l c)).
Proof.
  intros Hl Hlen Hv. unfold save, bind, get, ret, modify, throw. rewrite Hl.
  rewrite Z.eqb_refl, andb_false_r. by rewrite patch_same.
Qed.

Lemma saved_same_length l c :
  length (IQuestProgress.Objectives l) = length (IQuestProgress.Objectives c) ->
  saved l c = c.
Proof. intros Hlen. unfold saved, pushes. rewrite Hlen, Nat.ltb_irrefl. done. Qed.

End Saving.

(* ===================================================================== *)
(** * Claiming                                                           *)
(* ===================================================================== *)

Section Claiming.
Import Mongoose QuestConfigService QuestService Spec Examples.

Lemma connectDB_connected db : connected db = true -> connectDB db = (db, Returned tt).
Proof. unfold connectDB. by intros ->. Qed.

Lemma connectDB_disconnected db : connected db = false -> connectDB db = (db, Thrown).
Proof. unfold connectDB. by intros ->. Qed.

(** The first stretch of a claim: the catalog may get its default quests,
    the objective is resolved against it and the document is loaded. *)
Lemma allQuestsSeen_initialized db : allQuestsSeen (initialized db) = allQuestsSeen db.
Proof.
  unfold allQuestsSeen, bind.
  by rewrite !ensureQuestsInitialized_returns, initialized_idem.
Qed.

Lemma claimLoad_connected db userId objectiveId now :
  connected db = true ->
  claimLoad userId objectiveId now db
  = (initialized db,
     Returned
       match findObjective (allQuestsSeen db) objectiveId with
       | None => Resolved (failed "Objective not found")
       | Some (objective, qt) =>
           Loaded qt (periodKey qt now) objective
                  (progressOf qt db !! (userId, periodKey qt now))
       end).
Proof.
  intros Hc.
  destruct (getAllQuests_returns (initialized db)) as (allQuests & Ha).
  unfold claimLoad, allQuestsSeen, bind.
  rewrite (connectDB_connected _ Hc), ensureQuestsInitialized_returns, Ha.
  destruct (findObjective allQuests objectiveId) as [[objective qt]|]; [|done].
  unfold findOne, bind, get, ret. rewrite progressOf_initialized. by destruct qt.
Qed.

(** The document a successful claim leaves: [claimed] set on the state
    that [find] returned. *)
Lemma claim_save qt userId key doc i st db :
  progressOf qt db !! (userId, key) = Some doc ->
  let doc' := IQuestProgress.setObjectives
                (<[i := IObjectiveProgress.setClaimed true st]> (IQuestProgress.Objectives doc))
                doc in
  save qt userId key doc doc' db
  = (setProgress qt (<[(userId, key) := doc']> (progressOf qt db)) db, Returned doc').
Proof.
  intros Hdoc doc'.
  assert (Hlen : length (IQuestProgress.Objectives doc)
                 = length (IQuestProgress.Objectives doc')).
  { unfold doc'. simpl. by rewrite length_insert. }
  rewrite (save_loaded _ _ _ _ doc' _ Hdoc); [| lia | done].
  by rewrite (saved_same_length _ _ Hlen).
Qed.

(** [claimObjective] on a reachable database, branch by branch. *)
Lemma claimObjective_connected db userId objectiveId now :
  connected db = true ->
  claimObjective userId objectiveId now db
  = match findObjective (allQuestsSeen db) objectiveId with
    | None => (initialized db, Returned (failed "Objective not found"))
    | Some (objective, qt) =>
        match progressOf qt db !! (userId, periodKey qt now) with
        | None => (initialized db, Returned (failed "Quest progress not found"))
        | Some doc =>
            match findState objectiveId (IQuestProgress.Objectives doc) with
            | None => (initialized db, Returned (failed "Objective progress not found"))
            | Some (i, st) =>
                if negb (IObjectiveProgress.completed st)
                then (initialized db, Returned (failed "Objective not completed yet"))
                else if IObjectiveProgress.claimed st
                then (initialized db, Returned (failed "Objective already claimed"))
                else
                  (setProgress qt
                     (<[(userId, periodKey qt now) :=
                          IQuestProgress.setObjectives
                            (<[i := IObjectiveProgress.setClaimed true st]>
                               (IQuestProgress.Objectives doc)) doc]> (progressOf qt db))
                     (initialized db),
                   Returned (ClaimResult.mk true None (IQuestObjective.xpReward objective)))
            end
        end
    end.
Proof.
  intros Hc. unfold claimObjective, tryCatch, bind.
  rewrite (claimLoad_connected _ _ _ _ Hc).
  destruct (findObjective (allQuestsSeen db) objectiveId) as [[objective qt]|]; simpl; [|done].
  destruct (progressOf qt db !! (userId, periodKey qt now)) as [doc|] eqn:Hdoc; simpl; [|done].
  destruct (findState objectiveId (IQuestProgress.Objectives doc)) as [[i st]|]; simpl; [|done].
  destruct (IObjectiveProgress.completed st); simpl; [|done].
  destruct (IObjectiveProgress.claimed st); simpl; [done|].
  unfold bind. rewrite claim_save by (by rewrite progressOf_initialized).
  by rewrite progressOf_initialized.
Qed.

Lemma claimObjective_disconnected db userId objectiveId now :
  connected db = false ->
  claimObjective userId objectiveId now db = (db, Returned internalError).
Proof.
  intros Hc. unfold claimObjective, claimLoad, tryCatch, bind.
  by rewrite (connectDB_disconnected _ Hc).
Qed.

(** C2. With the database reachable, [claimObjective] fails with a
    not-found error when the catalog does not know the objective, when there
    is no progress document for the period of its quest type, or when the
    document has no state with that id; with "not completed" when the state
    found has [completed = false]; with "already claimed" when it is
    completed and has [claimed = true]; in the remaining case, completed and
    not claimed, it sets [claimed] on that state, stores the document and
    succeeds.  Every failing outcome leaves both progress collections as
    they were. *)
Theorem claimObjective_outcomes db userId objectiveId now :
  connected db = true ->
  let out := claimObjective userId objectiveId now db in
  let refused kind message :=
    valueOf out = Returned (failed message)
    /\ kindOf (failed message) = Some kind
    /\ forall qt, progressOf qt (stateOf out) = progressOf qt db in
  match findObjective (allQuestsSeen db) objectiveId with
  | None => refused NotFound "Objective not found"
  | Some (objective, qt) =>
      match progressOf qt db !! (userId, periodKey qt now) with
      | None => refused NotFound "Quest progress not found"
      | Some doc =>
          match findState objectiveId (IQuestProgress.Objectives doc) with
          | None => refused NotFound "Objective progress not found"
          | Some (i, st) =>
              if negb (IObjectiveProgress.completed st)
              then refused NotCompleted "Objective not completed yet"
              else if IObjectiveProgress.claimed st
              then refused AlreadyClaimed "Objective already claimed"
              else
                valueOf out
                = Returned (ClaimResult.mk true None (IQuestObjective.xpReward objective))
                /\ (exists doc' st',
                      progressOf qt (stateOf out)
                      = <[(userId, periodKey qt now) := doc']> (progressOf qt db)
                      /\ progressOf qt (stateOf out) !! (userId, periodKey qt now) = Some doc'
                      /\ IQuestProgress.Objectives doc'
                         = <[i := st']> (IQuestProgress.Objectives doc)
                      /\ IQuestProgress.Objectives doc' !! i = Some st'
                      /\ IObjectiveProgress.claimed st' = true
                      /\ IObjectiveProgress.completed st' = true
                      /\ IObjectiveProgress.objectiveId st' = objectiveId
                      /\ IObjectiveProgress.messageCount st'
                         = IObjectiveProgress.messageCount st
                      /\ IObjectiveProgress.successMessageCount st'
                         = IObjectiveProgress.successMessageCount st
                      /\ IObjectiveProgress.xpReward st' = IObjectiveProgress.xpReward st
                      /\ IObjectiveProgress.order st' = IObjectiveProgress.order st
                      /\ IQuestProgress.currentMessages doc'
                         = IQuestProgress.currentMessages doc
                      /\ IQuestProgress.currentSuccessMessages doc'
                         = IQuestProgress.currentSuccessMessages doc
                      /\ IQuestProgress.Completed doc' = IQuestProgress.Completed doc
                      /\ IQuestProgress.QuestSeen doc' = IQuestProgress.QuestSeen doc
                      /\ IQuestProgress.NotificationCount doc'
                         = IQuestProgress.NotificationCount doc
                      /\ IQuestProgress.version doc' = IQuestProgress.version doc)
                /\ forall qt', qt' <> qt -> progressOf qt' (stateOf out) = progressOf qt' db
          end
      end
  end.
Proof.
  intros Hc out refused. unfold refused, out.
  rewrite (claimObjective_connected _ _ _ _ Hc).
  destruct (findObjective (allQuestsSeen db) objectiveId) as [[objective qt]|];
    [| by split_and!; [..| intros; apply progressOf_initialized]].
  destruct (progressOf qt db !! (userId, periodKey qt now)) as [doc|];
    [| by split_and!; [..| intros; apply progressOf_initialized]].
  destruct (findState objectiveId (IQuestProgress.Objectives doc)) as [[i st]|] eqn:Hst;
    [| by split_and!; [..| intros; apply progressOf_initialized]].
  apply list_find_Some in Hst as (Hi & Hid & _).
  destruct (IObjectiveProgress.completed st) eqn:Hcompleted; simpl;
    [| by split_and!; [..| intros; apply progressOf_initialized]].
  destruct (IObjectiveProgress.claimed st); simpl;
    [by split_and!; [..| intros; apply progressOf_initialized] |].
  split_and!; [done | |].
  - exists (IQuestProgress.setObjectives
              (<[i := IObjectiveProgress.setClaimed true st]> (IQuestProgress.Objectives doc))
              doc),
           (IObjectiveProgress.setClaimed true st).
    split_and!; try done.
    + apply progressOf_setProgress.
    + rewrite progressOf_setProgress. apply lookup_insert_eq.
    + simpl. apply list_lookup_insert_eq. by eapply lookup_lt_Some.
  - intros qt' Hne. rewrite progressOf_setProgress_ne by done. apply progressOf_initialized.
Qed.

Lemma claimObjective_outcomes_witness :
  connected dbCompleted = true
  /\ valueOf (claimObjective "u" "daily_success1" newYearsEve dbCompleted)
     = Returned (ClaimResult.mk true None 10)
  /\ IObjectiveProgress.claimed <$> IQuestProgress.Objectives docCompleted = [false]
  /\ exists doc' st',
      progressOf daily (stateOf (claimObjective "u" "daily_success1" newYearsEve dbCompleted))
        !! ("u", "2024-12-31")%string = Some doc'
      /\ IQuestProgress.Objectives doc' !! 0%nat = Some st'
      /\ IObjectiveProgress.claimed st' = true
      /\ IObjectiveProgress.completed st' = true
      /\ IObjectiveProgress.objectiveId st' = "daily_success1"%string.
Proof.
  split; [reflexivity |].
  destruct (claimObjective_outcomes dbCompleted "u" "daily_success1" newYearsEve eq_refl)
    as (Hvalue & (doc' & st' & _ & Hdoc' & _ & Hst' & Hclaimed & Hcompleted & Hid & _) & _).
  split; [exact Hvalue |]. split; [reflexivity |].
  exists doc', st'. split_and!; [exact Hdoc' | exact Hst' | exact Hclaimed | exact Hcompleted |
                                  exact Hid].
Defined.

(** On a document that satisfies [claimed => completed], every state with
    [claimed = true] is refused as already claimed. *)
Lemma claimed_state_refused db userId objectiveId now objective qt doc i st :
  connected db = true ->
  findObjective (allQuestsSeen db) objectiveId = Some (objective, qt) ->
  progressOf qt db !! (userId, periodKey qt now) = Some doc ->
  findState objectiveId (IQuestProgress.Objectives doc) = Some (i, st) ->
  stateInv st ->
  IObjectiveProgress.claimed st = true ->
  claimObjective userId objectiveId now db
  = (initialized db, Returned (failed "Objective already claimed")).
Proof.
  intros Hc Hfind Hdoc Hst Hinv Hclaimed.
  rewrite (claimObjective_connected _ _ _ _ Hc), Hfind, Hdoc, Hst.
  by rewrite (Hinv Hclaimed), Hclaimed.
Qed.

(** A successful claim: what was found on the way. *)
Lemma claimObjective_success db userId objectiveId now r :
  valueOf (claimObjective userId objectiveId now db) = Returned r ->
  ClaimResult.success r = true ->
  connected db = true
  /\ exists objective qt doc i st,
      findObjective (allQuestsSeen db) objectiveId = Some (objective, qt)
      /\ progressOf qt db !! (userId, periodKey qt now) = Some doc
      /\ findState objectiveId (IQuestProgress.Objectives doc) = Some (i, st)
      /\ IObjectiveProgress.completed st = true
      /\ IObjectiveProgress.claimed st = false
      /\ r = ClaimResult.mk true None (IQuestObjective.xpReward objective)
      /\ stateOf (claimObjective userId objectiveId now db)
         = setProgress qt
             (<[(userId, periodKey qt now) :=
                  IQuestProgress.setObjectives
                    (<[i := IObjectiveProgress.setClaimed true st]>
                       (IQuestProgress.Objectives doc)) doc]> (progressOf qt db))
             (initialized db).
Proof.
  destruct (connected db) eqn:Hc.
  - rewrite (claimObjective_connected _ _ _ _ Hc). intros Hr Hs. split; [done|].
    destruct (findObjective (allQuestsSeen db) objectiveId) as [[objective qt]|] eqn:Hfind;
      [| by simplify_eq/=].
    destruct (progressOf qt db !! (userId, periodKey qt now)) as [doc|] eqn:Hdoc;
      [| by simplify_eq/=].
    destruct (findState objectiveId (IQuestProgress.Objectives doc)) as [[i st]|] eqn:Hst;
      [| by simplify_eq/=].
    destruct (IObjectiveProgress.completed st) eqn:Hcompleted;
      [| by simplify_eq/=].
    destruct (IObjectiveProgress.claimed st) eqn:Hclaimed;
      [by simplify_eq/= |].
    simpl in Hr. simplify_eq. by exists objective, qt, doc, i, st.
  - rewrite (claimObjective_disconnected _ _ _ _ Hc). simpl. intros Hr Hs. by simplify_eq/=.
Qed.

(** C1 (as the code has it). A successful claim returns the [xpReward] of
    the objective of the current catalog, the first one with that id in the
    order of [getAllQuests]; the [xpReward] held by the objective state of
    the progress document, which was completed and unclaimed, is not
    read. *)
Theorem claim_returns_catalog_reward db userId objectiveId now r :
  valueOf (claimObjective userId objectiveId now db) = Returned r ->
  ClaimResult.success r = true ->
  exists objective qt doc i st,
    findObjective (allQuestsSeen db) objectiveId = Some (objective, qt)
    /\ progressOf qt db !! (userId, periodKey qt now) = Some doc
    /\ findState objectiveId (IQuestProgress.Objectives doc) = Some (i, st)
    /\ ClaimResult.xp r = IQuestObjective.xpReward objective
    /\ (IObjectiveProgress.xpReward st = IQuestObjective.xpReward objective ->
        ClaimResult.xp r = IObjectiveProgress.xpReward st).
Proof.
  intros Hr Hs.
  destruct (claimObjective_success _ _ _ _ _ Hr Hs)
    as (_ & objective & qt & doc & i & st & Hfind & Hdoc & Hst & _ & _ & -> & _).
  exists objective, qt, doc, i, st. simpl. by split_and!.
Qed.

Lemma claim_returns_catalog_reward_witness :
  exists objective qt doc i st,
    findObjective (allQuestsSeen dbRaised) "daily_success1" = Some (objective, qt)
    /\ progressOf qt dbRaised !! ("u", periodKey qt newYearsEve) = Some doc
    /\ findState "daily_success1" (IQuestProgress.Objectives doc) = Some (i, st)
    /\ 25 = IQuestObjective.xpReward objective
    /\ (IObjectiveProgress.xpReward st = IQuestObjective.xpReward objective ->
        25 = IObjectiveProgress.xpReward st).
Proof.
  exact (claim_returns_catalog_reward dbRaised "u" "daily_success1" newYearsEve
           (ClaimResult.mk true None 25) eq_refl eq_refl).
Defined.

(** C1 fails as stated: the document holds a reward of 10 for the completed
    objective, the catalog now says 25, and the claim returns 25. *)
Lemma claim_returns_snapshot_reward_fails : ~ SnapshotRewardReturned.
Proof.
  intros H.
  specialize (H dbRaised "u" "daily_success1" newYearsEve (ClaimResult.mk true None 25)
                (IQuestObjective.mk "daily_success1" 0 1 25 1) daily docCompleted 0%nat
                (IObjectiveProgress.mk "daily_success1" 0 1 10 1 true false)
                eq_refl eq_refl eq_refl eq_refl eq_refl).
  discriminate H.
Qed.

(** ** One claim after the other, and two claims at once *)

Lemma list_find_insert_same {A} (P : A -> Prop) `{forall x, Decision (P x)}
      (l : list A) i x y :
  list_find P l = Some (i, x) -> P y -> list_find P (<[i := y]> l) = Some (i, y).
Proof.
  intros (Hi & _ & Hbefore)%list_find_Some Hy. apply list_find_Some. split_and!; [|done|].
  - apply list_lookup_insert_eq. by eapply lookup_lt_Some.
  - intros j z Hj Hlt. rewrite list_lookup_insert_ne in Hj by lia. by eapply Hbefore.
Qed.

Lemma initialized_setProgress qt c db :
  initialized (setProgress qt c db) = setProgress qt c (initialized db).
Proof.
  rewrite !initialized_quests. destruct qt, db as [cn qs d w]; simpl; by destruct (_ && _).
Qed.

Lemma allQuestsSeen_setProgress qt c db :
  allQuestsSeen (setProgress qt c db) = allQuestsSeen db.
Proof.
  unfold allQuestsSeen, bind. rewrite !ensureQuestsInitialized_returns, initialized_setProgress.
  unfold getAllQuests, tryCatch, bind, connectDB, get, ret.
  by destruct qt, (initialized db) as [[] qs d w].
Qed.

Lemma connected_setProgress qt c db : connected (setProgress qt c db) = connected db.
Proof. by destruct qt. Qed.

(** After a successful claim the same claim is refused, and the refusal
    writes nothing. *)
Lemma claim_again db userId objectiveId now r :
  valueOf (claimObjective userId objectiveId now db) = Returned r ->
  ClaimResult.success r = true ->
  let db' := stateOf (claimObjective userId objectiveId now db) in
  claimObjective userId objectiveId now db'
  = (db', Returned (failed "Objective already claimed")).
Proof.
  intros Hr Hs db'.
  destruct (claimObjective_success _ _ _ _ _ Hr Hs)
    as (Hc & objective & qt & doc & i & st & Hfind & Hdoc & Hst & Hcompleted & Hclaimed
        & _ & Hdb').
  fold db' in Hdb'.
  assert (Hc' : connected db' = true).
  { by rewrite Hdb', connected_setProgress, connected_initialized. }
  rewrite (claimObjective_connected _ _ _ _ Hc').
  assert (Hinit : initialized db' = db').
  { by rewrite Hdb', initialized_setProgress, initialized_idem. }
  assert (Hseen : allQuestsSeen db' = allQuestsSeen db).
  { by rewrite Hdb', allQuestsSeen_setProgress, allQuestsSeen_initialized. }
  assert (Hdoc' : progressOf qt db' !! (userId, periodKey qt now)
                  = Some (IQuestProgress.setObjectives
                            (<[i := IObjectiveProgress.setClaimed true st]>
                               (IQuestProgress.Objectives doc)) doc)).
  { rewrite Hdb', progressOf_setProgress. apply lookup_insert_eq. }
  rewrite Hinit, Hseen, Hfind, Hdoc'. simpl.
  unfold findState in *. rewrite (list_find_insert_same _ _ _ _ _ Hst); simpl.
  - by rewrite Hcompleted.
  - by apply list_find_Some in Hst as (_ & ? & _).
Qed.

(** A call never rejects: the [catch] turns every error into a result. *)
Lemma claimObjective_total db userId objectiveId now :
  exists r, valueOf (claimObjective userId objectiveId now db) = Returned r.
Proof.
  unfold claimObjective, tryCatch.
  destruct (bind _ _ db) as [db' [r|]]; simpl; eauto.
Qed.

(** Resuming a call twice in a row is the call. *)
Lemma resume_twice {B} (k : Overlap.ClaimCall -> M B) db userId objectiveId now :
  exists r,
    claimObjective userId objectiveId now db
    = (stateOf (claimObjective userId objectiveId now db), Returned r)
    /\ (let! c := Overlap.resume userId objectiveId now Overlap.Waiting in
        let! c' := Overlap.resume userId objectiveId now c in
        k c') db
       = k (Overlap.Finished r) (stateOf (claimObjective userId objectiveId now db)).
Proof.
  unfold claimObjective, Overlap.resume, tryCatch, bind, ret.
  destruct (claimLoad userId objectiveId now db) as [db1 [p|]]; simpl; [|eauto].
  destruct (claimFinish userId objectiveId p db1) as [db2 [r|]]; simpl; eauto.
Qed.

(** Two calls, the second one started after the first one returned. *)
Lemma run_in_turn db userId objectiveId now r1 r2 :
  let db1 := stateOf (claimObjective userId objectiveId now db) in
  let db2 := stateOf (claimObjective userId objectiveId now db1) in
  valueOf (claimObjective userId objectiveId now db) = Returned r1 ->
  valueOf (claimObjective userId objectiveId now db1) = Returned r2 ->
  Overlap.run userId objectiveId now [true; true; false; false]
              Overlap.Waiting Overlap.Waiting db
  = (db2, Returned (Overlap.Finished r1, Overlap.Finished r2))
  /\ Overlap.run userId objectiveId now [false; false; true; true]
                 Overlap.Waiting Overlap.Waiting db
     = (db2, Returned (Overlap.Finished r2, Overlap.Finished r1)).
Proof.
  intros db1 db2 H1 H2. split; cbn [Overlap.run].
  - destruct (resume_twice
                (fun a => let! b := Overlap.resume userId objectiveId now Overlap.Waiting in
                          let! b' := Overlap.resume userId objectiveId now b in
                          ret (a, b')) db userId objectiveId now) as (r & Hr & ->).
    rewrite Hr in H1. simpl in H1. injection H1 as <-. fold db1.
    destruct (resume_twice (fun b => ret (Overlap.Finished r, b)) db1 userId objectiveId now)
      as (r' & Hr' & ->).
    rewrite Hr' in H2. simpl in H2. by injection H2 as <-.
  - destruct (resume_twice
                (fun b => let! a := Overlap.resume userId objectiveId now Overlap.Waiting in
                          let! a' := Overlap.resume userId objectiveId now a in
                          ret (a', b)) db userId objectiveId now) as (r & Hr & ->).
    rewrite Hr in H1. simpl in H1. injection H1 as <-. fold db1.
    destruct (resume_twice (fun a => ret (a, Overlap.Finished r)) db1 userId objectiveId now)
      as (r' & Hr' & ->).
    rewrite Hr' in H2. simpl in H2. by injection H2 as <-.
Qed.

(** C9 (as the code has it). Claiming is exactly-once for calls that do not
    overlap: when a claim of a completed, unclaimed objective state has
    succeeded, every later claim with the same arguments is refused with
    "already claimed" and writes nothing; of two calls that run one after
    the other, whichever comes first succeeds and the other one is
    refused. *)
Theorem claims_in_turn_exactly_once db userId objectiveId now first :
  valueOf (claimObjective userId objectiveId now db) = Returned first ->
  ClaimResult.success first = true ->
  let db' := stateOf (claimObjective userId objectiveId now db) in
  let refused := failed "Objective already claimed" in
  kindOf refused = Some AlreadyClaimed
  /\ (forall n, claimObjective userId objectiveId now
                  (Nat.iter n (fun d => stateOf (claimObjective userId objectiveId now d)) db')
                = (db', Returned refused))
  /\ Overlap.run userId objectiveId now [true; true; false; false]
                 Overlap.Waiting Overlap.Waiting db
     = (db', Returned (Overlap.Finished first, Overlap.Finished refused))
  /\ Overlap.run userId objectiveId now [false; false; true; true]
                 Overlap.Waiting Overlap.Waiting db
     = (db', Returned (Overlap.Finished refused, Overlap.Finished first)).
Proof.
  intros Hr Hs db' refused.
  pose proof (claim_again _ _ _ _ _ Hr Hs) as Hagain. fold db' in Hagain.
  split; [done|]. split.
  - assert (Hiter : forall n,
               Nat.iter n (fun d => stateOf (claimObjective userId objectiveId now d)) db' = db').
    { induction n as [|n IH]; [done|]. simpl. by rewrite IH, Hagain. }
    intros n. by rewrite Hiter.
  - destruct (run_in_turn db userId objectiveId now first refused Hr) as [H1 H2].
    { fold db'. by rewrite Hagain. }
    fold db' in H1, H2. rewrite Hagain in H1, H2. by split.
Qed.

Lemma claims_in_turn_exactly_once_witness :
  Overlap.run "u" "daily_success1" newYearsEve [true; true; false; false]
              Overlap.Waiting Overlap.Waiting dbCompleted
  = (stateOf (claimObjective "u" "daily_success1" newYearsEve dbCompleted),
     Returned (Overlap.Finished (ClaimResult.mk true None 10),
               Overlap.Finished (failed "Objective already claimed"))).
Proof.
  exact (proj1 (proj2 (proj2 (claims_in_turn_exactly_once dbCompleted "u" "daily_success1"
                                newYearsEve (ClaimResult.mk true None 10) eq_refl eq_refl)))).
Defined.

(** C9 fails as stated: both calls load the document before either saves
    it, both find the objective completed and unclaimed, both write
    [claimed = true] (a write that does not change [__v]), and both
    succeed. *)
Lemma overlapping_claims_both_succeed : ~ ClaimedExactlyOnce.
Proof.
  intros H.
  destruct (H dbCompleted "u" "daily_success1" newYearsEve [true; false; true; false]
              (stateOf (Overlap.run "u" "daily_success1" newYearsEve [true; false; true; false]
                                    Overlap.Waiting Overlap.Waiting dbCompleted))
              (ClaimResult.mk true None 10) (ClaimResult.mk true None 10)
              (ClaimResult.mk true None 10) eq_refl eq_refl eq_refl)
    as [[_ Hk] | [Hk _]]; discriminate Hk.
Qed.

End Claiming.

(* ===================================================================== *)
(** * The completion check                                               *)
(* ===================================================================== *)

Section Completion.
Import QuestService Spec Examples.





End Completion.

(* ===================================================================== *)
(** * Migration                                                          *)
(* ===================================================================== *)

Section Migration.
Import Mongoose QuestConfigService QuestService Spec Examples.

Lemma overwrite_same st configObj : differs st configObj = false -> overwrite st configObj = st.
Proof.
  unfold differs, overwrite. intros H.
  repeat (apply orb_false_elim in H as [H ?]).
  repeat match goal with
         | E : negb (_ =? _) = false |- _ => apply negb_false_iff, Z.eqb_eq in E
         end.
  destruct st, configObj; simpl in *. by subst.
Qed.

Lemma addMissing_app ids configObjs objectives needsUpdate :
  fst (addMissing ids configObjs objectives needsUpdate)
  = objectives
      ++ map seedObjective
           (List.filter (fun c => negb (bool_decide (IQuestObjective.id c ∈ ids))) configObjs).
Proof.
  revert objectives needsUpdate.
  induction configObjs as [|c cs IH]; intros objectives needsUpdate; simpl.
  - by rewrite app_nil_r.
  - destruct (negb (bool_decide (IQuestObjective.id c ∈ ids))); simpl.
    + by rewrite IH, <- app_assoc.
    + apply IH.
Qed.

Lemma addMissing_unchanged ids configObjs objectives needsUpdate :
  snd (addMissing ids configObjs objectives needsUpdate) = false ->
  fst (addMissing ids configObjs objectives needsUpdate) = objectives /\ needsUpdate = false.
Proof.
  revert objectives needsUpdate.
  induction configObjs as [|c cs IH]; intros objectives needsUpdate; simpl; [done|].
  destruct (negb (bool_decide (IQuestObjective.id c ∈ ids))); simpl.
  - intros H. by apply IH in H as [_ ?].
  - apply IH.
Qed.

Lemma updateExisting_map configObjs objectives needsUpdate :
  fst (updateExisting configObjs objectives needsUpdate) = map (refreshed configObjs) objectives.
Proof.
  revert needsUpdate. induction objectives as [|st os IH]; intros needsUpdate; simpl; [done|].
  unfold refreshed at 1.
  destruct (findConfig (IObjectiveProgress.objectiveId st) configObjs) as [[j c]|].
  - destruct (differs st c) eqn:Hd.
    + specialize (IH true). destruct (updateExisting configObjs os true). simpl in *.
      by rewrite IH.
    + specialize (IH needsUpdate). destruct (updateExisting configObjs os needsUpdate).
      simpl in *. by rewrite IH, overwrite_same.
  - specialize (IH needsUpdate). destruct (updateExisting configObjs os needsUpdate).
    simpl in *. by rewrite IH.
Qed.

Lemma updateExisting_flag configObjs objectives needsUpdate :
  snd (updateExisting configObjs objectives needsUpdate) = false -> needsUpdate = false.
Proof.
  revert needsUpdate. induction objectives as [|st os IH]; intros needsUpdate; simpl; [done|].
  destruct (findConfig (IObjectiveProgress.objectiveId st) configObjs) as [[j c]|].
  - destruct (differs st c).
    + specialize (IH true). destruct (updateExisting configObjs os true). simpl in *.
      intros H. by apply IH in H.
    + specialize (IH needsUpdate). by destruct (updateExisting configObjs os needsUpdate).
  - specialize (IH needsUpdate). by destruct (updateExisting configObjs os needsUpdate).
Qed.

Lemma updateExisting_unchanged configObjs objectives :
  snd (updateExisting configObjs objectives false) = false ->
  fst (updateExisting configObjs objectives false) = objectives.
Proof.
  induction objectives as [|st os IH]; simpl; [done|].
  destruct (findConfig (IObjectiveProgress.objectiveId st) configObjs) as [[j c]|].
  - destruct (differs st c).
    + pose proof (updateExisting_flag configObjs os true) as Hflag.
      destruct (updateExisting configObjs os true). simpl in *.
      intros H. by apply Hflag in H.
    + destruct (updateExisting configObjs os false). simpl in *.
      intros H. by rewrite IH.
  - destruct (updateExisting configObjs os false). simpl in *. intros H. by rewrite IH.
Qed.

(** The document that migration stores: the states it had, refreshed, then
    the states of the objectives it lacked; nothing else changes but
    [__v]. *)
Lemma migrateStored_objectives quest doc :
  IQuestProgress.Objectives (migrateStored quest doc)
  = map (refreshed (objectivesOf quest))
        (IQuestProgress.Objectives doc ++ missing (objectivesOf quest) doc).
Proof.
  unfold migrateStored, migrateDocument, missing.
  destruct quest as [q|]; simpl.
  - pose proof (addMissing_app (map IObjectiveProgress.objectiveId (IQuestProgress.Objectives doc))
                  (IQuest.objectives q) (IQuestProgress.Objectives doc) false) as Hadd.
    pose proof (addMissing_unchanged
                  (map IObjectiveProgress.objectiveId (IQuestProgress.Objectives doc))
                  (IQuest.objectives q) (IQuestProgress.Objectives doc) false) as Hsame.
    destruct (addMissing _ _ _ _) as [os1 nu1]. simpl in *.
    pose proof (updateExisting_map (IQuest.objectives q) os1 nu1) as Hupd.
    pose proof (updateExisting_flag (IQuest.objectives q) os1 nu1) as Hflag.
    pose proof (updateExisting_unchanged (IQuest.objectives q) os1) as Hkeep.
    destruct (updateExisting _ _ _) as [os2 nu2] eqn:Hue. simpl in *.
    destruct nu2.
    + rewrite patch_same; simpl.
      * unfold saved. destruct (pushes _ _); simpl; by rewrite Hupd, Hadd.
      * rewrite Hupd, length_map, Hadd, length_app. lia.
      * done.
    + specialize (Hflag eq_refl). subst nu1. rewrite Hue in Hkeep. simpl in Hkeep.
      destruct (Hsame eq_refl) as [Hos1 _].
      rewrite <- Hadd, <- Hupd, Hkeep by done. by rewrite Hos1.
  - induction (IQuestProgress.Objectives doc) as [|st os IH]; simpl; [done|].
    by rewrite <- IH.
Qed.

Lemma migrateStored_none doc : migrateStored None doc = doc.
Proof. done. Qed.

Lemma fmap_migrateStored_none (c : Collection) : migrateStored None <$> c = c.
Proof.
  apply map_eq. intros key. rewrite lookup_fmap. by destruct (c !! key).
Qed.

Lemma questsByType_disconnected qt db : connected db = false -> questsByType qt db = [].
Proof.
  intros Hc. unfold questsByType, getQuestsByType, tryCatch, bind.
  by rewrite (connectDB_disconnected _ Hc).
Qed.

(** [migrateQuestProgress] maps [migrateStored] over both collections,
    each with the first active quest of its type, and touches nothing
    else. *)
Lemma migrateQuestProgress_state db :
  stateOf (migrateQuestProgress db)
  = mkDB (connected db) (quests db)
         (migrateStored (head (questsByType daily db)) <$> dailyProgress db)
         (migrateStored (head (questsByType weekly db)) <$> weeklyProgress db).
Proof.
  unfold migrateQuestProgress, tryCatch, bind.
  destruct (connected db) eqn:Hc.
  - rewrite (connectDB_connected _ Hc), !getQuestsByType_returns.
    destruct (head (questsByType daily db)) as [dq|], (head (questsByType weekly db)) as [wq|];
      unfold modify, ret; simpl; rewrite ?fmap_migrateStored_none, ?Hc; try done.
    by destruct db; simpl in *; subst.
  - rewrite (connectDB_disconnected _ Hc). simpl.
    rewrite !(questsByType_disconnected _ _ Hc). simpl.
    rewrite !fmap_migrateStored_none. by destruct db; simpl in *; subst.
Qed.

Lemma migrateQuestProgress_progress db qt :
  progressOf qt (stateOf (migrateQuestProgress db))
  = migrateStored (head (questsByType qt db)) <$> progressOf qt db.
Proof. rewrite migrateQuestProgress_state. by destruct qt. Qed.

Lemma migrateQuestProgress_returns db :
  migrateQuestProgress db = (stateOf (migrateQuestProgress db), Returned tt).
Proof.
  unfold migrateQuestProgress, tryCatch, bind.
  destruct (connected db) eqn:Hc.
  - rewrite (connectDB_connected _ Hc), !getQuestsByType_returns.
    by destruct (head (questsByType daily db)), (head (questsByType weekly db)).
  - by rewrite (connectDB_disconnected _ Hc).
Qed.

(** C5. Migration keeps every objective state of every progress document
    at its place.  A state whose id the current catalog of the quest type
    knows gets [messageCount], [successMessageCount], [xpReward] and [order]
    from the catalog objective with that id, and keeps its id, [completed]
    and [claimed]; a state whose id the catalog does not know stays exactly
    as it was. *)
Theorem migration_refreshes_definitions db qt key doc i st :
  progressOf qt db !! key = Some doc ->
  IQuestProgress.Objectives doc !! i = Some st ->
  exists doc' st',
    progressOf qt (stateOf (migrateQuestProgress db)) !! key = Some doc'
    /\ IQuestProgress.Objectives doc' !! i = Some st'
    /\ IObjectiveProgress.objectiveId st' = IObjectiveProgress.objectiveId st
    /\ IObjectiveProgress.completed st' = IObjectiveProgress.completed st
    /\ IObjectiveProgress.claimed st' = IObjectiveProgress.claimed st
    /\ match findConfig (IObjectiveProgress.objectiveId st) (catalog qt db) with
       | Some (_, configObj) =>
           IObjectiveProgress.messageCount st' = IQuestObjective.messageCount configObj
           /\ IObjectiveProgress.successMessageCount st'
              = IQuestObjective.successMessageCount configObj
           /\ IObjectiveProgress.xpReward st' = IQuestObjective.xpReward configObj
           /\ IObjectiveProgress.order st' = IQuestObjective.order configObj
       | None => st' = st
       end.
Proof.
  intros Hdoc Hst.
  exists (migrateStored (head (questsByType qt db)) doc), (refreshed (catalog qt db) st).
  split_and!.
  - by rewrite migrateQuestProgress_progress, lookup_fmap, Hdoc.
  - rewrite migrateStored_objectives. fold (catalog qt db).
    rewrite list_lookup_fmap, lookup_app_l by (by eapply lookup_lt_Some). by rewrite Hst.
  - unfold refreshed. by destruct (findConfig _ _) as [[? ?]|].
  - unfold refreshed. by destruct (findConfig _ _) as [[? ?]|].
  - unfold refreshed. by destruct (findConfig _ _) as [[? ?]|].
  - unfold refreshed. by destruct (findConfig _ _) as [[? ?]|].
Qed.

Lemma migration_refreshes_definitions_witness :
  exists doc' st',
    progressOf daily (stateOf (migrateQuestProgress dbRaised)) !! ("u", "2024-12-31") = Some doc'
    /\ IQuestProgress.Objectives doc' !! 0%nat = Some st'
    /\ IObjectiveProgress.objectiveId st' = "daily_success1"
    /\ IObjectiveProgress.completed st' = true
    /\ IObjectiveProgress.claimed st' = false
    /\ IObjectiveProgress.messageCount st' = 0
    /\ IObjectiveProgress.successMessageCount st' = 1
    /\ IObjectiveProgress.xpReward st' = 25
    /\ IObjectiveProgress.order st' = 1.
Proof.
  exact (migration_refreshes_definitions dbRaised daily ("u", "2024-12-31") docCompleted 0%nat
           (IObjectiveProgress.mk "daily_success1" 0 1 10 1 true false) eq_refl eq_refl).
Defined.

End Migration.

(* ===================================================================== *)
(** * The invariant [claimed => completed]                               *)
(* ===================================================================== *)

Section Invariant.
Import Mongoose QuestConfigService QuestService Spec Examples.

Lemma preserves_ret {A} (a : A) : preserves (ret a).
Proof. by intros db. Qed.

Lemma preserves_throw {A} : preserves (@throw A).
Proof. by intros db. Qed.

Lemma preserves_bind {A B} (m : M A) (k : A -> M B) :
  preserves m -> (forall a, preserves (k a)) -> preserves (bind m k).
Proof.
  intros Hm Hk db Hdb. unfold bind. specialize (Hm db Hdb).
  destruct (m db) as [db' [a|]]; simpl in *; [by apply Hk | done].
Qed.

Lemma preserves_tryCatch {A} (m h : M A) :
  preserves m -> preserves h -> preserves (tryCatch m h).
Proof.
  intros Hm Hh db Hdb. unfold tryCatch. specialize (Hm db Hdb).
  destruct (m db) as [db' [a|]]; simpl in *; [done | by apply Hh].
Qed.

Lemma preserves_get : preserves get.
Proof. by intros db. Qed.

Lemma preserves_connectDB : preserves connectDB.
Proof. intros db Hdb. unfold connectDB. by destruct (connected db). Qed.

Lemma preserves_ensureQuestsInitialized : preserves ensureQuestsInitialized.
Proof.
  intros db Hdb. rewrite ensureQuestsInitialized_returns. simpl.
  intros qt key doc. rewrite progressOf_initialized. apply Hdb.
Qed.

Lemma preserves_getQuestsByType qt : preserves (getQuestsByType qt).
Proof. intros db Hdb. by rewrite getQuestsByType_returns. Qed.

Lemma preserves_findOne qt userId key : preserves (findOne qt userId key).
Proof. by intros db. Qed.

Lemma dbInv_insert qt key doc db :
  dbInv db -> docInv doc -> dbInv (setProgress qt (<[key := doc]> (progressOf qt db)) db).
Proof.
  intros Hdb Hdoc qt' key' doc'. destruct (decide (qt = qt')) as [<-|Hne].
  - rewrite progressOf_setProgress, lookup_insert. case_decide; [by intros [= <-] | apply Hdb].
  - rewrite progressOf_setProgress_ne by done. apply Hdb.
Qed.

(** A fresh document has nothing claimed. *)
Lemma docInv_newProgress quest : docInv (newProgress (seedObjectives quest)).
Proof.
  unfold docInv. simpl. destruct quest as [q|]; simpl; [|constructor].
  apply Forall_fmap, Forall_true. by intros c.
Qed.

Lemma preserves_upsert qt userId key quest :
  preserves (upsert qt userId key (newProgress (seedObjectives quest))).
Proof.
  intros db Hdb. unfold upsert, bind, get, ret, modify.
  destruct (progressOf qt db !! (userId, key)); simpl; [done|].
  apply dbInv_insert; [done | apply docInv_newProgress].
Qed.

Lemma preserves_insertNew qt userId key quest :
  preserves (insertNew qt userId key (newProgress (seedObjectives quest))).
Proof.
  intros db Hdb. unfold insertNew, bind, get, ret, modify, throw.
  destruct (progressOf qt db !! (userId, key)); simpl; [done|].
  apply dbInv_insert; [done | apply docInv_newProgress].
Qed.

(** Writing back completions keeps the invariant of whatever is stored. *)
Lemma stateInv_patchObjective l c s :
  onlyCompletes l c -> stateInv s -> stateInv (patchObjective l c s).
Proof.
  intros [-> | ->] Hs.
  - by rewrite patchObjective_unchanged.
  - destruct l, s. unfold stateInv, patchObjective, pick in *; simpl in *.
    repeat (destruct (decide _); simpl); try done; by destruct completed.
Qed.

Lemma Forall_stateInv_patchObjectives ls cs ss :
  Forall2 onlyCompletes ls cs -> Forall stateInv ss ->
  Forall stateInv (patchObjectives ls cs ss).
Proof.
  intros Hlc. revert ss. induction Hlc as [|l c ls cs Hlc _ IH]; intros ss Hss; simpl.
  - by rewrite app_nil_r.
  - destruct ss as [|s ss]; [by apply IH|].
    apply Forall_cons in Hss as [Hs Hss].
    constructor; [by apply stateInv_patchObjective | by apply IH].
Qed.

Lemma preserves_save qt userId key l c :
  Forall2 onlyCompletes (IQuestProgress.Objectives l) (IQuestProgress.Objectives c) ->
  preserves (save qt userId key l c).
Proof.
  intros Hlc db Hdb. unfold save, bind, get, ret, modify, throw.
  destruct (progressOf qt db !! (userId, key)) as [stored|] eqn:Hstored; simpl; [|done].
  destruct (_ && _); simpl; [done|].
  apply dbInv_insert; [done|].
  unfold docInv, patch. simpl. apply Forall_stateInv_patchObjectives; [done|].
  by apply (Hdb qt (userId, key)).
Qed.

Lemma checkLoop_onlyCompletes doc os questCompleted :
  Forall2 onlyCompletes os (fst (checkLoop doc os questCompleted)).
Proof.
  revert questCompleted. induction os as [|st os IH]; intros questCompleted; simpl.
  - constructor.
  - destruct (IObjectiveProgress.completed st).
    + specialize (IH questCompleted). destruct (checkLoop doc os questCompleted).
      constructor; [by left | done].
    + destruct (isCompleted doc st).
      * specialize (IH true). destruct (checkLoop doc os true).
        constructor; [by right | done].
      * specialize (IH questCompleted). destruct (checkLoop doc os questCompleted).
        constructor; [by left | done].
Qed.

Lemma checkObjectiveCompletion_onlyCompletes qt doc :
  Forall2 onlyCompletes (IQuestProgress.Objectives doc)
          (IQuestProgress.Objectives (checkObjectiveCompletion qt doc)).
Proof.
  pose proof (checkLoop_onlyCompletes doc (IQuestProgress.Objectives doc) false) as H.
  unfold checkObjectiveCompletion, checkObjectiveCompletionDaily,
    checkObjectiveCompletionWeekly.
  destruct qt, (checkLoop doc (IQuestProgress.Objectives doc) false) as [os []]; done.
Qed.

Lemma onlyCompletes_same os : Forall2 onlyCompletes os os.
Proof. induction os; constructor; [by left | done]. Qed.

Lemma preserves_updatePeriodProgress qt userId key isSuccessMessage :
  preserves (updatePeriodProgress qt userId key isSuccessMessage).
Proof.
  unfold updatePeriodProgress.
  apply preserves_bind; [apply preserves_ensureQuestsInitialized | intros _].
  apply preserves_bind; [apply preserves_getQuestsByType | intros periodQuests].
  apply preserves_bind; [apply preserves_findOne | intros found].
  apply preserves_bind.
  - destruct found; [apply preserves_ret | apply preserves_upsert].
  - intros progress. apply preserves_save.
    apply (checkObjectiveCompletion_onlyCompletes qt (increment isSuccessMessage progress)).
Qed.

Lemma preserves_updateProgress userId isSuccessMessage now :
  preserves (updateProgress userId isSuccessMessage now).
Proof.
  unfold updateProgress, updateDailyProgress, updateWeeklyProgress.
  apply preserves_tryCatch; [| apply preserves_ret].
  apply preserves_bind; [apply preserves_connectDB | intros _].
  apply preserves_bind; [apply preserves_updatePeriodProgress | intros dailyProgress].
  apply preserves_bind; [apply preserves_updatePeriodProgress | intros weeklyProgress].
  apply preserves_ret.
Qed.

Lemma preserves_markQuestSeen userId questType now :
  preserves (markQuestSeen userId questType now).
Proof.
  unfold markQuestSeen.
  apply preserves_tryCatch; [| apply preserves_ret].
  apply preserves_bind; [apply preserves_connectDB | intros _].
  apply preserves_bind; [apply preserves_findOne | intros [doc|]]; [| apply preserves_ret].
  apply preserves_bind; [| intros _; apply preserves_ret].
  apply preserves_save, onlyCompletes_same.
Qed.

Lemma stateInv_refreshed catalog st : stateInv st -> stateInv (refreshed catalog st).
Proof. unfold refreshed. by destruct (findConfig _ _) as [[? ?]|]. Qed.

Lemma docInv_migrateStored quest doc : docInv doc -> docInv (migrateStored quest doc).
Proof.
  unfold docInv. intros Hdoc. rewrite migrateStored_objectives.
  apply Forall_fmap, Forall_app. split.
  - eapply Forall_impl; [done|]. intros st. apply stateInv_refreshed.
  - unfold missing. apply Forall_fmap, Forall_true. intros c. by apply stateInv_refreshed.
Qed.

Lemma preserves_migrateQuestProgress : preserves migrateQuestProgress.
Proof.
  intros db Hdb qt key doc'. rewrite migrateQuestProgress_progress, lookup_fmap.
  destruct (progressOf qt db !! key) as [doc|] eqn:Hdoc; simpl; [|done].
  intros [= <-]. apply docInv_migrateStored. by eapply Hdb.
Qed.

Lemma preserves_getUserProgress userId now : preserves (getUserProgress userId now).
Proof.
  unfold getUserProgress, getUserProgressBody, loadOrCreate.
  apply preserves_tryCatch; [| apply preserves_ret].
  apply preserves_bind; [apply preserves_connectDB | intros _].
  apply preserves_bind; [apply preserves_findOne | intros dailyFound].
  apply preserves_bind; [apply preserves_findOne | intros weeklyFound].
  apply preserves_bind; [apply preserves_ensureQuestsInitialized | intros _].
  apply preserves_bind; [apply preserves_getQuestsByType | intros dailyQuests].
  apply preserves_bind; [apply preserves_getQuestsByType | intros weeklyQuests].
  apply preserves_bind.
  { destruct dailyFound; [apply preserves_ret | apply preserves_insertNew]. }
  intros dailyDoc. apply preserves_bind.
  { destruct weeklyFound; [apply preserves_ret | apply preserves_insertNew]. }
  intros weeklyDoc.
  destruct (head dailyQuests) as [dailyQuest|], (head weeklyQuests) as [weeklyQuest|];
    try apply preserves_ret.
  apply preserves_bind; [apply preserves_migrateQuestProgress | intros _].
  apply preserves_bind.
  { apply preserves_save, (checkObjectiveCompletion_onlyCompletes daily). }
  intros dailyDoc'. apply preserves_bind; [| intros weeklyDoc'; apply preserves_ret].
  apply preserves_save, (checkObjectiveCompletion_onlyCompletes weekly).
Qed.

Lemma dbInv_initialized db : dbInv db -> dbInv (initialized db).
Proof. intros Hdb qt key doc. rewrite progressOf_initialized. apply Hdb. Qed.

Lemma preserves_claimObjective userId objectiveId now :
  preserves (claimObjective userId objectiveId now).
Proof.
  intros db Hdb. destruct (connected db) eqn:Hc.
  - rewrite (claimObjective_connected _ _ _ _ Hc).
    destruct (findObjective (allQuestsSeen db) objectiveId) as [[objective qt]|];
      [| by apply dbInv_initialized].
    destruct (progressOf qt db !! (userId, periodKey qt now)) as [doc|] eqn:Hdoc;
      [| by apply dbInv_initialized].
    destruct (findState objectiveId (IQuestProgress.Objectives doc)) as [[i st]|] eqn:Hst;
      [| by apply dbInv_initialized].
    destruct (IObjectiveProgress.completed st) eqn:Hcompleted; simpl;
      [| by apply dbInv_initialized].
    destruct (IObjectiveProgress.claimed st); simpl; [by apply dbInv_initialized |].
    rewrite <- (progressOf_initialized qt db).
    apply dbInv_insert; [by apply dbInv_initialized |].
    unfold docInv. simpl. apply Forall_insert; [by eapply Hdb | by intros _].
  - by rewrite (claimObjective_disconnected _ _ _ _ Hc).
Qed.

Lemma dbInv_step db db' : step db db' -> dbInv db -> dbInv db'.
Proof.
  intros [userId isSuccessMessage now | userId objectiveId now | userId questType now |
          | userId now | qs | b] Hdb.
  - by apply preserves_updateProgress.
  - by apply preserves_claimObjective.
  - by apply preserves_markQuestSeen.
  - by apply preserves_migrateQuestProgress.
  - by apply preserves_getUserProgress.
  - intros qt key doc. rewrite progressOf_setQuests. apply Hdb.
  - intros qt key doc Hdoc. apply (Hdb qt key). by destruct qt.
Qed.

Lemma dbInv_reachable db : reachable db -> dbInv db.
Proof.
  induction 1 as [b qs | db db' _ IH Hstep].
  - intros qt key doc. by destruct qt.
  - by eapply dbInv_step.
Qed.

(** C7. In every database reached from empty progress collections by
    recording events, claiming, marking quests seen, migrating and reading
    progress, with the catalog edited and the connection lost and found in
    between at will, every objective state of every progress document that
    has [claimed = true] has [completed = true]: no operation leaves a
    claimed state that is not completed. *)
Theorem claimed_implies_completed db :
  reachable db ->
  forall qt key doc st,
    progressOf qt db !! key = Some doc ->
    st ∈ IQuestProgress.Objectives doc ->
    IObjectiveProgress.claimed st = true -> IObjectiveProgress.completed st = true.
Proof.
  intros Hdb qt key doc st Hdoc Hst.
  pose proof (dbInv_reachable db Hdb qt key doc Hdoc) as Hinv.
  unfold docInv in Hinv. rewrite Forall_forall in Hinv. by apply Hinv.
Qed.

Lemma claimed_implies_completed_witness :
  reachable dbPlayed
  /\ IObjectiveProgress.completed (IObjectiveProgress.mk "daily_success1" 0 1 10 1 true true)
     = true.
Proof.
  assert (H : reachable dbPlayed).
  { unfold dbPlayed.
    eapply reachable_step; [eapply reachable_step; [apply (reachable_start true []) |] |].
    - apply step_recordEvent.
    - apply step_claim. }
  split; [exact H |].
  apply (claimed_implies_completed dbPlayed H daily ("u", "2024-12-31")
           (IQuestProgress.mk 0 1
              [ IObjectiveProgress.mk "daily_success1" 0 1 10 1 true true;
                IObjectiveProgress.mk "daily_send10" 10 0 15 2 false false ]
              false false 0 0)).
  - reflexivity.
  - apply list_elem_of_here.
  - reflexivity.
Defined.

End Invariant.

(* ===================================================================== *)
(** * The read-model and the failures it hides                           *)
(* ===================================================================== *)

Section ReadModel.
Import Mongoose QuestConfigService QuestService Spec Examples.

Lemma bind_returned {A B} (m : M A) (k : A -> M B) db db' a :
  m db = (db', Returned a) -> bind m k db = k a db'.
Proof. unfold bind. by intros ->. Qed.

Lemma bind_inv {A B} (m : M A) (k : A -> M B) db r :
  valueOf (bind m k db) = Returned r ->
  exists a db', m db = (db', Returned a) /\ valueOf (k a db') = Returned r.
Proof.
  unfold bind. destruct (m db) as [db' [a|]]; simpl; [|done]. intros H. by exists a, db'.
Qed.

Lemma save_value qt userId key l c db x db' :
  save qt userId key l c db = (db', Returned x) -> x = saved l c.
Proof.
  unfold save, bind, get, ret, modify, throw.
  destruct (progressOf qt db !! (userId, key)); simpl; [|done].
  destruct (_ && _); simpl; [done|]. by intros [= _ <-].
Qed.

Lemma saved_check qt doc :
  saved doc (checkObjectiveCompletion qt doc) = checkObjectiveCompletion qt doc.
Proof.
  apply saved_same_length.
  by eapply Forall2_length, checkObjectiveCompletion_onlyCompletes.
Qed.

Lemma loadOrCreate_value qt userId key found quest db doc db' :
  loadOrCreate qt userId key found quest db = (db', Returned doc) ->
  doc = default (newProgress (seedObjectives quest)) found
  /\ connected db' = connected db /\ quests db' = quests db.
Proof.
  unfold loadOrCreate, insertNew, bind, get, ret, modify, throw.
  destruct found as [d|]; simpl; [by intros [= <- <-] |].
  destruct (progressOf qt db !! (userId, key)); simpl; [done|].
  intros [= <- <-]. by destruct qt.
Qed.

Lemma connectDB_inv db db' a :
  connectDB db = (db', Returned a) -> connected db = true /\ db' = db.
Proof. unfold connectDB. destruct (connected db); [by intros [= <-] | done]. Qed.

Lemma findOne_inv qt userId key db db' found :
  findOne qt userId key db = (db', Returned found) ->
  db' = db /\ found = progressOf qt db !! (userId, key).
Proof. unfold findOne, bind, get, ret. by intros [= <- <-]. Qed.

(** What the body of [getUserProgress] returns when it returns: the empty
    read-model unless there is an active quest of each type, and otherwise
    the read-model built from the two documents in memory after their
    completion check. *)
Lemma getUserProgressBody_result db userId now r :
  valueOf (getUserProgressBody userId now db) = Returned r ->
  connected db = true
  /\ match head (questsByType daily (initialized db)),
           head (questsByType weekly (initialized db)) with
     | Some dailyQuest, Some weeklyQuest =>
         r = UserProgress.mk
               (buildPeriod dailyQuest
                  (checkObjectiveCompletionDaily (memoryDoc daily userId now db)))
               (buildPeriod weeklyQuest
                  (checkObjectiveCompletionWeekly (memoryDoc weekly userId now db)))
     | _, _ => r = emptyProgress
     end.
Proof.
  unfold getUserProgressBody. intros H.
  apply bind_inv in H as ([] & db1 & [Hc ->]%connectDB_inv & H).
  apply bind_inv in H as (dailyFound & db2 & [-> ->]%findOne_inv & H).
  apply bind_inv in H as (weeklyFound & db3 & [-> ->]%findOne_inv & H).
  rewrite (bind_returned _ _ _ _ _ (ensureQuestsInitialized_returns db)) in H.
  rewrite (bind_returned _ _ _ _ _ (getQuestsByType_returns daily (initialized db))) in H.
  rewrite (bind_returned _ _ _ _ _ (getQuestsByType_returns weekly (initialized db))) in H.
  apply bind_inv in H as (dailyDoc & db4 & (-> & _ & _)%loadOrCreate_value & H).
  apply bind_inv in H as (weeklyDoc & db5 & (-> & _ & _)%loadOrCreate_value & H).
  split; [done|].
  unfold memoryDoc.
  destruct (head (questsByType daily (initialized db))) as [dailyQuest|],
           (head (questsByType weekly (initialized db))) as [weeklyQuest|];
    try (by injection H as <-).
  apply bind_inv in H as ([] & db6 & _ & H).
  apply bind_inv in H as (dailyDoc & db7 & ->%save_value & H).
  apply bind_inv in H as (weeklyDoc & db8 & ->%save_value & H).
  injection H as <-.
  by rewrite (saved_check daily), (saved_check weekly).
Qed.



Lemma checkObjectiveCompletion_counters qt doc :
  IQuestProgress.currentMessages (checkObjectiveCompletion qt doc)
  = IQuestProgress.currentMessages doc
  /\ IQuestProgress.currentSuccessMessages (checkObjectiveCompletion qt doc)
     = IQuestProgress.currentSuccessMessages doc.
Proof.
  unfold checkObjectiveCompletion, checkObjectiveCompletionDaily,
    checkObjectiveCompletionWeekly.
  by destruct qt, (checkLoop doc (IQuestProgress.Objectives doc) false) as [os []].
Qed.




(** ** Failures *)

Lemma getUserProgress_unconfigured db userId now :
  head (questsByType daily (initialized db)) = None
  \/ head (questsByType weekly (initialized db)) = None ->
  valueOf (getUserProgress userId now db) = Returned emptyProgress.
Proof.
  intros Hnone. unfold getUserProgress, tryCatch.
  destruct (getUserProgressBody userId now db) as [db' [r|]] eqn:Hbody; simpl; [|done].
  assert (Hr : valueOf (getUserProgressBody userId now db) = Returned r) by by rewrite Hbody.
  apply getUserProgressBody_result in Hr as [_ Hr].
  destruct Hnone as [Hn | Hn]; rewrite Hn in Hr.
  - by subst r.
  - destruct (head (questsByType daily (initialized db))); by subst r.
Qed.

(** C8 (as the code has it). When [connectDB] fails, [claimObjective]
    reports it as the result [{success: false, error: 'Internal server
    error', xp: 0}], [updateProgress] returns the object without any field,
    [markQuestSeen] returns [false], and [getUserProgress] returns the
    all-zero read-model with no objectives; nothing is written.  That
    read-model is also what [getUserProgress] returns on a working database
    that lacks an active daily or an active weekly quest. *)
Theorem failures_return_defaults db :
  connected db = false ->
  (forall userId isSuccessMessage now,
      updateProgress userId isSuccessMessage now db
      = (db, Returned (UpdateResult.mk None None None)))
  /\ (forall userId objectiveId now,
         claimObjective userId objectiveId now db = (db, Returned internalError)
         /\ kindOf internalError = Some Internal)
  /\ (forall userId questType now,
         markQuestSeen userId questType now db = (db, Returned false))
  /\ (forall userId now,
         getUserProgress userId now db = (db, Returned emptyProgress))
  /\ (forall db' userId now,
         head (questsByType daily (initialized db')) = None
         \/ head (questsByType weekly (initialized db')) = None ->
         valueOf (getUserProgress userId now db') = Returned emptyProgress).
Proof.
  intros Hc. split_and!.
  - intros. unfold updateProgress, tryCatch, bind. by rewrite (connectDB_disconnected _ Hc).
  - intros. split; [by apply claimObjective_disconnected | done].
  - intros. unfold markQuestSeen, tryCatch, bind. by rewrite (connectDB_disconnected _ Hc).
  - intros. unfold getUserProgress, getUserProgressBody, tryCatch, bind.
    by rewrite (connectDB_disconnected _ Hc).
  - intros db' userId now. apply getUserProgress_unconfigured.
Qed.

Lemma failures_return_defaults_witness :
  getUserProgress "u" newYearsEve dbDown = (dbDown, Returned emptyProgress)
  /\ valueOf (getUserProgress "u" newYearsEve dbUnconfigured) = Returned emptyProgress.
Proof.
  destruct (failures_return_defaults dbDown eq_refl) as (_ & _ & _ & Hdown & Hempty).
  split; [apply Hdown |]. apply Hempty. left. reflexivity.
Defined.

(** C8 fails as stated: behind a failing connection [getUserProgress]
    returns what it returns for a database without active quests. *)
Lemma failed_read_looks_empty : ~ FailuresAreTyped.
Proof.
  intros (_ & _ & H).
  by apply (H "u" newYearsEve dbDown dbUnconfigured).
Qed.

End ReadModel.

(* ===================================================================== *)
(** * Two evaluations                                                    *)
(* ===================================================================== *)

Section Evaluations.
Import PeriodKey QuestService Spec Examples.

(** C3 (the code at 2024-12-31, a Tuesday whose ISO week is week 1 of
    2025). [getWeekKey] of QuestService.ts pairs the ISO week number with
    the year of the date itself and yields [2024-W01]; the revision that
    computes the Thursday moves forward to the next Thursday on or after
    January 4th, counts from there and yields [2025-W00]; the ISO-8601 key
    is [2025-W01]. *)
Theorem weekKey_of_new_years_eve :
  getWeekKey newYearsEve = "2024-W01"
  /\ getWeekKeyISO newYearsEve = "2025-W00"
  /\ isoWeekKey newYearsEve = "2025-W01".
Proof. by vm_compute. Qed.

(** C4 (the code on the scenario). The catalog has gained [daily_send10]
    (10 messages, 15 XP) and the daily document of the period stands at 12
    messages.  [migrateQuestProgress] appends the state with
    [completed = false]; [getUserProgress] then runs the completion check on
    the copy it loaded before the migration, which lacks the new state, so
    the stored state stays not completed and the read-model reports
    progress 10 of 10, not completed.  The next [getUserProgress] marks it
    completed. *)
Theorem migrated_objective_waits_for_next_read :
  let key := ("u", "2024-12-31") in
  let first := getUserProgress "u" newYearsEve dbGrown in
  let second := getUserProgress "u" newYearsEve (stateOf first) in
  IQuestProgress.currentMessages docBefore = 12
  /\ IQuestProgress.Objectives <$> dailyProgress (stateOf (migrateQuestProgress dbGrown)) !! key
     = Some [ IObjectiveProgress.mk "daily_success1" 0 1 10 1 false false;
              IObjectiveProgress.mk "daily_send10" 10 0 15 2 false false ]
  /\ IQuestProgress.Objectives <$> dailyProgress (stateOf first) !! key
     = Some [ IObjectiveProgress.mk "daily_success1" 0 1 10 1 false false;
              IObjectiveProgress.mk "daily_send10" 10 0 15 2 false false ]
  /\ valueOf first = Returned progressGrown
  /\ map (fun o => (QuestObjective.id o, QuestObjective.progress o, QuestObjective.target o,
                    QuestObjective.completed o))
         (PeriodProgress.objectives (UserProgress.daily progressGrown))
     = [ ("daily_success1", 0, 1, false); ("daily_send10", 10, 10, false) ]
  /\ IQuestProgress.Objectives <$> dailyProgress (stateOf second) !! key
     = Some [ IObjectiveProgress.mk "daily_success1" 0 1 10 1 false false;
              IObjectiveProgress.mk "daily_send10" 10 0 15 2 true false ].
Proof. by vm_compute. Qed.

(** The first scenario of the specification: one daily objective on one
    success message worth 10 XP; it is completed after the first of three
    success events, the first claim returns 10 and the second one is
    refused. *)
Example three_success_events :
  let quest := IQuest.mk "daily_quest" daily "Daily Quest" "One success message"
                         [ IQuestObjective.mk "daily_success1" 0 1 10 1 ] true in
  let db0 := mkDB true [quest; weeklyQuest] ∅ ∅ in
  let db1 := stateOf (updateProgress "u" true newYearsEve db0) in
  let db3 := stateOf (updateProgress "u" true newYearsEve
                        (stateOf (updateProgress "u" true newYearsEve db1))) in
  let claim1 := claimObjective "u" "daily_success1" newYearsEve db3 in
  let claim2 := claimObjective "u" "daily_success1" newYearsEve (stateOf claim1) in
  (map IObjectiveProgress.completed <$> (IQuestProgress.Objectives
     <$> dailyProgress db1 !! ("u", "2024-12-31"))) = Some [true]
  /\ (IQuestProgress.currentSuccessMessages <$> dailyProgress db3 !! ("u", "2024-12-31"))
     = Some 3
  /\ valueOf claim1 = Returned (ClaimResult.mk true None 10)
  /\ valueOf claim2 = Returned (failed "Objective already claimed").
Proof. by vm_compute. Qed.

End Evaluations.

(* ===================================================================== *)
(** * Recording events                                                   *)
(* ===================================================================== *)

Section Recording.
Import Mongoose QuestConfigService QuestService Spec Facts Examples.

Lemma isCompleted_counters doc doc' st :
  IQuestProgress.currentMessages doc' = IQuestProgress.currentMessages doc ->
  IQuestProgress.currentSuccessMessages doc' = IQuestProgress.currentSuccessMessages doc ->
  isCompleted doc' st = isCompleted doc st.
Proof. unfold isCompleted. by intros -> ->. Qed.

(** A second pass over the result of the loop finds nothing to do. *)
Lemma checkLoop_again doc doc' os questCompleted :
  IQuestProgress.currentMessages doc' = IQuestProgress.currentMessages doc ->
  IQuestProgress.currentSuccessMessages doc' = IQuestProgress.currentSuccessMessages doc ->
  checkLoop doc' (fst (checkLoop doc os questCompleted)) false
  = (fst (checkLoop doc os questCompleted), false).
Proof.
  intros Hm Hs. revert questCompleted.
  induction os as [|st os IH]; intros questCompleted; [done|].
  cbn [checkLoop].
  destruct (IObjectiveProgress.completed st) eqn:Hc.
  - specialize (IH questCompleted). destruct (checkLoop doc os questCompleted) as [os' qc].
    simpl in *. by rewrite Hc, IH.
  - destruct (isCompleted doc st) eqn:Hi.
    + specialize (IH true). destruct (checkLoop doc os true) as [os' qc].
      simpl in *. by rewrite IH.
    + specialize (IH questCompleted). destruct (checkLoop doc os questCompleted) as [os' qc].
      simpl in *. by rewrite Hc, (isCompleted_counters _ _ _ Hm Hs), Hi, IH.
Qed.

Lemma checkObjectiveCompletion_again qt doc :
  checkObjectiveCompletion qt (checkObjectiveCompletion qt doc)
  = checkObjectiveCompletion qt doc.
Proof.
  assert (H : forall doc', IQuestProgress.currentMessages doc' = IQuestProgress.currentMessages doc ->
            IQuestProgress.currentSuccessMessages doc'
            = IQuestProgress.currentSuccessMessages doc ->
            IQuestProgress.Objectives doc'
            = fst (checkLoop doc (IQuestProgress.Objectives doc) false) ->
            checkObjectiveCompletion qt doc' = doc').
  { intros doc' Hm Hs Hos.
    pose proof (checkLoop_again doc doc' (IQuestProgress.Objectives doc) false Hm Hs) as Hagain.
    rewrite <- Hos in Hagain.
    unfold checkObjectiveCompletion, checkObjectiveCompletionDaily,
      checkObjectiveCompletionWeekly.
    destruct qt; rewrite Hagain; by destruct doc'. }
  apply H.
  - apply (checkObjectiveCompletion_counters qt doc).
  - apply (checkObjectiveCompletion_counters qt doc).
  - unfold checkObjectiveCompletion, checkObjectiveCompletionDaily,
      checkObjectiveCompletionWeekly.
    by destruct qt, (checkLoop doc (IQuestProgress.Objectives doc) false) as [os []].
Qed.

(** X1. The completion check is idempotent: run on its own result, the
    daily and the weekly check change nothing, neither a [completed] flag
    nor [QuestSeen]. *)
Theorem completion_check_idempotent doc :
  checkObjectiveCompletionDaily (checkObjectiveCompletionDaily doc)
  = checkObjectiveCompletionDaily doc
  /\ checkObjectiveCompletionWeekly (checkObjectiveCompletionWeekly doc)
     = checkObjectiveCompletionWeekly doc.
Proof.
  split; [apply (checkObjectiveCompletion_again daily) |
          apply (checkObjectiveCompletion_again weekly)].
Qed.

Lemma findOne_returns qt userId key db :
  findOne qt userId key db = (db, Returned (progressOf qt db !! (userId, key))).
Proof. done. Qed.

Lemma questsByType_setProgress qt qt' c db :
  questsByType qt (setProgress qt' c db) = questsByType qt db.
Proof.
  unfold questsByType, getQuestsByType, tryCatch, bind, connectDB, get, ret.
  by destruct qt', db as [[] qs d w].
Qed.

Lemma length_checkObjectiveCompletion qt doc :
  length (IQuestProgress.Objectives (checkObjectiveCompletion qt doc))
  = length (IQuestProgress.Objectives doc).
Proof. symmetry. by eapply Forall2_length, checkObjectiveCompletion_onlyCompletes. Qed.

Lemma version_checkObjectiveCompletion qt doc :
  IQuestProgress.version (checkObjectiveCompletion qt doc) = IQuestProgress.version doc.
Proof.
  unfold checkObjectiveCompletion, checkObjectiveCompletionDaily,
    checkObjectiveCompletionWeekly.
  by destruct qt, (checkLoop doc (IQuestProgress.Objectives doc) false) as [os []].
Qed.

(** The first stretch of an event: the document in memory, created when
    there was none. *)
Lemma recordLoad_returns qt userId key db :
  OverlapEvents.recordLoad qt userId key db
  = (setProgress qt (<[(userId, key) := loadedDoc qt userId key db]> (progressOf qt db))
                 (initialized db),
     Returned (loadedDoc qt userId key db)).
Proof.
  unfold OverlapEvents.recordLoad, loadedDoc.
  rewrite (bind_returned _ _ _ _ _ (ensureQuestsInitialized_returns db)).
  rewrite (bind_returned _ _ _ _ _ (getQuestsByType_returns qt (initialized db))).
  rewrite (bind_returned _ _ _ _ _ (findOne_returns qt userId key (initialized db))).
  rewrite progressOf_initialized.
  destruct (progressOf qt db !! (userId, key)) as [p|] eqn:Hp; simpl.
  - unfold ret. rewrite insert_id by done.
    by rewrite <- (progressOf_initialized qt db), setProgress_same.
  - unfold upsert, bind, get, ret, modify. rewrite progressOf_initialized, Hp. simpl.
    by rewrite progressOf_initialized.
Qed.

(** The second stretch, when nobody wrote in between. *)
Lemma recordFinish_loaded qt userId key isSuccessMessage l db :
  progressOf qt db !! (userId, key) = Some l ->
  let c := checkObjectiveCompletion qt (increment isSuccessMessage l) in
  OverlapEvents.recordFinish qt userId key isSuccessMessage l db
  = (setProgress qt (<[(userId, key) := c]> (progressOf qt db)) db, Returned c).
Proof.
  intros Hl c. unfold OverlapEvents.recordFinish. fold c.
  assert (Hlen : length (IQuestProgress.Objectives l) = length (IQuestProgress.Objectives c)).
  { unfold c. by rewrite length_checkObjectiveCompletion. }
  rewrite (save_loaded _ _ _ _ c _ Hl); [| lia |].
  - by rewrite (saved_same_length _ _ Hlen).
  - unfold c. by rewrite version_checkObjectiveCompletion.
Qed.

Lemma updatePeriodProgress_split qt userId key isSuccessMessage db :
  updatePeriodProgress qt userId key isSuccessMessage db
  = (let! progress := OverlapEvents.recordLoad qt userId key in
     OverlapEvents.recordFinish qt userId key isSuccessMessage progress) db.
Proof.
  unfold updatePeriodProgress, OverlapEvents.recordLoad, OverlapEvents.recordFinish, bind.
  destruct (ensureQuestsInitialized db) as [db1 [[]|]]; [|done].
  destruct (getQuestsByType qt db1) as [db2 [qs|]]; [|done].
  destruct (findOne qt userId key db2) as [db3 [found|]]; [|done].
  by destruct found.
Qed.

(** [updateDailyProgress] and [updateWeeklyProgress] as one step. *)
Lemma updatePeriodProgress_returns qt userId key isSuccessMessage db :
  updatePeriodProgress qt userId key isSuccessMessage db
  = (setProgress qt (<[(userId, key) := recorded qt userId key isSuccessMessage db]>
                       (progressOf qt db)) (initialized db),
     Returned (recorded qt userId key isSuccessMessage db)).
Proof.
  rewrite updatePeriodProgress_split.
  rewrite (bind_returned _ _ _ _ _ (recordLoad_returns qt userId key db)).
  rewrite recordFinish_loaded by (rewrite progressOf_setProgress; apply lookup_insert_eq).
  rewrite progressOf_setProgress, insert_insert_eq.
  by destruct qt, (initialized db).
Qed.

Lemma addOne_safe n : safeCounter n -> addOne n = n + 1.
Proof.
  intros [Hlo Hhi]. unfold addOne.
  by rewrite (proj2 (Z.leb_le _ _) Hlo), (proj2 (Z.ltb_lt _ _) Hhi).
Qed.

Lemma addOne_le n : n <= addOne n.
Proof. unfold addOne. destruct (_ && _); [lia |]. destruct (_ && _); lia. Qed.

Lemma recorded_counters qt userId key isSuccessMessage db :
  IQuestProgress.currentMessages (recorded qt userId key isSuccessMessage db)
  = (if isSuccessMessage then fun n => n else addOne)
      (default 0 (IQuestProgress.currentMessages <$> progressOf qt db !! (userId, key)))
  /\ IQuestProgress.currentSuccessMessages (recorded qt userId key isSuccessMessage db)
     = (if isSuccessMessage then addOne else fun n => n)
         (default 0 (IQuestProgress.currentSuccessMessages
                       <$> progressOf qt db !! (userId, key))).
Proof.
  unfold recorded, loadedDoc.
  destruct (checkObjectiveCompletion_counters qt
              (increment isSuccessMessage
                 (default (newProgress (seedObjectives (head (questsByType qt (initialized db)))))
                          (progressOf qt db !! (userId, key))))) as [-> ->].
  by destruct (progressOf qt db !! (userId, key)) as [p|], isSuccessMessage.
Qed.

Lemma safeCounter_0 : safeCounter 0.
Proof. by split. Qed.

(** On the safe integers an event adds exactly one. *)
Lemma recorded_counters_safe qt userId key isSuccessMessage db :
  (forall doc, progressOf qt db !! (userId, key) = Some doc ->
               safeCounter (IQuestProgress.currentMessages doc)
               /\ safeCounter (IQuestProgress.currentSuccessMessages doc)) ->
  IQuestProgress.currentMessages (recorded qt userId key isSuccessMessage db)
  = default 0 (IQuestProgress.currentMessages <$> progressOf qt db !! (userId, key))
    + (if isSuccessMessage then 0 else 1)
  /\ IQuestProgress.currentSuccessMessages (recorded qt userId key isSuccessMessage db)
     = default 0 (IQuestProgress.currentSuccessMessages <$> progressOf qt db !! (userId, key))
       + (if isSuccessMessage then 1 else 0).
Proof.
  intros Hsafe. destruct (recorded_counters qt userId key isSuccessMessage db) as [-> ->].
  destruct (progressOf qt db !! (userId, key)) as [p|]; simpl.
  - destruct (Hsafe p eq_refl) as [Hm Hs].
    destruct isSuccessMessage; rewrite ?addOne_safe by done; lia.
  - destruct isSuccessMessage; rewrite ?(addOne_safe 0) by apply safeCounter_0; lia.
Qed.

(** X2. On a working database whose counters for the user's two periods
    are safe integers (from -2^53 to 2^53 - 1, where [+= 1] on a JavaScript
    number is exact), [updateProgress] returns the two documents it stored,
    one under the key [getDateKey] gives and one under the key [getWeekKey]
    gives, creating each when it was missing; in both, exactly one counter
    is one higher than before ([currentSuccessMessages] for a success
    message, [currentMessages] otherwise, counting from 0 for a new
    document) and the other one is as before; no other document of either
    collection is touched. *)
Theorem updateProgress_records db userId isSuccessMessage now :
  connected db = true ->
  (forall qt doc,
      progressOf qt db !! (userId, periodKey qt now) = Some doc ->
      safeCounter (IQuestProgress.currentMessages doc)
      /\ safeCounter (IQuestProgress.currentSuccessMessages doc)) ->
  let out := updateProgress userId isSuccessMessage now db in
  let before qt (field : IQuestProgress.t -> Z) :=
    default 0 (field <$> progressOf qt db !! (userId, periodKey qt now)) in
  exists dailyNew weeklyNew,
    valueOf out = Returned (UpdateResult.mk (Some dailyNew) (Some weeklyNew) (Some []))
    /\ dailyProgress (stateOf out)
       = <[(userId, PeriodKey.getDateKey now) := dailyNew]> (dailyProgress db)
    /\ weeklyProgress (stateOf out)
       = <[(userId, PeriodKey.getWeekKey now) := weeklyNew]> (weeklyProgress db)
    /\ IQuestProgress.currentMessages dailyNew
       = before daily IQuestProgress.currentMessages + (if isSuccessMessage then 0 else 1)
    /\ IQuestProgress.currentSuccessMessages dailyNew
       = before daily IQuestProgress.currentSuccessMessages
         + (if isSuccessMessage then 1 else 0)
    /\ IQuestProgress.currentMessages weeklyNew
       = before weekly IQuestProgress.currentMessages + (if isSuccessMessage then 0 else 1)
    /\ IQuestProgress.currentSuccessMessages weeklyNew
       = before weekly IQuestProgress.currentSuccessMessages
         + (if isSuccessMessage then 1 else 0).
Proof.
  intros Hc Hsafe out before.
  set (db1 := setProgress daily
                (<[(userId, PeriodKey.getDateKey now) :=
                     recorded daily userId (PeriodKey.getDateKey now) isSuccessMessage db]>
                   (dailyProgress db)) (initialized db)).
  exists (recorded daily userId (PeriodKey.getDateKey now) isSuccessMessage db),
         (recorded weekly userId (PeriodKey.getWeekKey now) isSuccessMessage db1).
  assert (Hout : out
    = (setProgress weekly
         (<[(userId, PeriodKey.getWeekKey now) :=
              recorded weekly userId (PeriodKey.getWeekKey now) isSuccessMessage db1]>
            (weeklyProgress db1)) (initialized db1),
       Returned (UpdateResult.mk
                   (Some (recorded daily userId (PeriodKey.getDateKey now) isSuccessMessage db))
                   (Some (recorded weekly userId (PeriodKey.getWeekKey now)
                                   isSuccessMessage db1))
                   (Some [])))).
  { unfold out, updateProgress, updateDailyProgress, updateWeeklyProgress, tryCatch.
    rewrite (bind_returned _ _ _ _ _ (connectDB_connected _ Hc)).
    rewrite (bind_returned _ _ _ _ _
               (updatePeriodProgress_returns daily userId _ isSuccessMessage db)).
    fold db1.
    by rewrite (bind_returned _ _ _ _ _
                  (updatePeriodProgress_returns weekly userId _ isSuccessMessage db1)). }
  assert (Hinit : initialized db1 = db1).
  { unfold db1. by rewrite initialized_setProgress, initialized_idem. }
  assert (Hweekly : progressOf weekly db1 = progressOf weekly db).
  { unfold db1. rewrite progressOf_setProgress_ne by done. apply progressOf_initialized. }
  assert (Hdaily : progressOf daily db1
                   = <[(userId, PeriodKey.getDateKey now) :=
                         recorded daily userId (PeriodKey.getDateKey now) isSuccessMessage db]>
                       (dailyProgress db)).
  { unfold db1. apply progressOf_setProgress. }
  rewrite Hout, Hinit.
  pose proof (recorded_counters_safe daily userId (PeriodKey.getDateKey now) isSuccessMessage
                db (Hsafe daily)) as [Hd1 Hd2].
  assert (Hsafe1 : forall doc,
             progressOf weekly db1 !! (userId, PeriodKey.getWeekKey now) = Some doc ->
             safeCounter (IQuestProgress.currentMessages doc)
             /\ safeCounter (IQuestProgress.currentSuccessMessages doc)).
  { intros doc. rewrite Hweekly. apply (Hsafe weekly). }
  pose proof (recorded_counters_safe weekly userId (PeriodKey.getWeekKey now) isSuccessMessage
                db1 Hsafe1) as [Hw1 Hw2].
  rewrite Hweekly in Hw1, Hw2.
  split_and!; [done | | | exact Hd1 | exact Hd2 | exact Hw1 | exact Hw2].
  - change (progressOf daily
              (setProgress weekly
                 (<[(userId, PeriodKey.getWeekKey now) :=
                      recorded weekly userId (PeriodKey.getWeekKey now) isSuccessMessage db1]>
                    (weeklyProgress db1)) db1)
            = <[(userId, PeriodKey.getDateKey now) :=
                  recorded daily userId (PeriodKey.getDateKey now) isSuccessMessage db]>
                (dailyProgress db)).
    by rewrite progressOf_setProgress_ne.
  - change (progressOf weekly
              (setProgress weekly
                 (<[(userId, PeriodKey.getWeekKey now) :=
                      recorded weekly userId (PeriodKey.getWeekKey now) isSuccessMessage db1]>
                    (progressOf weekly db1)) db1)
            = <[(userId, PeriodKey.getWeekKey now) :=
                  recorded weekly userId (PeriodKey.getWeekKey now) isSuccessMessage db1]>
                (progressOf weekly db)).
    by rewrite progressOf_setProgress, Hweekly.
Qed.

Lemma updateProgress_records_witness :
  exists dailyNew weeklyNew,
    valueOf (updateProgress "u" true newYearsEve dbCompleted)
    = Returned (UpdateResult.mk (Some dailyNew) (Some weeklyNew) (Some []))
    /\ IQuestProgress.currentSuccessMessages dailyNew = 2
    /\ IQuestProgress.currentSuccessMessages weeklyNew = 1.
Proof.
  assert (Hsafe : forall qt doc,
             progressOf qt dbCompleted !! ("u", periodKey qt newYearsEve)%string = Some doc ->
             safeCounter (IQuestProgress.currentMessages doc)
             /\ safeCounter (IQuestProgress.currentSuccessMessages doc)).
  { intros [] doc Hdoc; vm_compute in Hdoc; [| discriminate Hdoc].
    injection Hdoc as <-. by split. }
  destruct (updateProgress_records dbCompleted "u" true newYearsEve eq_refl Hsafe)
    as (dailyNew & weeklyNew & Hout & _ & _ & _ & Hd & _ & Hw).
  exists dailyNew, weeklyNew. split; [exact Hout |]. split; [exact Hd | exact Hw].
Defined.

(** ** Two events at once *)

Lemma pick_cur {A} `{EqDecision A} (l c : A) : pick l c c = c.
Proof. unfold pick. by destruct (decide (l = c)). Qed.

Lemma patchObjective_cur l c : patchObjective l c c = c.
Proof. destruct l, c. unfold patchObjective; simpl. by rewrite !pick_cur. Qed.

Lemma patchObjectives_cur l c :
  length l = length c -> patchObjectives l c c = c.
Proof.
  revert c. induction l as [|a l IH]; intros [|b c] Hlen; simpl in *; try done.
  rewrite patchObjective_cur, IH; [done | lia].
Qed.

Lemma patch_cur l c :
  length (IQuestProgress.Objectives l) = length (IQuestProgress.Objectives c) ->
  patch l c c = c.
Proof.
  intros Hlen. unfold patch, pushes.
  rewrite !pick_cur, patchObjectives_cur, Hlen, Nat.ltb_irrefl by done. by destruct c.
Qed.

(** The second of two overlapping writers of the same kind of event stores
    its own copy over the identical copy of the first. *)
Lemma recordFinish_stale qt userId key isSuccessMessage l db :
  let c := checkObjectiveCompletion qt (increment isSuccessMessage l) in
  progressOf qt db !! (userId, key) = Some c ->
  OverlapEvents.recordFinish qt userId key isSuccessMessage l db = (db, Returned c).
Proof.
  intros c Hc. unfold OverlapEvents.recordFinish, save, bind, get, ret, modify, throw.
  fold c. rewrite Hc.
  assert (Hlen : length (IQuestProgress.Objectives l) = length (IQuestProgress.Objectives c)).
  { unfold c. by rewrite length_checkObjectiveCompletion. }
  assert (Hv : IQuestProgress.version c = IQuestProgress.version l).
  { unfold c. by rewrite version_checkObjectiveCompletion. }
  rewrite Hv, Z.eqb_refl, andb_false_r. simpl.
  rewrite (patch_cur _ _ Hlen), (saved_same_length _ _ Hlen), insert_id by done.
  by rewrite setProgress_same.
Qed.

(** X3. Two overlapping calls of [updateDailyProgress] (or
    [updateWeeklyProgress]) for the same document and the same kind of
    message, each loading the document before the other one saves, leave
    exactly the database that one call leaves: both return the same
    document and one of the two events is not counted.  Recorded one after
    the other, the second event counts on top of the first.  The counts
    are stated for the safe integers, where [+= 1] on a JavaScript number
    is exact: one event counts one on a stored counter from -2^53 to
    2^53 - 1, two events in turn count two on one from -2^53 to 2^53 - 2. *)
Theorem overlapping_events_count_once db qt userId key isSuccessMessage :
  let one := updatePeriodProgress qt userId key isSuccessMessage db in
  let doc := recorded qt userId key isSuccessMessage db in
  let counter := if isSuccessMessage then IQuestProgress.currentSuccessMessages
                 else IQuestProgress.currentMessages in
  let before := default 0 (counter <$> progressOf qt db !! (userId, key)) in
  one = (stateOf one, Returned doc)
  /\ progressOf qt (stateOf one) !! (userId, key) = Some doc
  /\ OverlapEvents.recordBoth qt userId key isSuccessMessage isSuccessMessage db
     = (stateOf one, Returned (doc, doc))
  /\ (safeCounter before -> counter doc = before + 1)
  /\ exists doc', updatePeriodProgress qt userId key isSuccessMessage (stateOf one)
                  = (stateOf (updatePeriodProgress qt userId key isSuccessMessage (stateOf one)),
                     Returned doc')
                  /\ (safeCounter before -> safeCounter (before + 1) ->
                      counter doc' = before + 2).
Proof.
  intros one doc counter before. unfold one.
  rewrite updatePeriodProgress_returns. fold doc. simpl.
  set (db1 := setProgress qt (<[(userId, key) := loadedDoc qt userId key db]> (progressOf qt db))
                          (initialized db)).
  assert (Hl1 : progressOf qt db1 !! (userId, key) = Some (loadedDoc qt userId key db)).
  { unfold db1. rewrite progressOf_setProgress. apply lookup_insert_eq. }
  assert (Hload : OverlapEvents.recordLoad qt userId key db1
                  = (db1, Returned (loadedDoc qt userId key db))).
  { rewrite recordLoad_returns.
    assert (Hsame : loadedDoc qt userId key db1 = loadedDoc qt userId key db).
    { unfold loadedDoc at 1. by rewrite Hl1. }
    assert (Hinit : initialized db1 = db1).
    { unfold db1. by rewrite initialized_setProgress, initialized_idem. }
    rewrite Hsame, Hinit, insert_id by done. by rewrite setProgress_same. }
  split_and!.
  - done.
  - rewrite progressOf_setProgress. apply lookup_insert_eq.
  - unfold OverlapEvents.recordBoth.
    rewrite (bind_returned _ _ _ _ _ (recordLoad_returns qt userId key db)). fold db1.
    rewrite (bind_returned _ _ _ _ _ Hload).
    rewrite (bind_returned _ _ _ _ _
               (recordFinish_loaded qt userId key isSuccessMessage _ db1 Hl1)).
    fold (recorded qt userId key isSuccessMessage db). fold doc.
    erewrite bind_returned.
    2:{ apply recordFinish_stale. fold (recorded qt userId key isSuccessMessage db). fold doc.
        rewrite progressOf_setProgress. apply lookup_insert_eq. }
    unfold ret, db1. rewrite progressOf_setProgress, insert_insert_eq.
    by destruct qt, (initialized db).
  - intros Hsafe. unfold before, counter, doc in *.
    destruct (recorded_counters qt userId key isSuccessMessage db) as [Hm Hs].
    destruct isSuccessMessage; [rewrite Hs | rewrite Hm]; by apply addOne_safe.
  - eexists. split; [by rewrite updatePeriodProgress_returns |].
    intros Hsafe Hsafe'.
    assert (Hcount : counter doc = before + 1).
    { unfold before, counter, doc in *.
      destruct (recorded_counters qt userId key isSuccessMessage db) as [Hm Hs].
      destruct isSuccessMessage; [rewrite Hs | rewrite Hm]; by apply addOne_safe. }
    match goal with
    | |- context [recorded qt userId key isSuccessMessage ?d] =>
        destruct (recorded_counters qt userId key isSuccessMessage d) as [Hm Hs];
        assert (Hdoc : progressOf qt d !! (userId, key) = Some doc)
          by (rewrite progressOf_setProgress; apply lookup_insert_eq)
    end.
    rewrite Hdoc in Hm, Hs. simpl in Hm, Hs. rewrite <- Hcount in Hsafe'.
    replace (before + 2) with (counter doc + 1) by lia.
    unfold counter in *.
    destruct isSuccessMessage; [rewrite Hs | rewrite Hm]; by apply addOne_safe.
Qed.

Lemma overlapping_events_count_once_witness :
  IQuestProgress.currentSuccessMessages docCompleted = 1
  /\ OverlapEvents.recordBoth daily "u" "2024-12-31" true true dbCompleted
     = (stateOf (updatePeriodProgress daily "u" "2024-12-31" true dbCompleted),
        Returned (recorded daily "u" "2024-12-31" true dbCompleted,
                  recorded daily "u" "2024-12-31" true dbCompleted))
  /\ IQuestProgress.currentSuccessMessages (recorded daily "u" "2024-12-31" true dbCompleted)
     = 2
  /\ exists doc',
       valueOf (updatePeriodProgress daily "u" "2024-12-31" true
                  (stateOf (updatePeriodProgress daily "u" "2024-12-31" true dbCompleted)))
       = Returned doc'
       /\ IQuestProgress.currentSuccessMessages doc' = 3.
Proof.
  split; [reflexivity |].
  destruct (overlapping_events_count_once dbCompleted daily "u" "2024-12-31" true)
    as (_ & _ & Hboth & Hcount & doc' & Hnext & Hcount').
  split; [exact Hboth |]. split.
  - apply Hcount. by split.
  - exists doc'. split; [by rewrite Hnext |]. apply Hcount'; by split.
Defined.

(** ** Marking a quest as seen *)

(** X4. [markQuestSeen] returns [false] and writes nothing when the
    connection fails or when the period has no document for the user (it
    never creates one); otherwise it returns [true], and afterwards the
    document of the period has [QuestSeen = true] and every other field as
    before, while every other document, the other collection, the catalog
    and the connection are as before. *)
Theorem markQuestSeen_outcomes db userId questType now :
  let key := (userId, periodKey questType now) in
  let out := markQuestSeen userId questType now db in
  (connected db = false -> out = (db, Returned false))
  /\ (connected db = true -> progressOf questType db !! key = None ->
      out = (db, Returned false))
  /\ (forall doc,
        connected db = true -> progressOf questType db !! key = Some doc ->
        valueOf out = Returned true
        /\ (exists doc',
              progressOf questType (stateOf out) !! key = Some doc'
              /\ IQuestProgress.QuestSeen doc' = true
              /\ IQuestProgress.currentMessages doc' = IQuestProgress.currentMessages doc
              /\ IQuestProgress.currentSuccessMessages doc'
                 = IQuestProgress.currentSuccessMessages doc
              /\ IQuestProgress.Objectives doc' = IQuestProgress.Objectives doc
              /\ IQuestProgress.Completed doc' = IQuestProgress.Completed doc
              /\ IQuestProgress.NotificationCount doc' = IQuestProgress.NotificationCount doc
              /\ IQuestProgress.version doc' = IQuestProgress.version doc)
        /\ (forall key', key' <> key ->
              progressOf questType (stateOf out) !! key' = progressOf questType db !! key')
        /\ (forall qt', qt' <> questType -> progressOf qt' (stateOf out) = progressOf qt' db)
        /\ quests (stateOf out) = quests db
        /\ connected (stateOf out) = true).
Proof.
  intros key out.
  assert (Hout : out
            = if connected db
              then match progressOf questType db !! key with
                   | Some doc =>
                       (setProgress questType
                          (<[key := IQuestProgress.setQuestSeen true doc]>
                             (progressOf questType db)) db,
                        Returned true)
                   | None => (db, Returned false)
                   end
              else (db, Returned false)).
  { unfold out, markQuestSeen, tryCatch.
    destruct (connected db) eqn:Hc.
    - rewrite (bind_returned _ _ _ _ _ (connectDB_connected _ Hc)).
      assert (Hkey : (userId, match questType with
                              | daily => PeriodKey.getDateKey now
                              | weekly => PeriodKey.getWeekKey now
                              end) = key) by by destruct questType.
      rewrite (bind_returned _ _ _ _ _ (findOne_returns questType userId _ db)), Hkey.
      destruct (progressOf questType db !! key) as [doc|] eqn:Hdoc; [|done].
      unfold bind, key in *.
      replace (match questType with
               | daily => PeriodKey.getDateKey now
               | weekly => PeriodKey.getWeekKey now
               end) with (periodKey questType now) by by destruct questType.
      rewrite (save_loaded _ _ _ _ (IQuestProgress.setQuestSeen true doc) _ Hdoc);
        [| done | done].
      by rewrite saved_same_length.
    - unfold bind. by rewrite (connectDB_disconnected _ Hc). }
  rewrite Hout. split_and!.
  - by intros ->.
  - by intros -> ->.
  - intros doc Hc Hdoc. rewrite Hc, Hdoc. simpl. split_and!.
    + done.
    + exists (IQuestProgress.setQuestSeen true doc). split_and!; try done.
      rewrite progressOf_setProgress. apply lookup_insert_eq.
    + intros key' Hne. rewrite progressOf_setProgress. by apply lookup_insert_ne.
    + intros qt' Hne. by apply progressOf_setProgress_ne.
    + by destruct questType.
    + by rewrite connected_setProgress.
Qed.

Lemma markQuestSeen_outcomes_witness :
  IQuestProgress.QuestSeen docCompleted = false
  /\ valueOf (markQuestSeen "u" daily newYearsEve dbCompleted) = Returned true
  /\ exists doc',
      progressOf daily (stateOf (markQuestSeen "u" daily newYearsEve dbCompleted))
        !! ("u", "2024-12-31")%string = Some doc'
      /\ IQuestProgress.QuestSeen doc' = true
      /\ IQuestProgress.Objectives doc' = IQuestProgress.Objectives docCompleted.
Proof.
  split; [reflexivity |].
  destruct (proj2 (proj2 (markQuestSeen_outcomes dbCompleted "u" daily newYearsEve))
              docCompleted eq_refl eq_refl)
    as (Hvalue & (doc' & Hdoc' & Hseen & _ & _ & Hobjectives & _) & _).
  split; [exact Hvalue |]. exists doc'. split_and!; [exact Hdoc' | exact Hseen | exact Hobjectives].
Defined.

End Recording.

(* ===================================================================== *)
(** * Migration: the states it adds, and running it twice                *)
(* ===================================================================== *)

Section MigrationMore.
Import Mongoose QuestConfigService QuestService Spec Facts Examples.

Lemma migrateStored_migrated quest doc :
  migrateStored quest doc = migrated (objectivesOf quest) doc.
Proof.
  pose proof (migrateStored_objectives quest doc) as Hos.
  unfold migrated. rewrite <- Hos. clear Hos.
  unfold migrateStored, migrateDocument, missing.
  destruct quest as [q|]; simpl; [| by destruct doc].
  pose proof (addMissing_app (map IObjectiveProgress.objectiveId (IQuestProgress.Objectives doc))
                (IQuest.objectives q) (IQuestProgress.Objectives doc) false) as Hadd.
  pose proof (addMissing_unchanged
                (map IObjectiveProgress.objectiveId (IQuestProgress.Objectives doc))
                (IQuest.objectives q) (IQuestProgress.Objectives doc) false) as Hsame.
  destruct (addMissing _ _ _ _) as [os1 nu1]. simpl in *.
  pose proof (updateExisting_map (IQuest.objectives q) os1 nu1) as Hupd.
  pose proof (updateExisting_flag (IQuest.objectives q) os1 nu1) as Hflag.
  destruct (updateExisting _ _ _) as [os2 nu2] eqn:Hue. simpl in *.
  set (added := List.filter _ (IQuest.objectives q)) in *.
  destruct nu2.
  - rewrite patch_same; simpl; [| rewrite Hupd, length_map, Hadd, length_app; lia | done].
    unfold saved, pushes. simpl. rewrite Hupd, length_map, Hadd, length_app, length_map.
    destruct added as [|c added]; simpl.
    + rewrite Nat.add_0_r, Nat.ltb_irrefl. by destruct doc.
    + destruct (length (IQuestProgress.Objectives doc) <?
                length (IQuestProgress.Objectives doc) + S (length added))%nat eqn:Hlt;
        [by destruct doc |].
      apply Nat.ltb_ge in Hlt. lia.
  - specialize (Hflag eq_refl). subst nu1. destruct (Hsame eq_refl) as [Hos1 _].
    rewrite Hos1 in Hadd.
    assert (Hnone : map seedObjective added = []).
    { apply (app_inv_head (IQuestProgress.Objectives doc)). by rewrite app_nil_r. }
    destruct added; [|done]. by destruct doc.
Qed.

Lemma objectiveId_refreshed catalog st :
  IObjectiveProgress.objectiveId (refreshed catalog st) = IObjectiveProgress.objectiveId st.
Proof. unfold refreshed. by destruct (findConfig _ _) as [[? ?]|]. Qed.

Lemma refreshed_idem catalog st : refreshed catalog (refreshed catalog st) = refreshed catalog st.
Proof.
  unfold refreshed at 1. rewrite objectiveId_refreshed. unfold refreshed.
  by destruct (findConfig _ _) as [[? ?]|].
Qed.

Lemma objectiveId_missing catalog doc :
  map IObjectiveProgress.objectiveId (missing catalog doc) = missingIds catalog doc.
Proof.
  unfold missing, missingIds.
  induction catalog as [|c cs IH]; simpl; [done|].
  destruct (negb _); simpl; by rewrite IH.
Qed.

Lemma missingIds_none catalog doc :
  (forall c, c ∈ catalog ->
             IQuestObjective.id c ∈ map IObjectiveProgress.objectiveId
                                        (IQuestProgress.Objectives doc)) ->
  missing catalog doc = [].
Proof.
  unfold missing. intros Hall.
  induction catalog as [|c cs IH]; simpl; [done|].
  rewrite bool_decide_eq_true_2 by (apply Hall; left). simpl.
  apply IH. intros c' Hc'. apply Hall. by right.
Qed.

Lemma elem_of_missingIds catalog doc c :
  c ∈ catalog ->
  IQuestObjective.id c ∈ map IObjectiveProgress.objectiveId (IQuestProgress.Objectives doc)
  \/ IQuestObjective.id c ∈ missingIds catalog doc.
Proof.
  intros Hc.
  destruct (decide (IQuestObjective.id c ∈ map IObjectiveProgress.objectiveId
                                             (IQuestProgress.Objectives doc))) as [Hin|Hout];
    [by left | right].
  unfold missingIds. apply list_elem_of_In, filter_In. split.
  - apply list_elem_of_In. by apply list_elem_of_fmap_2.
  - by rewrite bool_decide_eq_false_2.
Qed.

Lemma ids_migrated catalog doc :
  map IObjectiveProgress.objectiveId (IQuestProgress.Objectives (migrated catalog doc))
  = map IObjectiveProgress.objectiveId (IQuestProgress.Objectives doc)
    ++ missingIds catalog doc.
Proof.
  simpl. rewrite <- list_fmap_compose.
  rewrite (list_fmap_ext _ IObjectiveProgress.objectiveId)
    by (intros ? st _; apply objectiveId_refreshed).
  by rewrite fmap_app, objectiveId_missing.
Qed.

Lemma covered_migrated catalog doc c :
  c ∈ catalog ->
  IQuestObjective.id c
    ∈ map IObjectiveProgress.objectiveId (IQuestProgress.Objectives (migrated catalog doc)).
Proof.
  intros Hc. rewrite ids_migrated. apply elem_of_app. by apply elem_of_missingIds.
Qed.

Lemma migrated_idem catalog doc :
  migrated catalog (migrated catalog doc) = migrated catalog doc.
Proof.
  assert (Hnone : missing catalog (migrated catalog doc) = []).
  { apply missingIds_none. intros c. apply covered_migrated. }
  unfold migrated at 1. rewrite Hnone, app_nil_r.
  assert (Hos : map (refreshed catalog) (IQuestProgress.Objectives (migrated catalog doc))
                = IQuestProgress.Objectives (migrated catalog doc)).
  { simpl. rewrite <- list_fmap_compose. apply list_fmap_ext. intros ? st _. apply refreshed_idem. }
  rewrite Hos. by destruct (migrated catalog doc).
Qed.

Lemma questsByType_progress qt c qs d w d' w' :
  questsByType qt (mkDB c qs d' w') = questsByType qt (mkDB c qs d w).
Proof.
  unfold questsByType, getQuestsByType, tryCatch, bind, connectDB, get, ret.
  by destruct c.
Qed.

Lemma missing_seeded catalog doc st :
  st ∈ map (refreshed catalog) (missing catalog doc) ->
  IObjectiveProgress.completed st = false
  /\ IObjectiveProgress.claimed st = false
  /\ exists i configObj,
      findConfig (IObjectiveProgress.objectiveId st) catalog = Some (i, configObj)
      /\ definedBy configObj st.
Proof.
  intros Hst. apply list_elem_of_fmap in Hst as (seed & -> & Hseed).
  unfold missing in Hseed. apply list_elem_of_fmap in Hseed as (c & -> & Hc).
  apply list_elem_of_In, filter_In in Hc as [Hc _]. apply list_elem_of_In in Hc.
  assert (Hfound : is_Some (findConfig (IQuestObjective.id c) catalog)).
  { unfold findConfig. eapply list_find_elem_of; [exact Hc | done]. }
  destruct Hfound as [[i c0] Hfound].
  unfold refreshed. simpl. rewrite Hfound. simpl.
  split_and!; [done | done |]. exists i, c0. by rewrite Hfound.
Qed.

(** X5. Migration gives every stored document a state for each objective
    of the current catalog that it lacks: the states it had keep their
    positions, and after them come the new ones, one for each catalog id
    the document did not have, in catalog order, not completed, not
    claimed, and with the catalog's thresholds, reward and order. Every
    catalog objective has a state afterwards, and the counters and the seen
    flag of the document are untouched. *)
Theorem migration_adds_missing db qt key doc :
  progressOf qt db !! key = Some doc ->
  exists doc' added,
    progressOf qt (stateOf (migrateQuestProgress db)) !! key = Some doc'
    /\ IQuestProgress.Objectives doc'
       = map (refreshed (catalog qt db)) (IQuestProgress.Objectives doc) ++ added
    /\ map IObjectiveProgress.objectiveId added = missingIds (catalog qt db) doc
    /\ Forall (fun st =>
                 IObjectiveProgress.completed st = false
                 /\ IObjectiveProgress.claimed st = false
                 /\ exists i configObj,
                     findConfig (IObjectiveProgress.objectiveId st) (catalog qt db)
                     = Some (i, configObj)
                     /\ definedBy configObj st) added
    /\ (forall configObj, configObj ∈ catalog qt db ->
          IQuestObjective.id configObj
            ∈ map IObjectiveProgress.objectiveId (IQuestProgress.Objectives doc'))
    /\ IQuestProgress.currentMessages doc' = IQuestProgress.currentMessages doc
    /\ IQuestProgress.currentSuccessMessages doc' = IQuestProgress.currentSuccessMessages doc
    /\ IQuestProgress.QuestSeen doc' = IQuestProgress.QuestSeen doc.
Proof.
  intros Hdoc.
  exists (migrated (catalog qt db) doc),
         (map (refreshed (catalog qt db)) (missing (catalog qt db) doc)).
  split_and!; try done.
  - rewrite migrateQuestProgress_progress, lookup_fmap, Hdoc. simpl.
    by rewrite migrateStored_migrated.
  - simpl. by rewrite fmap_app.
  - rewrite <- list_fmap_compose.
    rewrite (list_fmap_ext _ IObjectiveProgress.objectiveId)
      by (intros ? st _; apply objectiveId_refreshed).
    apply objectiveId_missing.
  - apply Forall_forall. intros st. apply missing_seeded.
  - intros c. apply covered_migrated.
Qed.

Lemma migration_adds_missing_witness :
  exists doc' added,
    progressOf daily (stateOf (migrateQuestProgress dbGrown)) !! ("u", "2024-12-31")%string
    = Some doc'
    /\ IQuestProgress.Objectives doc'
       = map (refreshed (catalog daily dbGrown)) (IQuestProgress.Objectives docBefore) ++ added
    /\ map IObjectiveProgress.objectiveId added = missingIds (catalog daily dbGrown) docBefore
    /\ Forall (fun st =>
                 IObjectiveProgress.completed st = false
                 /\ IObjectiveProgress.claimed st = false
                 /\ exists i configObj,
                     findConfig (IObjectiveProgress.objectiveId st) (catalog daily dbGrown)
                     = Some (i, configObj)
                     /\ definedBy configObj st) added
    /\ (forall configObj, configObj ∈ catalog daily dbGrown ->
          IQuestObjective.id configObj
            ∈ map IObjectiveProgress.objectiveId (IQuestProgress.Objectives doc'))
    /\ IQuestProgress.currentMessages doc' = IQuestProgress.currentMessages docBefore
    /\ IQuestProgress.currentSuccessMessages doc'
       = IQuestProgress.currentSuccessMessages docBefore
    /\ IQuestProgress.QuestSeen doc' = IQuestProgress.QuestSeen docBefore.
Proof. apply (migration_adds_missing dbGrown daily ("u", "2024-12-31")%string docBefore). reflexivity. Defined.

(** X6. Migration is idempotent on the stored data: a second run right
    after the first finds nothing to add and nothing to overwrite, and
    leaves the database, document versions included, as the first run left
    it. *)
Theorem migration_twice db :
  stateOf (migrateQuestProgress (stateOf (migrateQuestProgress db)))
  = stateOf (migrateQuestProgress db).
Proof.
  rewrite (migrateQuestProgress_state (stateOf _)).
  rewrite (migrateQuestProgress_state db). destruct db as [c qs d w]. simpl.
  rewrite (questsByType_progress daily c qs d w), (questsByType_progress weekly c qs d w).
  f_equal.
  - rewrite <- map_fmap_compose. apply map_fmap_ext. intros k doc _. simpl.
    rewrite !migrateStored_migrated. apply migrated_idem.
  - rewrite <- map_fmap_compose. apply map_fmap_ext. intros k doc _. simpl.
    rewrite !migrateStored_migrated. apply migrated_idem.
Qed.

End MigrationMore.

(* ===================================================================== *)
(** * Nothing earned is lost                                             *)
(* ===================================================================== *)

Section Kept.
Import Mongoose QuestConfigService QuestService Spec Facts Examples.

Lemma stateKept_refl st : stateKept st st.
Proof. by split_and!. Qed.

Lemma stateKept_trans st1 st2 st3 : stateKept st1 st2 -> stateKept st2 st3 -> stateKept st1 st3.
Proof.
  intros (Hid & Hco & Hcl) (Hid' & Hco' & Hcl'). split_and!.
  - by rewrite Hid'.
  - intros H. by apply Hco', Hco.
  - intros H. by apply Hcl', Hcl.
Qed.

Lemma docKept_refl doc : docKept doc doc.
Proof.
  split_and!; [lia | lia |]. intros i st Hst. exists st. split; [done | apply stateKept_refl].
Qed.

Lemma docKept_trans doc1 doc2 doc3 : docKept doc1 doc2 -> docKept doc2 doc3 -> docKept doc1 doc3.
Proof.
  intros (Hm & Hs & Hos) (Hm' & Hs' & Hos'). split_and!; [lia | lia |].
  intros i st Hst. destruct (Hos i st Hst) as (st2 & Hst2 & Hk).
  destruct (Hos' i st2 Hst2) as (st3 & Hst3 & Hk'). exists st3.
  split; [done | by eapply stateKept_trans].
Qed.

Lemma dbKept_refl db : dbKept db db.
Proof. intros qt key doc Hdoc. exists doc. split; [done | apply docKept_refl]. Qed.

Lemma dbKept_trans db1 db2 db3 : dbKept db1 db2 -> dbKept db2 db3 -> dbKept db1 db3.
Proof.
  intros H12 H23 qt key doc Hdoc. destruct (H12 qt key doc Hdoc) as (doc2 & Hdoc2 & Hk).
  destruct (H23 qt key doc2 Hdoc2) as (doc3 & Hdoc3 & Hk'). exists doc3.
  split; [done | by eapply docKept_trans].
Qed.

Lemma dbKept_same_progress db db' :
  (forall qt, progressOf qt db' = progressOf qt db) -> dbKept db db'.
Proof.
  intros Hsame qt key doc Hdoc. exists doc. rewrite Hsame. split; [done | apply docKept_refl].
Qed.

Lemma dbKept_initialized db : dbKept db (initialized db).
Proof. apply dbKept_same_progress. intros qt. apply progressOf_initialized. Qed.

(** Replacing the document of a key by one that keeps it, or giving a
    key that has none a document. *)
Lemma dbKept_insert qt key doc' db :
  (forall doc, progressOf qt db !! key = Some doc -> docKept doc doc') ->
  dbKept db (setProgress qt (<[key := doc']> (progressOf qt db)) db).
Proof.
  intros Hkept qt' key' doc Hdoc. destruct (decide (qt = qt')) as [<-|Hne].
  - rewrite progressOf_setProgress. destruct (decide (key = key')) as [<-|Hkey].
    + exists doc'. rewrite lookup_insert_eq. split; [done | by apply Hkept].
    + exists doc. rewrite lookup_insert_ne by done. split; [done | apply docKept_refl].
  - exists doc. rewrite progressOf_setProgress_ne by done. split; [done | apply docKept_refl].
Qed.

Lemma keeps_ret {A} (a : A) : keeps (ret a).
Proof. intros db. apply dbKept_refl. Qed.

Lemma keeps_bind {A B} (m : M A) (k : A -> M B) :
  keeps m -> (forall a, keeps (k a)) -> keeps (bind m k).
Proof.
  intros Hm Hk db. unfold bind. specialize (Hm db).
  destruct (m db) as [db' [a|]]; simpl in *; [| done].
  eapply dbKept_trans; [done | apply Hk].
Qed.

Lemma keeps_tryCatch {A} (m h : M A) : keeps m -> keeps h -> keeps (tryCatch m h).
Proof.
  intros Hm Hh db. unfold tryCatch. specialize (Hm db).
  destruct (m db) as [db' [a|]]; simpl in *; [done |].
  eapply dbKept_trans; [done | apply Hh].
Qed.

Lemma keeps_connectDB : keeps connectDB.
Proof. intros db. unfold connectDB. destruct (connected db); apply dbKept_refl. Qed.

Lemma keeps_ensureQuestsInitialized : keeps ensureQuestsInitialized.
Proof. intros db. rewrite ensureQuestsInitialized_returns. apply dbKept_initialized. Qed.

Lemma keeps_getQuestsByType qt : keeps (getQuestsByType qt).
Proof. intros db. rewrite getQuestsByType_returns. apply dbKept_refl. Qed.

Lemma keeps_findOne qt userId key : keeps (findOne qt userId key).
Proof. intros db. apply dbKept_refl. Qed.

Lemma keeps_insertNew qt userId key doc : keeps (insertNew qt userId key doc).
Proof.
  intros db. unfold insertNew, bind, get, ret, modify, throw.
  destruct (progressOf qt db !! (userId, key)) eqn:Hstored; simpl; [apply dbKept_refl |].
  apply dbKept_insert. intros stored Hdoc. by rewrite Hstored in Hdoc.
Qed.

Lemma stateKept_patchObjective l c s : stateKept l c -> stateKept s (patchObjective l c s).
Proof.
  intros (Hid & Hco & Hcl). unfold stateKept, patchObjective, pick. simpl.
  split_and!.
  - case_decide; [done | by rewrite Hid in *].
  - intros Hs. case_decide; [done |].
    destruct (IObjectiveProgress.completed l), (IObjectiveProgress.completed c); try done.
    by specialize (Hco eq_refl).
  - intros Hs. case_decide; [done |].
    destruct (IObjectiveProgress.claimed l), (IObjectiveProgress.claimed c); try done.
    by specialize (Hcl eq_refl).
Qed.

Lemma patchObjectives_kept ls cs ss i s :
  Forall2 stateKept ls cs -> ss !! i = Some s ->
  exists s', patchObjectives ls cs ss !! i = Some s' /\ stateKept s s'.
Proof.
  intros Hlc. revert ss i. induction Hlc as [|l c ls cs Hk _ IH]; intros ss i Hs; simpl.
  - exists s. rewrite app_nil_r. split; [done | apply stateKept_refl].
  - destruct ss as [|s0 ss]; [done|]. destruct i as [|i]; simpl in *.
    + injection Hs as ->. eexists. split; [done | by apply stateKept_patchObjective].
    + by apply IH.
Qed.

Lemma keeps_save qt userId key l c : mayWrite l c -> keeps (save qt userId key l c).
Proof.
  intros (Hm & Hs & Hos) db. unfold save, bind, get, ret, modify, throw.
  destruct (progressOf qt db !! (userId, key)) as [stored|] eqn:Hstored; simpl;
    [| apply dbKept_refl].
  destruct (_ && _); simpl; [apply dbKept_refl |].
  apply dbKept_insert. intros doc Hdoc. rewrite Hstored in Hdoc. injection Hdoc as <-.
  unfold docKept, patch, pick. simpl. rewrite !decide_True by done.
  split_and!; [lia | lia |]. intros i st Hst. by apply patchObjectives_kept.
Qed.

Lemma stateKept_onlyCompletes l c : onlyCompletes l c -> stateKept l c.
Proof. intros [-> | ->]; [apply stateKept_refl | by destruct l]. Qed.

Lemma mayWrite_check qt doc : mayWrite doc (checkObjectiveCompletion qt doc).
Proof.
  destruct (checkObjectiveCompletion_counters qt doc) as [Hm Hs]. split_and!; [done | done |].
  eapply Forall2_impl; [apply checkObjectiveCompletion_onlyCompletes |].
  apply stateKept_onlyCompletes.
Qed.

Lemma Forall2_stateKept_same os : Forall2 stateKept os os.
Proof. induction os; constructor; [apply stateKept_refl | done]. Qed.

Lemma docKept_recorded qt userId key isSuccessMessage db doc :
  progressOf qt db !! (userId, key) = Some doc ->
  docKept doc (recorded qt userId key isSuccessMessage db).
Proof.
  intros Hdoc. destruct (recorded_counters qt userId key isSuccessMessage db) as [Hm Hs].
  rewrite Hdoc in Hm, Hs. simpl in Hm, Hs. split_and!.
  - rewrite Hm. destruct isSuccessMessage; [lia | apply addOne_le].
  - rewrite Hs. destruct isSuccessMessage; [apply addOne_le | lia].
  - intros i st Hst. unfold recorded, loadedDoc. rewrite Hdoc. simpl.
    pose proof (checkObjectiveCompletion_onlyCompletes qt (increment isSuccessMessage doc)) as H.
    assert (Hos : IQuestProgress.Objectives (increment isSuccessMessage doc)
                  = IQuestProgress.Objectives doc) by by destruct isSuccessMessage.
    rewrite Hos in H.
    destruct (Forall2_lookup_l _ _ _ _ _ H Hst) as (st' & Hst' & Hk).
    exists st'. split; [done | by apply stateKept_onlyCompletes].
Qed.

Lemma keeps_updatePeriodProgress qt userId key isSuccessMessage :
  keeps (updatePeriodProgress qt userId key isSuccessMessage).
Proof.
  intros db. rewrite updatePeriodProgress_returns. simpl.
  eapply dbKept_trans; [apply dbKept_initialized |].
  rewrite <- (progressOf_initialized qt db) at 1.
  apply dbKept_insert. intros doc. rewrite progressOf_initialized. apply docKept_recorded.
Qed.

Lemma keeps_updateProgress userId isSuccessMessage now :
  keeps (updateProgress userId isSuccessMessage now).
Proof.
  unfold updateProgress, updateDailyProgress, updateWeeklyProgress.
  apply keeps_tryCatch; [| apply keeps_ret].
  apply keeps_bind; [apply keeps_connectDB | intros _].
  apply keeps_bind; [apply keeps_updatePeriodProgress | intros dailyProgress].
  apply keeps_bind; [apply keeps_updatePeriodProgress | intros weeklyProgress].
  apply keeps_ret.
Qed.

Lemma keeps_markQuestSeen userId questType now : keeps (markQuestSeen userId questType now).
Proof.
  unfold markQuestSeen.
  apply keeps_tryCatch; [| apply keeps_ret].
  apply keeps_bind; [apply keeps_connectDB | intros _].
  apply keeps_bind; [apply keeps_findOne | intros [doc|]]; [| apply keeps_ret].
  apply keeps_bind; [| intros _; apply keeps_ret].
  apply keeps_save. split_and!; [done | done | apply Forall2_stateKept_same].
Qed.

Lemma stateKept_refreshed catalog st : stateKept st (refreshed catalog st).
Proof. unfold refreshed. by destruct (findConfig _ _) as [[? ?]|]. Qed.

Lemma docKept_migrated catalog doc : docKept doc (migrated catalog doc).
Proof.
  split_and!; simpl; [lia | lia |]. intros i st Hst. exists (refreshed catalog st).
  split; [| apply stateKept_refreshed].
  rewrite list_lookup_fmap, lookup_app_l by (by eapply lookup_lt_Some). by rewrite Hst.
Qed.

Lemma keeps_migrateQuestProgress : keeps migrateQuestProgress.
Proof.
  intros db qt key doc Hdoc. exists (migrated (catalog qt db) doc). split.
  - rewrite migrateQuestProgress_progress, lookup_fmap, Hdoc. simpl.
    by rewrite migrateStored_migrated.
  - apply docKept_migrated.
Qed.

Lemma keeps_getUserProgress userId now : keeps (getUserProgress userId now).
Proof.
  unfold getUserProgress, getUserProgressBody, loadOrCreate.
  apply keeps_tryCatch; [| apply keeps_ret].
  apply keeps_bind; [apply keeps_connectDB | intros _].
  apply keeps_bind; [apply keeps_findOne | intros dailyFound].
  apply keeps_bind; [apply keeps_findOne | intros weeklyFound].
  apply keeps_bind; [apply keeps_ensureQuestsInitialized | intros _].
  apply keeps_bind; [apply keeps_getQuestsByType | intros dailyQuests].
  apply keeps_bind; [apply keeps_getQuestsByType | intros weeklyQuests].
  apply keeps_bind.
  { destruct dailyFound; [apply keeps_ret | apply keeps_insertNew]. }
  intros dailyDoc. apply keeps_bind.
  { destruct weeklyFound; [apply keeps_ret | apply keeps_insertNew]. }
  intros weeklyDoc.
  destruct (head dailyQuests) as [dailyQuest|], (head weeklyQuests) as [weeklyQuest|];
    try apply keeps_ret.
  apply keeps_bind; [apply keeps_migrateQuestProgress | intros _].
  apply keeps_bind.
  { apply keeps_save, (mayWrite_check daily). }
  intros dailyDoc'. apply keeps_bind; [| intros weeklyDoc'; apply keeps_ret].
  apply keeps_save, (mayWrite_check weekly).
Qed.

Lemma keeps_claimObjective userId objectiveId now :
  keeps (claimObjective userId objectiveId now).
Proof.
  intros db. destruct (connected db) eqn:Hc.
  - rewrite (claimObjective_connected _ _ _ _ Hc).
    destruct (findObjective (allQuestsSeen db) objectiveId) as [[objective qt]|];
      [| apply dbKept_initialized].
    destruct (progressOf qt db !! (userId, periodKey qt now)) as [doc|] eqn:Hdoc;
      [| apply dbKept_initialized].
    destruct (findState objectiveId (IQuestProgress.Objectives doc)) as [[i st]|] eqn:Hst;
      [| apply dbKept_initialized].
    destruct (IObjectiveProgress.completed st) eqn:Hcompleted; simpl;
      [| apply dbKept_initialized].
    destruct (IObjectiveProgress.claimed st); simpl; [apply dbKept_initialized |].
    eapply dbKept_trans; [apply dbKept_initialized |].
    rewrite <- (progressOf_initialized qt db).
    apply dbKept_insert. intros doc0. rewrite progressOf_initialized, Hdoc. intros [= <-].
    split_and!; simpl; [lia | lia |]. intros j st0 Hst0.
    apply list_find_Some in Hst as (Hi & _ & _).
    destruct (decide (i = j)) as [<-|Hij].
    + rewrite Hi in Hst0. injection Hst0 as <-. exists (IObjectiveProgress.setClaimed true st).
      split; [apply list_lookup_insert_eq; by eapply lookup_lt_Some | by destruct st].
    + exists st0. rewrite list_lookup_insert_ne by done. split; [done | apply stateKept_refl].
  - rewrite (claimObjective_disconnected _ _ _ _ Hc). apply dbKept_refl.
Qed.

Lemma dbKept_step db db' : step db db' -> dbKept db db'.
Proof.
  intros [userId isSuccessMessage now | userId objectiveId now | userId questType now |
          | userId now | qs | b].
  - apply keeps_updateProgress.
  - apply keeps_claimObjective.
  - apply keeps_markQuestSeen.
  - apply keeps_migrateQuestProgress.
  - apply keeps_getUserProgress.
  - apply dbKept_same_progress. intros qt. apply progressOf_setQuests.
  - apply dbKept_same_progress. by intros [].
Qed.

(** X7. Nothing earned is lost. Over any sequence of events, claims,
    seen marks, migrations, progress reads, catalog edits and connection
    changes, every stored progress document is still stored under its key,
    neither of its counters has gone down, and every objective state it had
    is still at the same position with the same id, completed if it was
    completed and claimed if it was claimed. *)
Theorem nothing_earned_is_lost db db' :
  rtc step db db' ->
  forall qt key doc,
    progressOf qt db !! key = Some doc ->
    exists doc',
      progressOf qt db' !! key = Some doc'
      /\ IQuestProgress.currentMessages doc <= IQuestProgress.currentMessages doc'
      /\ IQuestProgress.currentSuccessMessages doc <= IQuestProgress.currentSuccessMessages doc'
      /\ forall i st, IQuestProgress.Objectives doc !! i = Some st ->
           exists st', IQuestProgress.Objectives doc' !! i = Some st'
             /\ IObjectiveProgress.objectiveId st' = IObjectiveProgress.objectiveId st
             /\ (IObjectiveProgress.completed st = true ->
                 IObjectiveProgress.completed st' = true)
             /\ (IObjectiveProgress.claimed st = true ->
                 IObjectiveProgress.claimed st' = true).
Proof.
  intros Hsteps. change (dbKept db db').
  induction Hsteps as [db | db db1 db2 Hstep _ IH]; [apply dbKept_refl |].
  eapply dbKept_trans; [by apply dbKept_step | done].
Qed.

Lemma nothing_earned_is_lost_witness :
  exists doc',
    progressOf daily
      (stateOf (claimObjective "u" "daily_success1" newYearsEve
                  (stateOf (updateProgress "u" false newYearsEve dbCompleted))))
      !! ("u", "2024-12-31")%string = Some doc'
    /\ IQuestProgress.currentMessages docCompleted <= IQuestProgress.currentMessages doc'
    /\ IQuestProgress.currentSuccessMessages docCompleted
       <= IQuestProgress.currentSuccessMessages doc'
    /\ forall i st, IQuestProgress.Objectives docCompleted !! i = Some st ->
         exists st', IQuestProgress.Objectives doc' !! i = Some st'
           /\ IObjectiveProgress.objectiveId st' = IObjectiveProgress.objectiveId st
           /\ (IObjectiveProgress.completed st = true ->
               IObjectiveProgress.completed st' = true)
           /\ (IObjectiveProgress.claimed st = true ->
               IObjectiveProgress.claimed st' = true).
Proof.
  apply (nothing_earned_is_lost dbCompleted
           (stateOf (claimObjective "u" "daily_success1" newYearsEve
                       (stateOf (updateProgress "u" false newYearsEve dbCompleted))))
           ltac:(eapply rtc_l; [apply step_recordEvent |];
                 eapply rtc_l; [apply step_claim |]; apply rtc_refl)
           daily ("u", "2024-12-31")%string docCompleted).
  reflexivity.
Defined.

End Kept.

(* ===================================================================== *)
(** * The catalog: defaults, queries and edits                           *)
(* ===================================================================== *)

Section Sorting.
Import QuestConfigService Facts.
Context {A : Type} (le : A -> A -> bool).

Lemma insertBy_Permutation x l : insertBy le x l ≡ₚ x :: l.
Proof.
  induction l as [|y l IH]; simpl; [done|].
  destruct (le x y); [done|]. rewrite IH. apply Permutation_swap.
Qed.

Lemma sortBy_Permutation l : sortBy le l ≡ₚ l.
Proof.
  unfold sortBy. induction l as [|x l IH]; simpl; [done|].
  by rewrite insertBy_Permutation, IH.
Qed.

Lemma length_sortBy l : length (sortBy le l) = length l.
Proof. by rewrite sortBy_Permutation. Qed.

Lemma sortBy_sorted l : sortedBy le l = true -> sortBy le l = l.
Proof.
  unfold sortBy. induction l as [|x l IH]; simpl; [done|].
  intros [Hhead Htail]%andb_true_iff. rewrite IH by done.
  destruct l as [|y l]; simpl; [done|]. by rewrite Hhead.
Qed.

Hypothesis total : forall a b, le a b = false -> le b a = true.

Lemma sortedBy_insertBy x l : sortedBy le l = true -> sortedBy le (insertBy le x l) = true.
Proof.
  induction l as [|y l IH]; [done|]. intros Hl. cbn [insertBy].
  destruct (le x y) eqn:Hxy.
  - cbn [sortedBy] in *. by rewrite Hxy.
  - cbn [sortedBy] in Hl. apply andb_true_iff in Hl as [Hhead Htail].
    specialize (IH Htail). cbn [sortedBy]. rewrite IH, andb_true_r.
    destruct l as [|z l]; cbn [insertBy]; [by apply total|].
    destruct (le x z); [by apply total | done].
Qed.

Lemma sortedBy_sortBy l : sortedBy le (sortBy le l) = true.
Proof.
  unfold sortBy. induction l as [|x l IH]; simpl; [done|]. by apply sortedBy_insertBy.
Qed.

End Sorting.

Section Catalog.
Import Mongoose QuestConfigService QuestService QuestConfigEdit Spec Facts Examples.

Lemma byOrder_total a b : byOrder a b = false -> byOrder b a = true.
Proof. unfold byOrder. intros H%Z.leb_gt. apply Z.leb_le. lia. Qed.

Lemma byQuestId_total a b : byQuestId a b = false -> byQuestId b a = true.
Proof.
  unfold byQuestId. intros H.
  destruct (String.leb_total (IQuest.questId a) (IQuest.questId b)) as [H'|H']; [|done].
  by rewrite H' in H.
Qed.

Lemma byTypeThenId_total a b : byTypeThenId a b = false -> byTypeThenId b a = true.
Proof.
  unfold byTypeThenId.
  rewrite (String.compare_antisym (questTypeName (IQuest.questType a))).
  destruct (String.compare (questTypeName (IQuest.questType b)) _); simpl; [| done | done].
  apply byQuestId_total.
Qed.

Lemma sortObjectives_sorted os : sortedBy byOrder (sortObjectives os) = true.
Proof. apply (sortedBy_sortBy byOrder), byOrder_total. Qed.

Lemma sortObjectives_Permutation os : sortObjectives os ≡ₚ os.
Proof. apply sortBy_Permutation. Qed.

Lemma length_sortObjectives os : length (sortObjectives os) = length os.
Proof. apply length_sortBy. Qed.

Lemma normalize_sorted q : sortedBy byOrder (IQuest.objectives (normalize q)) = true.
Proof. apply sortObjectives_sorted. Qed.

Lemma questsByType_Permutation qt db :
  questsByType qt db
  ≡ₚ (if connected db then normalize <$> activeOfType qt (quests db) else []).
Proof.
  unfold questsByType, getQuestsByType, tryCatch, bind, connectDB, get, ret, activeOfType.
  destruct (connected db); simpl; [|done].
  by rewrite (sortBy_Permutation _ (filter _ (quests db))).
Qed.

(** X8. The default catalog is written once: [initializeDefaultQuests]
    returns whether the connection works, inserts the two default quests
    when the connection works and the catalog is empty (the catalog is then
    the two default quests), and otherwise changes nothing;
    [ensureQuestsInitialized] leaves the same database; a second call
    changes nothing; the progress collections are never touched. *)
Theorem default_quests_only_once db :
  initializeDefaultQuests db
  = (if connected db && bool_decide (quests db = [])
     then setQuests defaultQuests db else db,
     Returned (connected db))
  /\ stateOf (ensureQuestsInitialized db) = stateOf (initializeDefaultQuests db)
  /\ stateOf (initializeDefaultQuests (stateOf (initializeDefaultQuests db)))
     = stateOf (initializeDefaultQuests db)
  /\ quests (stateOf (initializeDefaultQuests db))
     = (if connected db && bool_decide (quests db = []) then defaultQuests else quests db)
  /\ connected (stateOf (initializeDefaultQuests db)) = connected db
  /\ forall qt, progressOf qt (stateOf (initializeDefaultQuests db)) = progressOf qt db.
Proof.
  unfold ensureQuestsInitialized, initializeDefaultQuests, tryCatch, bind, connectDB, get, ret,
    modify.
  destruct db as [[] [|q qs] d w]; simpl; split_and!; try done; by intros [].
Qed.

(** X9. [getQuestsByType] never throws and never writes. It returns the
    active quests of the type, each once, in ascending [questId], with the
    objectives of each in ascending [order] and otherwise as stored; it
    returns no quest when the connection fails. *)
Theorem getQuestsByType_result qt db :
  exists qs,
    getQuestsByType qt db = (db, Returned qs)
    /\ qs ≡ₚ (if connected db then normalize <$> activeOfType qt (quests db) else [])
    /\ sortedBy byQuestId qs = true
    /\ Forall (fun q => IQuest.questType q = qt /\ IQuest.isActive q = true
                        /\ sortedBy byOrder (IQuest.objectives q) = true) qs
    /\ forall q, IQuest.objectives (normalize q) ≡ₚ IQuest.objectives q
                 /\ IQuest.questId (normalize q) = IQuest.questId q
                 /\ IQuest.title (normalize q) = IQuest.title q
                 /\ IQuest.description (normalize q) = IQuest.description q.
Proof.
  exists (questsByType qt db). split; [apply getQuestsByType_returns |].
  split; [apply questsByType_Permutation |].
  unfold questsByType, getQuestsByType, tryCatch, bind, connectDB, get, ret, activeOfType.
  destruct (connected db); simpl.
  - split_and!.
    + pose proof (sortedBy_sortBy byQuestId byQuestId_total
                    (filter (fun q => IQuest.questType q = qt /\ IQuest.isActive q = true)
                            (quests db))) as Hs.
      change (fun a b => String.leb (IQuest.questId a) (IQuest.questId b)) with byQuestId.
      induction (sortBy byQuestId _) as [|x l IH]; [done|].
      cbn [sortedBy] in Hs. apply andb_true_iff in Hs as [Hhead Htail].
      cbn [map sortedBy]. rewrite (IH Htail), andb_true_r. by destruct l.
    + apply Forall_fmap. rewrite (sortBy_Permutation _ (filter _ (quests db))).
      apply Forall_forall. intros q [Hq _]%list_elem_of_filter.
      destruct Hq as [Hty Hact]. split_and!; [done | done | apply normalize_sorted].
    + intros q. split_and!; [apply sortObjectives_Permutation | done | done | done].
  - split_and!; [done | constructor |].
    intros q. split_and!; [apply sortObjectives_Permutation | done | done | done].
Qed.

(** X10. [getAllQuests] never throws and never writes. It returns every
    stored quest, active or not, each once, daily quests before weekly ones
    and in ascending [questId] within a type, with the objectives of each
    in ascending [order]; it returns no quest when the connection fails.
    Every quest [getQuestsByType] returns is among them. *)
Theorem getAllQuests_result db :
  exists qs,
    getAllQuests db = (db, Returned qs)
    /\ qs ≡ₚ (if connected db then normalize <$> quests db else [])
    /\ sortedBy byTypeThenId qs = true
    /\ Forall (fun q => sortedBy byOrder (IQuest.objectives q) = true) qs
    /\ forall qt q, q ∈ questsByType qt db -> q ∈ qs.
Proof.
  pose proof (fun qt => questsByType_Permutation qt db) as Hby.
  unfold getAllQuests, tryCatch, bind, connectDB, get, ret.
  destruct (connected db); simpl; eexists; (split; [reflexivity |]).
  - split_and!.
    + by rewrite (sortBy_Permutation _ (quests db)).
    + pose proof (sortedBy_sortBy byTypeThenId byTypeThenId_total (quests db)) as Hs.
      induction (sortBy byTypeThenId _) as [|x l IH]; [done|].
      cbn [sortedBy] in Hs. apply andb_true_iff in Hs as [Hhead Htail].
      cbn [map sortedBy]. rewrite (IH Htail), andb_true_r. by destruct l.
    + apply Forall_fmap, Forall_forall. intros q _. apply normalize_sorted.
    + intros qt q. rewrite (Hby qt), (sortBy_Permutation _ (quests db)).
      intros (q0 & -> & Hq0)%list_elem_of_fmap. apply list_elem_of_fmap_2.
      unfold activeOfType in Hq0. by apply list_elem_of_filter in Hq0 as [_ ?].
  - split_and!; [done | done | constructor |].
    intros qt q. rewrite (Hby qt). by intros ?%elem_of_nil.
Qed.

(** ** Editing a quest *)

Lemma wellFormed_normalizeObjective now idx obj : wellFormed (normalizeObjective now idx obj).
Proof.
  unfold wellFormed, normalizeObjective. cbn [IQuestObjective.id IQuestObjective.messageCount
    IQuestObjective.successMessageCount IQuestObjective.xpReward].
  split_and!.
  - by destruct (decide (IQuestObjective.id obj = "")).
  - destruct (_ && _); [destruct (_ <=? _) |]; lia.
  - destruct (_ && _); [destruct (_ <=? _) |]; lia.
  - destruct (0 <? Z.max 0 (IQuestObjective.messageCount obj)) eqn:Hm,
             (0 <? Z.max 0 (IQuestObjective.successMessageCount obj)) eqn:Hs; simpl.
    + destruct (_ <=? _); [by right | by left].
    + right. apply Z.ltb_ge in Hs. lia.
    + left. apply Z.ltb_ge in Hm. lia.
    + left. apply Z.ltb_ge in Hm. lia.
  - lia.
Qed.

Lemma content_normalizeObjective now idx obj :
  wellFormed obj -> content (normalizeObjective now idx obj) = content obj.
Proof.
  intros (Hid & Hm & Hs & Hone & Hxp). unfold content, normalizeObjective.
  cbn [IQuestObjective.id IQuestObjective.messageCount
       IQuestObjective.successMessageCount IQuestObjective.xpReward].
  rewrite decide_False by done. rewrite !Z.max_r by done.
  assert (Hboth : (0 <? IQuestObjective.messageCount obj)
                  && (0 <? IQuestObjective.successMessageCount obj) = false).
  { destruct Hone as [-> | ->]; [done | apply andb_false_r]. }
  by rewrite Hboth.
Qed.

Lemma content_renumbered os : content <$> imap renumber os = content <$> os.
Proof. rewrite fmap_imap. rewrite <- (imap_const content). by apply imap_ext. Qed.

Lemma order_renumbered os :
  IQuestObjective.order <$> imap renumber os
  = (fun i => Z.of_nat i + 1) <$> seq 0 (length os).
Proof. rewrite fmap_imap, <- imap_seq_0. by apply imap_ext. Qed.

Lemma wellFormed_renumbered os : Forall wellFormed os -> Forall wellFormed (imap renumber os).
Proof.
  intros Hos. apply Forall_forall. intros o (i & o0 & -> & Ho0)%elem_of_lookup_imap_1.
  by apply (Forall_lookup_1 _ _ _ _ Hos Ho0).
Qed.

Lemma sortedBy_renumbered os k :
  sortedBy byOrder (imap (fun i => renumber (k + i)) os) = true.
Proof.
  revert k. induction os as [|o os IH]; intros k; [done|].
  cbn [imap sortedBy]. apply andb_true_iff. split.
  - destruct os as [|o' os]; [done|]. cbn [imap]. unfold byOrder, renumber, compose. simpl.
    apply Z.leb_le. lia.
  - rewrite <- (IH (S k)). f_equal. apply imap_ext. intros i x _. simpl. f_equal. lia.
Qed.

Lemma findOneAndUpdate_find questId f qs :
  findOneAndUpdate questId f qs
  = match list_find (fun q => IQuest.questId q = questId) qs with
    | Some (i, q) => Some (<[i := f q]> qs)
    | None => None
    end.
Proof.
  induction qs as [|q qs IH]; [done|]. cbn [findOneAndUpdate list_find].
  destruct (decide (IQuest.questId q = questId)); [done|]. rewrite IH.
  by destruct (list_find _ qs) as [[i q']|].
Qed.

Lemma getQuestById_returns questId db :
  getQuestById questId db
  = (db, Returned (if connected db
                   then snd <$> list_find (fun q => IQuest.questId q = questId) (quests db)
                   else None)).
Proof.
  unfold getQuestById, tryCatch, bind, connectDB, get, ret. by destruct (connected db).
Qed.

Lemma updateQuest_returns now questId updates db :
  updateQuest now questId updates db
  = match (if connected db
           then list_find (fun q => IQuest.questId q = questId) (quests db) else None) with
    | Some (i, q) =>
        (setQuests (<[i := applyUpdates (sanitize now updates) q]> (quests db)) db,
         Returned true)
    | None => (db, Returned false)
    end.
Proof.
  unfold updateQuest, tryCatch, bind, connectDB, get, ret, modify.
  destruct (connected db); [|done]. simpl. rewrite findOneAndUpdate_find.
  by destruct (list_find _ (quests db)) as [[i q]|].
Qed.

Lemma list_find_insert_other {A} (P : A -> Prop) `{forall x, Decision (P x)}
      (l : list A) i x y :
  l !! i = Some x -> ~ P x -> ~ P y -> list_find P (<[i := y]> l) = list_find P l.
Proof.
  revert i. induction l as [|z l IH]; intros i Hi Hx Hy; [done|].
  destruct i as [|i]; simpl in *.
  - injection Hi as ->. by rewrite !decide_False by done.
  - destruct (decide (P z)); [done|]. by rewrite (IH i).
Qed.

(** X11. The objectives [updateQuest] stores are sanitized: as many as
    were given; each with an id, thresholds and a reward that are not
    negative, and at most one threshold that is not zero; numbered 1, 2, ...
    in the order stored, so that the sorting of the catalog queries leaves
    them in place. Apart from the numbering they are what the first mapping
    makes of the given objectives, and the given objectives themselves when
    these were already well formed. *)
Theorem updateQuest_sanitizes now os :
  length (normalizedObjectives now os) = length os
  /\ Forall wellFormed (normalizedObjectives now os)
  /\ IQuestObjective.order <$> normalizedObjectives now os
     = (fun i => Z.of_nat i + 1) <$> seq 0 (length os)
  /\ content <$> normalizedObjectives now os ≡ₚ content <$> imap (normalizeObjective now) os
  /\ sortObjectives (normalizedObjectives now os) = normalizedObjectives now os
  /\ (Forall wellFormed os -> content <$> normalizedObjectives now os ≡ₚ content <$> os).
Proof.
  assert (Hcontent : content <$> normalizedObjectives now os
                     ≡ₚ content <$> imap (normalizeObjective now) os).
  { unfold normalizedObjectives. by rewrite content_renumbered, sortObjectives_Permutation. }
  unfold normalizedObjectives. split_and!.
  - by rewrite length_imap, length_sortObjectives, length_imap.
  - apply wellFormed_renumbered. rewrite sortObjectives_Permutation.
    apply Forall_forall. intros o (i & o0 & -> & _)%elem_of_lookup_imap_1.
    apply wellFormed_normalizeObjective.
  - by rewrite order_renumbered, length_sortObjectives, length_imap.
  - exact Hcontent.
  - apply (sortBy_sorted byOrder). apply (sortedBy_renumbered _ 0).
  - intros Hos. etrans; [exact Hcontent |]. rewrite fmap_imap.
    assert (Hsame : imap (fun n => content ∘ normalizeObjective now n) os = content <$> os).
    { rewrite <- (imap_const content os). apply imap_ext. intros i o Ho. simpl.
      apply content_normalizeObjective. by apply (Forall_lookup_1 _ _ _ _ Hos Ho). }
    by rewrite Hsame.
Qed.

Lemma updateQuest_sanitizes_witness :
  normalizedObjectives (fun _ => 1700000000000)
    [ IQuestObjective.mk "late" 5 0 10 7; IQuestObjective.mk "" 3 8 (-2) 0 ]
  = [ IQuestObjective.mk "objective_1700000000000_1" 0 8 0 1;
      IQuestObjective.mk "late" 5 0 10 2 ]
  /\ Forall wellFormed
       (normalizedObjectives (fun _ => 1700000000000)
          [ IQuestObjective.mk "late" 5 0 10 7; IQuestObjective.mk "" 3 8 (-2) 0 ]).
Proof.
  split; [reflexivity |].
  apply (updateQuest_sanitizes (fun _ => 1700000000000)
           [ IQuestObjective.mk "late" 5 0 10 7; IQuestObjective.mk "" 3 8 (-2) 0 ]).
Defined.

(** X12. What [updateQuest] writes, [getQuestById] reads back. When
    [getQuestById] finds the quest, [updateQuest] returns [true], and
    afterwards [getQuestById] returns it with every given field set
    (objectives sanitized) and every other field, [questId] and
    [questType] included, as before. The other quests are read back as
    before, no quest is added or removed, and the progress collections are
    not touched. *)
Theorem updateQuest_round_trip now questId updates db q :
  valueOf (getQuestById questId db) = Returned (Some q) ->
  exists q',
    valueOf (updateQuest now questId updates db) = Returned true
    /\ valueOf (getQuestById questId (stateOf (updateQuest now questId updates db)))
       = Returned (Some q')
    /\ IQuest.questId q' = questId
    /\ IQuest.questType q' = IQuest.questType q
    /\ IQuest.title q' = default (IQuest.title q) (Updates.title updates)
    /\ IQuest.description q' = default (IQuest.description q) (Updates.description updates)
    /\ IQuest.isActive q' = default (IQuest.isActive q) (Updates.isActive updates)
    /\ IQuest.objectives q'
       = default (IQuest.objectives q)
                 (normalizedObjectives now <$> Updates.objectives updates)
    /\ (forall other, other <> questId ->
          valueOf (getQuestById other (stateOf (updateQuest now questId updates db)))
          = valueOf (getQuestById other db))
    /\ length (quests (stateOf (updateQuest now questId updates db))) = length (quests db)
    /\ forall qt, progressOf qt (stateOf (updateQuest now questId updates db))
                  = progressOf qt db.
Proof.
  rewrite getQuestById_returns. simpl. intros Hq.
  destruct (connected db) eqn:Hc; [|done].
  destruct (list_find (fun q => IQuest.questId q = questId) (quests db)) as [[i q0]|] eqn:Hfind;
    [|done].
  injection Hq as ->.
  pose proof Hfind as (Hi & Hid & _)%list_find_Some.
  exists (applyUpdates (sanitize now updates) q).
  rewrite updateQuest_returns, Hc, Hfind. simpl.
  split_and!; try done.
  - rewrite getQuestById_returns. simpl. rewrite Hc.
    by rewrite (list_find_insert_same _ _ _ _ _ Hfind).
  - intros other Hother. rewrite !getQuestById_returns. simpl. rewrite Hc.
    rewrite (list_find_insert_other _ _ _ _ _ Hi); [done | by rewrite Hid |].
    simpl. by rewrite Hid.
  - by rewrite length_insert.
Qed.

Lemma updateQuest_round_trip_witness :
  exists q',
    valueOf (updateQuest (fun _ => 0) "daily_quest"
               (Updates.mk (Some "Daily") None None (Some false)) dbCompleted)
    = Returned true
    /\ valueOf (getQuestById "daily_quest"
                  (stateOf (updateQuest (fun _ => 0) "daily_quest"
                              (Updates.mk (Some "Daily") None None (Some false)) dbCompleted)))
       = Returned (Some q')
    /\ IQuest.title q' = "Daily"
    /\ IQuest.isActive q' = false.
Proof.
  destruct (updateQuest_round_trip (fun _ => 0) "daily_quest"
              (Updates.mk (Some "Daily") None None (Some false)) dbCompleted
              (IQuest.mk "daily_quest" daily "Daily Quest" "Complete daily objectives in order"
                 [ IQuestObjective.mk "daily_success1" 0 1 10 1;
                   IQuestObjective.mk "daily_send10" 10 0 15 2 ] true)
              eq_refl)
    as (q' & Hret & Hget & _ & _ & Htitle & _ & Hactive & _).
  exists q'. split_and!; [exact Hret | exact Hget | exact Htitle | exact Hactive].
Defined.

(** X13. When [getQuestById] finds no quest with the id (there is none,
    or the connection fails), [updateQuest] returns [false] and changes
    nothing. *)
Theorem updateQuest_refused now questId updates db :
  valueOf (getQuestById questId db) = Returned None ->
  updateQuest now questId updates db = (db, Returned false).
Proof.
  rewrite getQuestById_returns, updateQuest_returns. simpl.
  destruct (connected db); [|done].
  by destruct (list_find _ (quests db)) as [[i q]|].
Qed.

Lemma updateQuest_refused_witness :
  updateQuest (fun _ => 0) "monthly_quest" (Updates.mk None None None (Some false)) dbCompleted
  = (dbCompleted, Returned false)
  /\ updateQuest (fun _ => 0) "daily_quest" (Updates.mk None None None (Some false)) dbDown
     = (dbDown, Returned false).
Proof.
  split.
  - apply (updateQuest_refused (fun _ => 0) "monthly_quest"). reflexivity.
  - apply (updateQuest_refused (fun _ => 0) "daily_quest"). reflexivity.
Defined.

End Catalog.

(* ===================================================================== *)
(** * The period keys                                                    *)
(* ===================================================================== *)

Section Keys.
Import JSDate PeriodKey Facts Examples.

Lemma append_cons x (a b : string) : String x a +:+ b = String x (a +:+ b).
Proof. done. Qed.

Lemma append_assoc (a b c : string) : (a +:+ b) +:+ c = a +:+ (b +:+ c).
Proof. induction a as [|x a IH]; [done | by rewrite !append_cons, IH]. Qed.

Lemma length_append (a b : string) :
  String.length (a +:+ b) = (String.length a + String.length b)%nat.
Proof. induction a as [|x a IH]; [done | rewrite append_cons; simpl; by rewrite IH]. Qed.

Lemma append_inj_length (a a' b b' : string) :
  String.length a = String.length a' -> a +:+ b = a' +:+ b' -> a = a' /\ b = b'.
Proof.
  revert a'. induction a as [|x a IH]; intros [|x' a'] Hlen Heq; try done.
  rewrite !append_cons in Heq.
  injection Heq as -> Heq. injection Hlen as Hlen. by destruct (IH a' Hlen Heq) as [-> ->].
Qed.

Lemma digitsValueFrom_append acc a b :
  digitsValueFrom acc (a +:+ b) = digitsValueFrom (digitsValueFrom acc a) b.
Proof.
  revert acc. induction a as [|x a IH]; intros acc; [done |].
  rewrite append_cons. simpl. apply IH.
Qed.

Lemma pretty_N_go_append x s : pretty_N_go x s = pretty_N_go x "" +:+ s.
Proof.
  revert s. induction (N.lt_wf_0 x) as [x _ IH]; intros s.
  destruct (decide (0 < x)%N) as [Hx|Hx].
  - assert (Hlt : (x / 10 < x)%N) by (by apply N.div_lt).
    rewrite !(pretty_N_go_step x) by done.
    rewrite (IH _ Hlt (String _ s)), (IH _ Hlt (String _ "")).
    by rewrite append_assoc.
  - assert (x = 0%N) as -> by lia. by rewrite !pretty_N_go_0.
Qed.

Lemma digitValue_char d : (d < 10)%N -> digitValue (pretty_N_char d) = Z.of_N d.
Proof.
  intros Hd. destruct d as [|p]; [done|].
  do 4 (destruct p as [p|p|]; try done; try lia).
Qed.

Lemma digitsValue_go x : digitsValueFrom 0 (pretty_N_go x "") = Z.of_N x.
Proof.
  induction (N.lt_wf_0 x) as [x _ IH].
  destruct (decide (0 < x)%N) as [Hx|Hx].
  - assert (Hlt : (x / 10 < x)%N) by (by apply N.div_lt).
    rewrite pretty_N_go_step, pretty_N_go_append, digitsValueFrom_append by done.
    rewrite (IH _ Hlt). simpl.
    rewrite digitValue_char by (by apply N.mod_lt).
    rewrite (N.div_mod x 10) at 3 by done. lia.
  - assert (x = 0%N) as -> by lia. by rewrite pretty_N_go_0.
Qed.

Lemma length_go x k : (x < 10 ^ N.of_nat k)%N -> (String.length (pretty_N_go x "") <= k)%nat.
Proof.
  revert x. induction k as [|k IH]; intros x Hx.
  - assert (x = 0%N) as -> by (simpl in Hx; lia). by rewrite pretty_N_go_0.
  - destruct (decide (0 < x)%N) as [Hpos|Hpos].
    + rewrite pretty_N_go_step, pretty_N_go_append, length_append by done. simpl.
      assert (Hdiv : (x / 10 < 10 ^ N.of_nat k)%N).
      { apply N.Div0.div_lt_upper_bound. rewrite <- N.pow_succ_r'. by rewrite <- Nat2N.inj_succ. }
      specialize (IH _ Hdiv). lia.
    + assert (x = 0%N) as -> by lia. rewrite pretty_N_go_0. simpl. lia.
Qed.

Lemma toString_nonneg z :
  0 <= z -> toString z = if decide (z = 0) then "0" else pretty_N_go (Z.to_N z) "".
Proof. intros Hz. destruct z as [|p|p]; [done | done | lia]. Qed.

Lemma digitsValue_toString z : 0 <= z -> digitsValue (toString z) = z.
Proof.
  intros Hz. rewrite toString_nonneg by done. case_decide as H0; [by subst |].
  unfold digitsValue. rewrite digitsValue_go. lia.
Qed.

Lemma length_toString z k :
  (0 < k)%nat -> 0 <= z < 10 ^ Z.of_nat k -> (String.length (toString z) <= k)%nat.
Proof.
  intros Hk Hz. rewrite toString_nonneg by lia. case_decide as H0; [simpl; lia |].
  apply length_go. apply N2Z.inj_lt. rewrite Z2N.id by lia.
  rewrite N2Z.inj_pow, nat_N_Z. change (Z.of_N 10) with 10. lia.
Qed.

Lemma zeros_append k s :
  String.length (String.concat "" (replicate k "0") +:+ s) = (k + String.length s)%nat
  /\ digitsValueFrom 0 (String.concat "" (replicate k "0") +:+ s) = digitsValueFrom 0 s.
Proof.
  induction k as [|k [IHl IHv]]; [done|].
  assert (Hz : String.concat "" (replicate (S k) "0")
               = "0" +:+ String.concat "" (replicate k "0")).
  { simpl. destruct (replicate k "0") eqn:Hr; [by destruct k | done]. }
  rewrite Hz, append_assoc, append_cons. change ("" +:+ ?x) with x. split.
  - cbn [String.length]. by rewrite IHl.
  - exact IHv.
Qed.

(** A zero-padded field of width [k] has [k] characters and reads back as
    the number, for every number of at most [k] digits. *)
Lemma field_reads_back k z :
  (0 < k)%nat -> 0 <= z < 10 ^ Z.of_nat k ->
  String.length (padStart k (toString z)) = k
  /\ digitsValue (padStart k (toString z)) = z.
Proof.
  intros Hk Hz. unfold padStart, digitsValue.
  destruct (zeros_append (k - String.length (toString z)) (toString z)) as [-> ->].
  pose proof (length_toString z k Hk Hz). split; [lia |].
  apply digitsValue_toString. lia.
Qed.

Lemma field_inj k z z' :
  (0 < k)%nat -> 0 <= z < 10 ^ Z.of_nat k -> 0 <= z' < 10 ^ Z.of_nat k ->
  padStart k (toString z) = padStart k (toString z') -> z = z'.
Proof.
  intros Hk Hz Hz' Heq.
  destruct (field_reads_back k z Hk Hz) as [_ <-].
  destruct (field_reads_back k z' Hk Hz') as [_ <-]. by rewrite Heq.
Qed.

Lemma getDateKey_valid d :
  validDate d ->
  getDateKey d
  = padStart 4 (toString (year d)) +:+ "-" +:+ padStart 2 (toString (month d))
    +:+ "-" +:+ padStart 2 (toString (day d)).
Proof.
  intros ([Hy Hy'] & _). unfold getDateKey.
  assert (Hy0 : 0 <= year d) by lia.
  by rewrite (proj2 (Z.leb_le 0 _) Hy0), (proj2 (Z.leb_le _ 9999) Hy').
Qed.

(** X14. Different days have different daily keys: for New York
    calendar dates of the years 1000 to 9999 (on a host in UTC, as
    throughout), [getDateKey] is ten characters long and yields the same key
    only for the same date, so that no two such days share a daily progress
    document. *)
Theorem getDateKey_injective d1 d2 :
  validDate d1 -> validDate d2 -> d1 <> d2 ->
  getDateKey d1 <> getDateKey d2
  /\ String.length (getDateKey d1) = 10%nat.
Proof.
  intros Hv1 Hv2 Hne.
  pose proof Hv1 as (Hy1 & Hm1 & Hd1). pose proof Hv2 as (Hy2 & Hm2 & Hd2).
  destruct (field_reads_back 4 (year d1)) as [Hly1 _]; [lia | simpl; lia |].
  destruct (field_reads_back 4 (year d2)) as [Hly2 _]; [lia | simpl; lia |].
  destruct (field_reads_back 2 (month d1)) as [Hlm1 _]; [lia | simpl; lia |].
  destruct (field_reads_back 2 (month d2)) as [Hlm2 _]; [lia | simpl; lia |].
  destruct (field_reads_back 2 (day d1)) as [Hld1 _]; [lia | simpl; lia |].
  rewrite !getDateKey_valid by done. split.
  - intros Heq. apply Hne.
    apply append_inj_length in Heq as [Hy Heq]; [| by rewrite Hly1, Hly2].
    injection Heq as Heq. change ("" +:+ ?x) with x in Heq.
    apply append_inj_length in Heq as [Hm Heq]; [| by rewrite Hlm1, Hlm2].
    injection Heq as Hd. change ("" +:+ ?x) with x in Hd.
    apply field_inj in Hy; [| lia | simpl; lia | simpl; lia].
    apply field_inj in Hm; [| lia | simpl; lia | simpl; lia].
    apply field_inj in Hd; [| lia | simpl; lia | simpl; lia].
    destruct d1, d2; simpl in *; by subst.
  - rewrite !length_append, Hly1, Hlm1, Hld1. done.
Qed.

Lemma getDateKey_injective_witness :
  getDateKey newYearsEve <> getDateKey {| year := 2025; month := 1; day := 1 |}
  /\ String.length (getDateKey newYearsEve) = 10%nat.
Proof.
  apply (getDateKey_injective newYearsEve {| year := 2025; month := 1; day := 1 |}).
  - unfold validDate. simpl. lia.
  - unfold validDate. simpl. lia.
  - discriminate.
Defined.

(** ** The week number *)

Lemma makeDay_shift y mi a b : makeDay y mi a = makeDay y mi b + (a - b).
Proof. unfold makeDay. lia. Qed.

Lemma dayOf_days n : dayOf (n * msPerDay) = n.
Proof. unfold dayOf, msPerDay. by rewrite Z.div_mul. Qed.

Lemma UTC_days y mi d : UTC y mi d = makeDay y mi d * msPerDay.
Proof. done. Qed.

Lemma getUTCFullYear_days n : getUTCFullYear (n * msPerDay) = fst (fst (civilFromDays n)).
Proof. unfold getUTCFullYear. by rewrite dayOf_days. Qed.

Lemma getUTCMonth_days n : getUTCMonth (n * msPerDay) = snd (fst (civilFromDays n)) - 1.
Proof. unfold getUTCMonth. by rewrite dayOf_days. Qed.

Lemma getUTCDate_days n : getUTCDate (n * msPerDay) = snd (civilFromDays n).
Proof. unfold getUTCDate. by rewrite dayOf_days. Qed.

Lemma getUTCDay_days n : getUTCDay (n * msPerDay) = (n + 4) mod 7.
Proof. unfold getUTCDay. by rewrite dayOf_days. Qed.

Lemma setUTCDate_days n x :
  setUTCDate (n * msPerDay) x
  = makeDay (fst (fst (civilFromDays n))) (snd (fst (civilFromDays n)) - 1) x * msPerDay.
Proof.
  unfold setUTCDate. rewrite getUTCFullYear_days, getUTCMonth_days, Z.mod_mul by done. lia.
Qed.

Lemma UTC_newYear y : 100 <= y -> UTC y 0 1 = daysFromCivil y 1 1 * msPerDay.
Proof.
  intros Hy. unfold UTC, makeDay.
  assert (Hq : (0 <=? y) && (y <=? 99) = false).
  { apply andb_false_iff. right. apply Z.leb_gt. lia. }
  rewrite Hq. change (0 / 12) with 0. change (0 mod 12 + 1) with 1.
  rewrite Z.add_0_r. f_equal. lia.
Qed.

Lemma ceilDiv_succ k : ceilDiv (k + 1) 7 = k / 7 + 1.
Proof.
  unfold ceilDiv. pose proof (Z.div_mod k 7). pose proof (Z.mod_pos_bound k 7).
  pose proof (Z.div_mod (- (k + 1)) 7). pose proof (Z.mod_pos_bound (- (k + 1)) 7). lia.
Qed.

Lemma thursday_of_week n :
  n + 4 - (if (n + 4) mod 7 =? 0 then 7 else (n + 4) mod 7) = n - (n + 3) mod 7 + 3.
Proof.
  pose proof (Z.div_mod (n + 4) 7). pose proof (Z.mod_pos_bound (n + 4) 7).
  pose proof (Z.div_mod (n + 3) 7). pose proof (Z.mod_pos_bound (n + 3) 7).
  destruct ((n + 4) mod 7 =? 0) eqn:Hsun; [apply Z.eqb_eq in Hsun | apply Z.eqb_neq in Hsun];
    lia.
Qed.

(** The definitions of this part, as equations. *)
Lemma isoYear_eq date : isoYear date = fst (fst (civilFromDays (isoThursday date))).
Proof. done. Qed.

Lemma isoThursday_eq date :
  isoThursday date
  = makeDay (year date) (month date - 1) (day date)
    - (makeDay (year date) (month date - 1) (day date) + 3) mod 7 + 3.
Proof. done. Qed.

Lemma isoWeekNumber_eq date :
  isoWeekNumber date = (isoThursday date - daysFromCivil (isoYear date) 1 1) / 7 + 1.
Proof. done. Qed.

Lemma isoWeekKey_eq date :
  isoWeekKey date
  = toString (isoYear date) +:+ "-W" +:+ padStart 2 (toString (isoWeekNumber date)).
Proof. rewrite isoWeekNumber_eq, isoYear_eq. reflexivity. Qed.

Lemma getWeekKey_eq date :
  getWeekKey date
  = toString (year date) +:+ "-W" +:+ padStart 2 (toString (getWeekNumber date)).
Proof. done. Qed.

Lemma getWeekNumber_eq date :
  getWeekNumber date
  = ceilDiv
      ((setUTCDate (UTC (year date) (month date - 1) (day date))
          (getUTCDate (UTC (year date) (month date - 1) (day date)) + 4
           - (if getUTCDay (UTC (year date) (month date - 1) (day date)) =? 0 then 7
              else getUTCDay (UTC (year date) (month date - 1) (day date))))
        - UTC (getUTCFullYear
                 (setUTCDate (UTC (year date) (month date - 1) (day date))
                    (getUTCDate (UTC (year date) (month date - 1) (day date)) + 4
                     - (if getUTCDay (UTC (year date) (month date - 1) (day date)) =? 0
                        then 7
                        else getUTCDay (UTC (year date) (month date - 1) (day date))))))
              0 1) / msPerDay + 1) 7.
Proof. done. Qed.

Lemma realDate_eq date :
  realDate date ->
  civilFromDays (makeDay (year date) (month date - 1) (day date))
  = (year date, month date, day date).
Proof. done. Qed.

(** [getWeekNumber] moves to the Thursday of the week of the date. *)
Lemma getWeekNumber_thursday date :
  realDate date ->
  setUTCDate (UTC (year date) (month date - 1) (day date))
    (getUTCDate (UTC (year date) (month date - 1) (day date)) + 4
     - (if getUTCDay (UTC (year date) (month date - 1) (day date)) =? 0 then 7
        else getUTCDay (UTC (year date) (month date - 1) (day date))))
  = isoThursday date * msPerDay.
Proof.
  intros Hreal%realDate_eq.
  rewrite (UTC_days (year date)), setUTCDate_days, getUTCDate_days, getUTCDay_days, Hreal.
  cbn [fst snd]. f_equal. rewrite isoThursday_eq.
  rewrite (makeDay_shift _ _ _ (day date)).
  pose proof (thursday_of_week (makeDay (year date) (month date - 1) (day date))). lia.
Qed.

Lemma getWeekNumber_iso date :
  realDate date -> 100 <= isoYear date -> getWeekNumber date = isoWeekNumber date.
Proof.
  intros Hreal Hyear.
  rewrite getWeekNumber_eq, (getWeekNumber_thursday date Hreal).
  rewrite getUTCFullYear_days, <- isoYear_eq, UTC_newYear by done.
  rewrite <- Z.mul_sub_distr_r, Z.div_mul by done.
  rewrite ceilDiv_succ. symmetry. apply isoWeekNumber_eq.
Qed.

(** X15. [getWeekNumber] is the ISO-8601 week number: for every calendar
    date whose week has its Thursday in a year from 100 on, it is the
    number of the week among the weeks of the Thursday's year. So
    [getWeekKey] carries the ISO week number behind the calendar year of the
    date, and is the ISO week key whenever the Thursday of the week lies in
    that year. *)
Theorem weekKey_inside_the_year date :
  realDate date -> 100 <= isoYear date ->
  getWeekNumber date = isoWeekNumber date
  /\ getWeekKey date
     = toString (year date) +:+ "-W" +:+ padStart 2 (toString (isoWeekNumber date))
  /\ (isoYear date = year date -> getWeekKey date = isoWeekKey date).
Proof.
  intros Hreal Hyear. pose proof (getWeekNumber_iso date Hreal Hyear) as Hweek.
  split_and!; [exact Hweek | |].
  - rewrite getWeekKey_eq, Hweek. reflexivity.
  - intros Hsame. rewrite getWeekKey_eq, isoWeekKey_eq, Hweek, Hsame. reflexivity.
Qed.

Lemma weekKey_inside_the_year_witness :
  getWeekNumber {| year := 2024; month := 6; day := 15 |} = 24
  /\ getWeekKey {| year := 2024; month := 6; day := 15 |} = "2024-W24"
  /\ isoWeekKey {| year := 2024; month := 6; day := 15 |} = "2024-W24".
Proof.
  destruct (weekKey_inside_the_year {| year := 2024; month := 6; day := 15 |})
    as (Hnumber & Hkey & Hiso).
  - vm_compute. reflexivity.
  - vm_compute. discriminate.
  - split_and!.
    + rewrite Hnumber. vm_compute. reflexivity.
    + rewrite Hkey. vm_compute. reflexivity.
    + rewrite <- Hiso by (vm_compute; reflexivity). rewrite Hkey. vm_compute. reflexivity.
Defined.

End Keys.

(* ===================================================================== *)
(** * After an event                                                     *)
(* ===================================================================== *)

Section AfterEvent.
Import Mongoose QuestConfigService QuestService Spec Facts Examples Scenes.

Lemma isCompleted_setCompleted doc b st :
  isCompleted doc (IObjectiveProgress.setCompleted b st) = isCompleted doc st.
Proof. by destruct st. Qed.

Lemma checkLoop_settled doc os questCompleted st :
  st ∈ fst (checkLoop doc os questCompleted) ->
  isCompleted doc st = true -> IObjectiveProgress.completed st = true.
Proof.
  revert questCompleted. induction os as [|o os IH]; intros questCompleted; cbn [checkLoop].
  - by intros ?%elem_of_nil.
  - destruct (IObjectiveProgress.completed o) eqn:Hc.
    + specialize (IH questCompleted). destruct (checkLoop doc os questCompleted) as [os' qc].
      simpl in *. intros [-> | Hin]%elem_of_cons; [done | by apply IH].
    + destruct (isCompleted doc o) eqn:Hi.
      * specialize (IH true). destruct (checkLoop doc os true) as [os' qc].
        simpl in *. intros [-> | Hin]%elem_of_cons; [by destruct o | by apply IH].
      * specialize (IH questCompleted). destruct (checkLoop doc os questCompleted) as [os' qc].
        simpl in *. intros [-> | Hin]%elem_of_cons; [by rewrite Hi | by apply IH].
Qed.

Lemma checkObjectiveCompletion_settled qt doc st :
  st ∈ IQuestProgress.Objectives (checkObjectiveCompletion qt doc) ->
  isCompleted (checkObjectiveCompletion qt doc) st = true ->
  IObjectiveProgress.completed st = true.
Proof.
  destruct (checkObjectiveCompletion_counters qt doc) as [Hm Hs].
  rewrite (isCompleted_counters _ _ _ Hm Hs).
  assert (Hos : IQuestProgress.Objectives (checkObjectiveCompletion qt doc)
                = fst (checkLoop doc (IQuestProgress.Objectives doc) false)).
  { unfold checkObjectiveCompletion, checkObjectiveCompletionDaily,
      checkObjectiveCompletionWeekly.
    by destruct qt, (checkLoop doc (IQuestProgress.Objectives doc) false) as [os []]. }
  rewrite Hos. apply checkLoop_settled.
Qed.

(** X16. An event leaves no objective behind: in the daily and in the
    weekly document that [updateProgress] returns (the ones it stored),
    every objective state whose threshold is reached by the counters of the
    document is completed. The list of completed objectives in the result
    is empty all the same. *)
Theorem event_completes_reached db userId isSuccessMessage now dailyNew weeklyNew achieved :
  valueOf (updateProgress userId isSuccessMessage now db)
  = Returned (UpdateResult.mk (Some dailyNew) (Some weeklyNew) achieved) ->
  achieved = Some []
  /\ forall doc st,
       doc = dailyNew \/ doc = weeklyNew ->
       st ∈ IQuestProgress.Objectives doc ->
       isCompleted doc st = true -> IObjectiveProgress.completed st = true.
Proof.
  unfold updateProgress, updateDailyProgress, updateWeeklyProgress, tryCatch.
  destruct (connected db) eqn:Hc.
  - rewrite (bind_returned _ _ _ _ _ (connectDB_connected _ Hc)).
    rewrite (bind_returned _ _ _ _ _
               (updatePeriodProgress_returns daily userId _ isSuccessMessage db)).
    rewrite (bind_returned _ _ _ _ _
               (updatePeriodProgress_returns weekly userId _ isSuccessMessage _)).
    simpl. intros [= <- <- <-]. split; [done |].
    intros doc st [-> | ->].
    + apply (checkObjectiveCompletion_settled daily).
    + apply (checkObjectiveCompletion_settled weekly).
  - unfold bind. by rewrite (connectDB_disconnected _ Hc).
Qed.

Lemma event_completes_reached_witness :
  valueOf (updateProgress "u" false newYearsEve dbNine)
  = Returned (UpdateResult.mk (Some dailyTen) (Some weeklyOne) (Some []))
  /\ IObjectiveProgress.completed (IObjectiveProgress.mk "daily_send10" 10 0 15 2 true false)
     = true.
Proof.
  split; [reflexivity |].
  apply (proj2 (event_completes_reached dbNine "u" false newYearsEve dailyTen weeklyOne
                  (Some []) eq_refl) dailyTen).
  - by left.
  - apply list_elem_of_further, list_elem_of_here.
  - reflexivity.
Defined.

End AfterEvent.

(* ===================================================================== *)
(** * Reading, then claiming                                             *)
(* ===================================================================== *)

Section ReadThenClaim.
Import Mongoose QuestConfigService QuestService Spec Facts Examples Scenes.

Lemma loadOrCreate_returns qt userId key quest db :
  loadOrCreate qt userId key (progressOf qt db !! (userId, key)) quest db
  = (setProgress qt
       (<[(userId, key) := default (newProgress (seedObjectives quest))
                                   (progressOf qt db !! (userId, key))]> (progressOf qt db)) db,
     Returned (default (newProgress (seedObjectives quest)) (progressOf qt db !! (userId, key)))).
Proof.
  unfold loadOrCreate, insertNew, bind, get, ret, modify, throw.
  destruct (progressOf qt db !! (userId, key)) as [doc|] eqn:Hdoc; simpl.
  - by rewrite insert_id, setProgress_same.
  - by rewrite Hdoc.
Qed.

Lemma save_state qt userId key l c db db' x :
  save qt userId key l c db = (db', Returned x) ->
  exists stored,
    progressOf qt db !! (userId, key) = Some stored
    /\ db' = setProgress qt (<[(userId, key) := patch l c stored]> (progressOf qt db)) db.
Proof.
  unfold save, bind, get, ret, modify, throw.
  destruct (progressOf qt db !! (userId, key)) as [stored|]; simpl; [|done].
  destruct (_ && _); simpl; [done|]. intros [= <- _]. by exists stored.
Qed.

Lemma bind_inv_state {A B} (m : M A) (k : A -> M B) db db' r :
  bind m k db = (db', Returned r) ->
  exists a db1, m db = (db1, Returned a) /\ k a db1 = (db', Returned r).
Proof.
  unfold bind. destruct (m db) as [db1 [a|]]; simpl; [|done]. intros H. by exists a, db1.
Qed.

Lemma connected_migrated db : connected (stateOf (migrateQuestProgress db)) = connected db.
Proof. by rewrite migrateQuestProgress_state. Qed.

Lemma quests_migrated db : quests (stateOf (migrateQuestProgress db)) = quests db.
Proof. by rewrite migrateQuestProgress_state. Qed.

Lemma quests_setProgress qt c db : quests (setProgress qt c db) = quests db.
Proof. by destruct qt. Qed.

(** What [getUserProgress] leaves stored when it returns from its
    configured path. *)
Lemma getUserProgressBody_stored db userId now r dq wq db' :
  getUserProgressBody userId now db = (db', Returned r) ->
  head (questsByType daily (initialized db)) = Some dq ->
  head (questsByType weekly (initialized db)) = Some wq ->
  connected db' = true
  /\ quests db' = quests (initialized db)
  /\ forall qt, progressOf qt db' !! (userId, periodKey qt now)
                = Some (readStored qt userId now db).
Proof.
  intros H Hd Hw. unfold getUserProgressBody in H.
  destruct (connected db) eqn:Hc;
    [| by unfold bind in H; rewrite (connectDB_disconnected _ Hc) in H].
  rewrite (bind_returned _ _ _ _ _ (connectDB_connected _ Hc)) in H.
  rewrite (bind_returned _ _ _ _ _ (findOne_returns daily userId _ db)) in H.
  rewrite (bind_returned _ _ _ _ _ (findOne_returns weekly userId _ db)) in H.
  rewrite (bind_returned _ _ _ _ _ (ensureQuestsInitialized_returns db)) in H.
  rewrite (bind_returned _ _ _ _ _ (getQuestsByType_returns daily (initialized db))) in H.
  rewrite (bind_returned _ _ _ _ _ (getQuestsByType_returns weekly (initialized db))) in H.
  rewrite Hd, Hw in H.
  rewrite <- (progressOf_initialized daily db) in H at 1.
  rewrite (bind_returned _ _ _ _ _ (loadOrCreate_returns daily userId _ _ (initialized db))) in H.
  rewrite (progressOf_initialized daily db) in H.
  set (ld := default (newProgress (seedObjectives (Some dq)))
                     (progressOf daily db !! (userId, PeriodKey.getDateKey now))) in *.
  set (db2 := setProgress daily (<[(userId, PeriodKey.getDateKey now) := ld]>
                                   (progressOf daily db)) (initialized db)) in *.
  assert (Hw2 : progressOf weekly db2 = progressOf weekly db).
  { unfold db2. rewrite progressOf_setProgress_ne by done. apply progressOf_initialized. }
  rewrite <- Hw2 in H at 1.
  rewrite (bind_returned _ _ _ _ _ (loadOrCreate_returns weekly userId _ _ db2)) in H.
  rewrite Hw2 in H.
  set (lw := default (newProgress (seedObjectives (Some wq)))
                     (progressOf weekly db !! (userId, PeriodKey.getWeekKey now))) in *.
  set (db3 := setProgress weekly (<[(userId, PeriodKey.getWeekKey now) := lw]>
                                    (progressOf weekly db)) db2) in *.
  rewrite (bind_returned _ _ _ _ _ (migrateQuestProgress_returns db3)) in H.
  set (db4 := stateOf (migrateQuestProgress db3)) in *.
  assert (Hc4 : connected db4 = true).
  { unfold db4, db3, db2.
    by rewrite connected_migrated, !connected_setProgress, connected_initialized. }
  assert (Hcat : forall qt, questsByType qt db3 = questsByType qt (initialized db)).
  { intros qt. unfold db3, db2. by rewrite !questsByType_setProgress. }
  assert (Hld : ld = memoryDoc daily userId now db) by (unfold ld, memoryDoc; by rewrite Hd).
  assert (Hlw : lw = memoryDoc weekly userId now db) by (unfold lw, memoryDoc; by rewrite Hw).
  assert (H3d : progressOf daily db3 !! (userId, PeriodKey.getDateKey now) = Some ld).
  { unfold db3. rewrite progressOf_setProgress_ne by done. unfold db2.
    rewrite progressOf_setProgress. apply lookup_insert_eq. }
  assert (H3w : progressOf weekly db3 !! (userId, PeriodKey.getWeekKey now) = Some lw).
  { unfold db3. rewrite progressOf_setProgress. apply lookup_insert_eq. }
  assert (H4 : forall qt, progressOf qt db4
                          = migrated (catalog qt (initialized db)) <$> progressOf qt db3).
  { intros qt. unfold db4. rewrite migrateQuestProgress_progress, Hcat.
    apply map_fmap_ext. intros k doc _. apply migrateStored_migrated. }
  apply bind_inv_state in H as (dailyDoc & db5 & Hsave5 & H).
  apply bind_inv_state in H as (weeklyDoc & db6 & Hsave6 & H).
  injection H as <- _.
  apply save_state in Hsave5 as (stored5 & Hstored5 & ->).
  apply save_state in Hsave6 as (stored6 & Hstored6 & ->).
  rewrite progressOf_setProgress_ne in Hstored6 by done.
  rewrite H4, lookup_fmap in Hstored5, Hstored6.
  rewrite H3d in Hstored5. rewrite H3w in Hstored6.
  injection Hstored5 as <-. injection Hstored6 as <-.
  split_and!.
  - by rewrite !connected_setProgress.
  - rewrite !quests_setProgress. unfold db4, db3, db2.
    by rewrite quests_migrated, !quests_setProgress.
  - intros []; unfold readStored, periodKey; rewrite <- ?Hld, <- ?Hlw.
    + rewrite progressOf_setProgress_ne by done. rewrite progressOf_setProgress.
      apply lookup_insert_eq.
    + rewrite progressOf_setProgress. apply lookup_insert_eq.
Qed.

Lemma sameFlags_patchObjective catalog l c :
  onlyCompletes l c -> sameFlags c (patchObjective l c (refreshed catalog l)).
Proof.
  assert (Hr : sameFlags l (refreshed catalog l)).
  { unfold refreshed. by destruct (findConfig _ _) as [[? ?]|]. }
  destruct Hr as (Hid & Hco & Hcl).
  intros [-> | ->]; unfold sameFlags, patchObjective, pick; simpl.
  - by rewrite !decide_True by done.
  - rewrite (decide_True (P := IObjectiveProgress.objectiveId l = _)) by done.
    rewrite (decide_True (P := IObjectiveProgress.claimed l = _)) by done.
    split_and!; [done | | done].
    destruct (decide (IObjectiveProgress.completed l = true)) as [Ht|Hf]; [by rewrite Hco | done].
Qed.

(** The states the copy in memory had are stored with the flags the copy
    has after its completion check. *)
Lemma patched_flags catalog ls cs extra j stc :
  Forall2 onlyCompletes ls cs -> cs !! j = Some stc ->
  exists sts,
    patchObjectives ls cs (map (refreshed catalog) ls ++ extra) !! j = Some sts
    /\ sameFlags stc sts.
Proof.
  intros Hlc. revert j. induction Hlc as [|l c ls cs Hl _ IH]; intros j Hj; [done|].
  destruct j as [|j]; simpl in *.
  - injection Hj as <-. eexists. split; [done | by apply sameFlags_patchObjective].
  - by apply IH.
Qed.

Lemma readStored_flags qt userId now db j stc :
  IQuestProgress.Objectives (checkObjectiveCompletion qt (memoryDoc qt userId now db)) !! j
  = Some stc ->
  exists sts,
    IQuestProgress.Objectives (readStored qt userId now db) !! j = Some sts
    /\ sameFlags stc sts.
Proof.
  intros Hj. unfold readStored. cbv zeta. unfold patch, migrated. simpl.
  rewrite fmap_app. apply patched_flags; [| done].
  apply checkObjectiveCompletion_onlyCompletes.
Qed.

Lemma findState_flags cs ss objectiveId i stc :
  (forall j stc, cs !! j = Some stc -> exists sts, ss !! j = Some sts /\ sameFlags stc sts) ->
  findState objectiveId cs = Some (i, stc) ->
  exists sts, findState objectiveId ss = Some (i, sts) /\ sameFlags stc sts.
Proof.
  intros Hflags (Hi & Hid & Hbefore)%list_find_Some.
  destruct (Hflags i stc Hi) as (sts & Hs & Hsame). exists sts. split; [| done].
  apply list_find_Some. split_and!; [done | |].
  - destruct Hsame as (-> & _). done.
  - intros j y Hy Hlt Hyid.
    destruct (lookup_lt_is_Some_2 cs j) as [cj Hcj]; [apply lookup_lt_Some in Hi; lia |].
    destruct (Hflags j cj Hcj) as (sj & Hsj & (Hsid & _)).
    rewrite Hy in Hsj. injection Hsj as <-.
    apply (Hbefore j cj Hcj Hlt). by rewrite <- Hsid.
Qed.

(** X17. What the read-model shows as claimable can be claimed. When
    [getUserProgress] returns a read-model in which an objective of the
    daily (weekly) list is completed and not claimed, and the catalog
    resolves the id of that objective to a daily (weekly) quest, a
    [claimObjective] for it right afterwards succeeds and returns the reward
    of the catalog objective. *)
Theorem shown_claimable_is_claimable db userId now r qt o objective :
  valueOf (getUserProgressBody userId now db) = Returned r ->
  o ∈ PeriodProgress.objectives (periodOf qt r) ->
  QuestObjective.completed o = true ->
  QuestObjective.claimed o = false ->
  findObjective (allQuestsSeen (stateOf (getUserProgress userId now db))) (QuestObjective.id o)
  = Some (objective, qt) ->
  valueOf (claimObjective userId (QuestObjective.id o) now
             (stateOf (getUserProgress userId now db)))
  = Returned (ClaimResult.mk true None (IQuestObjective.xpReward objective)).
Proof.
  intros Hr Ho Hcompleted Hclaimed Hfind.
  pose proof (getUserProgressBody_result _ _ _ _ Hr) as [_ Hshape].
  assert (Hstate : stateOf (getUserProgress userId now db)
                   = stateOf (getUserProgressBody userId now db)).
  { unfold getUserProgress, tryCatch.
    by destruct (getUserProgressBody userId now db) as [db' [r'|]]. }
  rewrite Hstate in *. clear Hstate.
  destruct (getUserProgressBody userId now db) as [db' [r'|]] eqn:Hbody; [|done].
  simpl in Hr. injection Hr as ->. simpl in *.
  destruct (head (questsByType daily (initialized db))) as [dq|] eqn:Hd;
    [| subst r; by destruct qt; apply elem_of_nil in Ho].
  destruct (head (questsByType weekly (initialized db))) as [wq|] eqn:Hw;
    [| subst r; by destruct qt; apply elem_of_nil in Ho].
  destruct (getUserProgressBody_stored _ _ _ _ _ _ _ Hbody Hd Hw) as (Hc & _ & Hstored).
  assert (Hshown : exists q obj,
             o = buildObjective (checkObjectiveCompletion qt (memoryDoc qt userId now db)) obj
             /\ obj ∈ sortObjectives (IQuest.objectives q)).
  { subst r. destruct qt; simpl in Ho; unfold buildObjectives in Ho;
      apply list_elem_of_fmap in Ho as (obj & -> & Hobj); eauto. }
  destruct Hshown as (q & obj & -> & _). simpl in *.
  destruct (findState (IQuestObjective.id obj)
              (IQuestProgress.Objectives
                 (checkObjectiveCompletion qt (memoryDoc qt userId now db))))
    as [[i stc]|] eqn:Hstc; simpl in *; [|done].
  destruct (findState_flags _ (IQuestProgress.Objectives (readStored qt userId now db))
              _ _ _ (readStored_flags qt userId now db) Hstc)
    as (sts & Hsts & (_ & Hco & Hcl)).
  rewrite (claimObjective_connected _ _ _ _ Hc), Hfind, Hstored, Hsts.
  by rewrite Hco, Hcl, Hcompleted, Hclaimed.
Qed.

Lemma shown_claimable_is_claimable_witness :
  valueOf (claimObjective "u" "daily_send10" newYearsEve
             (stateOf (getUserProgress "u" newYearsEve dbTen)))
  = Returned (ClaimResult.mk true None 15).
Proof.
  apply (shown_claimable_is_claimable dbTen "u" newYearsEve shownTen daily
           (QuestObjective.mk "daily_send10" "Send 10 Messages"
              "Send 10 messages in any channel" 10 10 true false 15 2)
           (IQuestObjective.mk "daily_send10" 10 0 15 2)).
  - reflexivity.
  - apply list_elem_of_further, list_elem_of_here.
  - reflexivity.
  - reflexivity.
  - reflexivity.
Defined.

(** ** The objectives a read shows *)

Lemma questsByType_sorted qt db q :
  q ∈ questsByType qt db -> sortedBy byOrder (IQuest.objectives q) = true.
Proof.
  rewrite questsByType_Permutation. destruct (connected db); [| by intros ?%elem_of_nil].
  intros (q0 & -> & _)%list_elem_of_fmap. apply normalize_sorted.
Qed.

Lemma head_elem_of {A} (l : list A) x : head l = Some x -> x ∈ l.
Proof. destruct l; [done|]. intros [= ->]. apply list_elem_of_here. Qed.

Lemma buildObjectives_catalog qt db q doc :
  head (questsByType qt db) = Some q ->
  buildObjectives q doc = map (buildObjective doc) (catalog qt db).
Proof.
  intros Hq. unfold buildObjectives, catalog. rewrite Hq. simpl. f_equal.
  apply (sortBy_sorted byOrder), (questsByType_sorted qt db), head_elem_of, Hq.
Qed.

Lemma countUnclaimed_bounds os : 0 <= countUnclaimed os <= Z.of_nat (length os).
Proof.
  unfold countUnclaimed. split; [lia |]. apply inj_le.
  induction os as [|o os IH]; simpl; [done|]. destruct (_ && _); simpl; lia.
Qed.

(** X18. The read-model lists the catalog. When [getUserProgress] returns
    on its configured path, each half shows exactly the objectives of the
    first active quest of its type, in the catalog's order (ascending
    [order]), each with the id, reward and order of the catalog objective
    and with the catalog threshold that counts as its target, whatever
    objective states the document holds; the progress shown never exceeds
    the target, and the notification count lies between 0 and the number of
    objectives shown. *)
Theorem read_model_lists_catalog db userId now r dq wq :
  valueOf (getUserProgressBody userId now db) = Returned r ->
  head (questsByType daily (initialized db)) = Some dq ->
  head (questsByType weekly (initialized db)) = Some wq ->
  forall qt,
    map QuestObjective.id (PeriodProgress.objectives (periodOf qt r))
    = map IQuestObjective.id (catalog qt (initialized db))
    /\ map QuestObjective.xp (PeriodProgress.objectives (periodOf qt r))
       = map IQuestObjective.xpReward (catalog qt (initialized db))
    /\ map QuestObjective.order (PeriodProgress.objectives (periodOf qt r))
       = map IQuestObjective.order (catalog qt (initialized db))
    /\ map QuestObjective.target (PeriodProgress.objectives (periodOf qt r))
       = map (fun c => if 0 <? IQuestObjective.messageCount c
                       then IQuestObjective.messageCount c
                       else IQuestObjective.successMessageCount c)
             (catalog qt (initialized db))
    /\ sortedBy byOrder (catalog qt (initialized db)) = true
    /\ Forall (fun o => QuestObjective.progress o <= QuestObjective.target o)
              (PeriodProgress.objectives (periodOf qt r))
    /\ 0 <= PeriodProgress.notificationCount (periodOf qt r)
         <= Z.of_nat (length (catalog qt (initialized db))).
Proof.
  intros Hr Hd Hw qt.
  apply getUserProgressBody_result in Hr as [_ Hr]. rewrite Hd, Hw in Hr. subst r.
  assert (Hshown : exists doc,
             PeriodProgress.objectives
               (periodOf qt (UserProgress.mk
                  (buildPeriod dq (checkObjectiveCompletionDaily (memoryDoc daily userId now db)))
                  (buildPeriod wq
                     (checkObjectiveCompletionWeekly (memoryDoc weekly userId now db)))))
             = map (buildObjective doc) (catalog qt (initialized db))
             /\ PeriodProgress.notificationCount
                  (periodOf qt (UserProgress.mk
                     (buildPeriod dq
                        (checkObjectiveCompletionDaily (memoryDoc daily userId now db)))
                     (buildPeriod wq
                        (checkObjectiveCompletionWeekly (memoryDoc weekly userId now db)))))
                = countUnclaimed (map (buildObjective doc) (catalog qt (initialized db)))).
  { destruct qt; simpl; eexists;
      rewrite (buildObjectives_catalog _ (initialized db)) by done; done. }
  destruct Hshown as (doc & -> & ->).
  rewrite <- !list_fmap_compose.
  split_and!; try done.
  - unfold catalog.
    destruct (head (questsByType qt (initialized db))) as [q|] eqn:Hq; [| done].
    apply (questsByType_sorted qt (initialized db)), head_elem_of, Hq.
  - apply Forall_fmap, Forall_forall. intros c _. simpl. lia.
  - apply countUnclaimed_bounds.
  - pose proof (countUnclaimed_bounds (map (buildObjective doc) (catalog qt (initialized db)))).
    rewrite length_map in *. lia.
Qed.

Lemma read_model_lists_catalog_witness :
  map QuestObjective.id (PeriodProgress.objectives (UserProgress.daily progressGrown))
  = [ "daily_success1"; "daily_send10" ]%string
  /\ IQuestProgress.Objectives docBefore
     = [ IObjectiveProgress.mk "daily_success1" 0 1 10 1 false false ].
Proof.
  split; [| reflexivity].
  exact (proj1 (read_model_lists_catalog dbGrown "u" newYearsEve progressGrown
                  dailyQuest weeklyQuest eq_refl eq_refl eq_refl daily)).
Defined.

End ReadThenClaim.

(* ===================================================================== *)
(** * Documents in step with the catalog                                 *)
(* ===================================================================== *)

Section InStep.
Import Mongoose QuestConfigService QuestService Spec Facts Examples Scenes.

Lemma findState_Forall2 (R : IObjectiveProgress.t -> IObjectiveProgress.t -> Prop)
      ls cs objectiveId i st :
  (forall a b, R a b -> IObjectiveProgress.objectiveId b = IObjectiveProgress.objectiveId a) ->
  Forall2 R ls cs ->
  findState objectiveId ls = Some (i, st) ->
  exists st', findState objectiveId cs = Some (i, st') /\ R st st'.
Proof.
  intros Hid Hlc (Hi & Hst & Hbefore)%list_find_Some.
  destruct (Forall2_lookup_l _ _ _ _ _ Hlc Hi) as (st' & Hi' & HR).
  exists st'. split; [| done]. apply list_find_Some. split_and!; [done | |].
  - by rewrite (Hid _ _ HR).
  - intros j y Hy Hlt Hyid.
    destruct (Forall2_lookup_r _ _ _ _ _ Hlc Hy) as (x & Hx & HR').
    apply (Hbefore j x Hx Hlt). by rewrite <- (Hid _ _ HR').
Qed.

Lemma onlyCompletes_definition l c : onlyCompletes l c -> sameDefinition l c.
Proof. by intros [-> | ->]; destruct l. Qed.

(** X20. A read of a document that is in step with the catalog is
    settled: when [getUserProgress] returns and the document it holds in
    memory for a period has, for every catalog objective, a state with the
    thresholds of that objective, every objective it shows with its target
    reached (progress = target > 0) is shown completed. *)
Theorem read_in_step_is_settled db userId now r qt o :
  valueOf (getUserProgressBody userId now db) = Returned r ->
  inSync (catalog qt (initialized db)) (memoryDoc qt userId now db) ->
  o ∈ PeriodProgress.objectives (periodOf qt r) ->
  0 < QuestObjective.target o ->
  QuestObjective.progress o = QuestObjective.target o ->
  QuestObjective.completed o = true.
Proof.
  intros Hr Hsync Ho Htarget Hprogress.
  apply getUserProgressBody_result in Hr as [_ Hr].
  destruct (head (questsByType daily (initialized db))) as [dq|] eqn:Hd;
    [| subst r; by destruct qt; apply elem_of_nil in Ho].
  destruct (head (questsByType weekly (initialized db))) as [wq|] eqn:Hw;
    [| subst r; by destruct qt; apply elem_of_nil in Ho].
  assert (Hshown : exists obj,
             o = buildObjective (checkObjectiveCompletion qt (memoryDoc qt userId now db)) obj
             /\ obj ∈ catalog qt (initialized db)).
  { subst r. destruct qt; simpl in Ho;
      rewrite (buildObjectives_catalog _ (initialized db)) in Ho by done;
      apply list_elem_of_fmap in Ho as (obj & -> & Hobj); eauto. }
  destruct Hshown as (obj & -> & Hobj).
  destruct (Hsync obj Hobj) as (i & st & Hst & Hm & Hs).
  destruct (findState_Forall2 onlyCompletes _ _ _ _ _
              ltac:(by intros a b [-> | ->]; destruct a)
              (checkObjectiveCompletion_onlyCompletes qt (memoryDoc qt userId now db)) Hst)
    as (st' & Hst' & (_ & Hm' & Hs')%onlyCompletes_definition).
  simpl in *. rewrite Hst'. simpl.
  apply (checkObjectiveCompletion_settled qt (memoryDoc qt userId now db)).
  - apply list_find_Some in Hst' as (Hi & _). by eapply list_elem_of_lookup_2.
  - unfold isCompleted. rewrite Hm', Hs', Hm, Hs.
    destruct (0 <? IQuestObjective.messageCount obj) eqn:Hpos.
    + apply Z.leb_le. lia.
    + apply Z.ltb_lt in Htarget. rewrite Htarget. apply Z.leb_le. lia.
Qed.

Lemma read_in_step_is_settled_witness :
  Forall (fun o => 0 < QuestObjective.target o ->
                   QuestObjective.progress o = QuestObjective.target o ->
                   QuestObjective.completed o = true)
         (PeriodProgress.objectives (UserProgress.daily shownTenUnchecked))
  /\ map QuestObjective.completed
         (PeriodProgress.objectives (UserProgress.daily shownTenUnchecked))
     = [ false; true ].
Proof.
  split; [| reflexivity].
  apply Forall_forall. intros o Ho.
  apply (read_in_step_is_settled dbTenUnchecked "u" newYearsEve shownTenUnchecked daily o);
    [reflexivity | | exact Ho].
  intros obj Hobj.
  apply elem_of_cons in Hobj as [-> | Hobj]; [by exists 0%nat, (IObjectiveProgress.mk "daily_success1" 0 1 10 1 false false) |].
  apply elem_of_cons in Hobj as [-> | Hobj]; [by exists 1%nat, (IObjectiveProgress.mk "daily_send10" 10 0 15 2 false false) |].
  by apply elem_of_nil in Hobj.
Defined.

(** ** A read brings the document in step *)

Lemma NoDup_fmap_eq {A B} (f : A -> B) (l : list A) x y :
  NoDup (map f l) -> x ∈ l -> y ∈ l -> f x = f y -> x = y.
Proof.
  induction l as [|a l IH]; simpl; [by intros _ ?%elem_of_nil |].
  intros [Hnotin Hnodup]%NoDup_cons [-> | Hx]%elem_of_cons [-> | Hy]%elem_of_cons Heq.
  - done.
  - exfalso. apply Hnotin. rewrite Heq. by apply list_elem_of_fmap_2.
  - exfalso. apply Hnotin. rewrite <- Heq. by apply list_elem_of_fmap_2.
  - by apply IH.
Qed.

Lemma refreshed_thresholds catalog obj st :
  NoDup (map IQuestObjective.id catalog) -> obj ∈ catalog ->
  IObjectiveProgress.objectiveId st = IQuestObjective.id obj ->
  IObjectiveProgress.messageCount (refreshed catalog st) = IQuestObjective.messageCount obj
  /\ IObjectiveProgress.successMessageCount (refreshed catalog st)
     = IQuestObjective.successMessageCount obj.
Proof.
  intros Hnodup Hobj Hid. unfold refreshed. rewrite Hid.
  assert (Hfound : is_Some (findConfig (IQuestObjective.id obj) catalog)).
  { unfold findConfig. eapply list_find_elem_of; [exact Hobj | done]. }
  destruct Hfound as [[k obj'] Hfound]. rewrite Hfound.
  apply list_find_Some in Hfound as (Hk & Hid' & _).
  assert (obj' = obj) as ->.
  { apply (NoDup_fmap_eq IQuestObjective.id catalog); [done | | done | done].
    by eapply list_elem_of_lookup_2. }
  done.
Qed.

(** Migration leaves a document in step with a catalog of distinct ids. *)
Lemma inSync_migrated catalog doc :
  NoDup (map IQuestObjective.id catalog) -> inSync catalog (migrated catalog doc).
Proof.
  intros Hnodup obj Hobj.
  pose proof (covered_migrated catalog doc obj Hobj) as Hcovered.
  apply list_elem_of_fmap in Hcovered as (st0 & Hid0 & Hst0).
  assert (Hfound : is_Some (findState (IQuestObjective.id obj)
                              (IQuestProgress.Objectives (migrated catalog doc)))).
  { unfold findState. eapply list_find_elem_of; [exact Hst0 | done]. }
  destruct Hfound as [[i st] Hfound]. exists i, st. split; [done |].
  apply list_find_Some in Hfound as (Hi & Hid & _).
  apply list_elem_of_lookup_2 in Hi. simpl in Hi.
  apply list_elem_of_fmap in Hi as (st1 & -> & _).
  rewrite objectiveId_refreshed in Hid. by apply refreshed_thresholds.
Qed.

Lemma sameDefinition_refl st : sameDefinition st st.
Proof. done. Qed.

Lemma sameDefinition_patchObjective l c s :
  onlyCompletes l c -> sameDefinition s (patchObjective l c s).
Proof.
  intros [-> | ->]; unfold sameDefinition, patchObjective, pick; simpl;
    by rewrite !decide_True by done.
Qed.

Lemma sameDefinition_patchObjectives ls cs ss :
  Forall2 onlyCompletes ls cs -> (length ls <= length ss)%nat ->
  Forall2 sameDefinition ss (patchObjectives ls cs ss).
Proof.
  intros Hlc. revert ss. induction Hlc as [|l c ls cs Hl _ IH]; intros ss Hlen; simpl.
  - rewrite app_nil_r. apply Forall_Forall2_diag, Forall_true, sameDefinition_refl.
  - destruct ss as [|s ss]; simpl in *; [lia |].
    constructor; [by apply sameDefinition_patchObjective | apply IH; lia].
Qed.

Lemma inSync_Forall2 catalog doc doc' :
  Forall2 sameDefinition (IQuestProgress.Objectives doc) (IQuestProgress.Objectives doc') ->
  inSync catalog doc -> inSync catalog doc'.
Proof.
  intros Hsame Hsync obj Hobj. destruct (Hsync obj Hobj) as (i & st & Hst & Hm & Hs).
  destruct (findState_Forall2 sameDefinition _ _ _ _ _ ltac:(by intros a b (? & _)) Hsame Hst)
    as (st' & Hst' & (_ & Hm' & Hs')).
  exists i, st'. split_and!; [done | by rewrite Hm' | by rewrite Hs'].
Qed.

Lemma inSync_readStored qt userId now db :
  NoDup (map IQuestObjective.id (catalog qt (initialized db))) ->
  inSync (catalog qt (initialized db)) (readStored qt userId now db).
Proof.
  intros Hnodup.
  apply (inSync_Forall2 _ (migrated (catalog qt (initialized db)) (memoryDoc qt userId now db)));
    [| by apply inSync_migrated].
  unfold readStored. cbv zeta. unfold patch. simpl.
  apply sameDefinition_patchObjectives;
    [apply checkObjectiveCompletion_onlyCompletes |].
  rewrite length_map, length_app. lia.
Qed.

Lemma questsByType_same qt db db' :
  connected db' = connected db -> quests db' = quests db ->
  questsByType qt db' = questsByType qt db.
Proof.
  destruct db as [c qs d w], db' as [c' qs' d' w']. simpl. intros -> ->.
  apply questsByType_progress.
Qed.

Lemma connected_quests_initialized db db' :
  connected db' = connected db -> quests db' = quests db ->
  connected (initialized db') = connected (initialized db)
  /\ quests (initialized db') = quests (initialized db).
Proof.
  intros Hc Hq. rewrite !initialized_quests, Hc, Hq.
  destruct (_ && _); [| done]. by destruct db, db'.
Qed.

(** X19. A read brings the document in step with the catalog. When
    [getUserProgress] returns on its configured path and the ids of the
    catalog objectives of a type are distinct, the document it leaves
    stored for the user's period has a state for every catalog objective,
    with the thresholds of that objective. The catalog is as before, and
    the next read of the same period starts from this document. *)
Theorem read_brings_in_step db userId now r dq wq qt :
  valueOf (getUserProgressBody userId now db) = Returned r ->
  head (questsByType daily (initialized db)) = Some dq ->
  head (questsByType weekly (initialized db)) = Some wq ->
  NoDup (map IQuestObjective.id (catalog qt (initialized db))) ->
  progressOf qt (stateOf (getUserProgress userId now db)) !! (userId, periodKey qt now)
  = Some (memoryDoc qt userId now (stateOf (getUserProgress userId now db)))
  /\ catalog qt (initialized (stateOf (getUserProgress userId now db)))
     = catalog qt (initialized db)
  /\ inSync (catalog qt (initialized (stateOf (getUserProgress userId now db))))
            (memoryDoc qt userId now (stateOf (getUserProgress userId now db))).
Proof.
  intros Hr Hd Hw Hnodup.
  assert (Hstate : stateOf (getUserProgress userId now db)
                   = stateOf (getUserProgressBody userId now db)).
  { unfold getUserProgress, tryCatch.
    by destruct (getUserProgressBody userId now db) as [db' [r'|]]. }
  rewrite Hstate. clear Hstate.
  destruct (getUserProgressBody userId now db) as [db' [r'|]] eqn:Hbody; [|done].
  simpl in Hr. injection Hr as ->. simpl.
  destruct (getUserProgressBody_stored _ _ _ _ _ _ _ Hbody Hd Hw) as (Hc & Hq & Hstored).
  assert (Hc' : connected db' = connected (initialized db)).
  { rewrite Hc, connected_initialized.
    unfold getUserProgressBody in Hbody.
    destruct (connected db) eqn:Hcdb; [done |].
    unfold bind in Hbody. by rewrite (connectDB_disconnected _ Hcdb) in Hbody. }
  destruct (connected_quests_initialized _ _ Hc' Hq) as [Hci Hqi].
  rewrite initialized_idem in Hci, Hqi.
  assert (Hcat : catalog qt (initialized db') = catalog qt (initialized db)).
  { unfold catalog. by rewrite (questsByType_same qt _ _ Hci Hqi). }
  assert (Hmem : memoryDoc qt userId now db' = readStored qt userId now db).
  { unfold memoryDoc. by rewrite Hstored. }
  rewrite Hmem, Hcat. split_and!; [apply Hstored | done | by apply inSync_readStored].
Qed.

Lemma read_brings_in_step_witness :
  inSync (catalog daily (initialized (stateOf (getUserProgress "u" newYearsEve dbGrown))))
         (memoryDoc daily "u" newYearsEve (stateOf (getUserProgress "u" newYearsEve dbGrown)))
  /\ ~ inSync (catalog daily (initialized dbGrown)) (memoryDoc daily "u" newYearsEve dbGrown).
Proof.
  split.
  - apply (read_brings_in_step dbGrown "u" newYearsEve progressGrown dailyQuest weeklyQuest
             daily eq_refl eq_refl eq_refl).
    apply (bool_decide_unpack _). reflexivity.
  - intros Hsync.
    destruct (Hsync (IQuestObjective.mk "daily_send10" 10 0 15 2)) as (i & st & Hst & _).
    + apply list_elem_of_further, list_elem_of_here.
    + discriminate Hst.
Defined.

End InStep.

(* ===================================================================== *)
(** * Two claims at once                                                 *)
(* ===================================================================== *)

Section ClaimsAtOnce.
Import Mongoose QuestConfigService QuestService Spec Facts Examples.

(** A copy that was loaded before another writer stored the very document
    this copy holds now: its [save] finds the version it loaded, writes the
    same values again and returns. *)
Lemma save_same_again qt userId key l c db :
  progressOf qt db !! (userId, key) = Some c ->
  IQuestProgress.version c = IQuestProgress.version l ->
  length (IQuestProgress.Objectives l) = length (IQuestProgress.Objectives c) ->
  save qt userId key l c db = (db, Returned c).
Proof.
  intros Hc Hv Hlen. unfold save, bind, get, ret, modify, throw. rewrite Hc.
  rewrite Hv, Z.eqb_refl, andb_false_r. simpl.
  rewrite (patch_cur _ _ Hlen), (saved_same_length _ _ Hlen), insert_id by done.
  by rewrite setProgress_same.
Qed.

Lemma resume_waiting db userId objectiveId now :
  connected db = true ->
  Overlap.resume userId objectiveId now Overlap.Waiting db
  = (initialized db,
     Returned (Overlap.Holding
                 match findObjective (allQuestsSeen db) objectiveId with
                 | None => Resolved (failed "Objective not found")
                 | Some (objective, qt) =>
                     Loaded qt (periodKey qt now) objective
                            (progressOf qt db !! (userId, periodKey qt now))
                 end)).
Proof.
  intros Hc. unfold Overlap.resume, tryCatch, bind.
  by rewrite (claimLoad_connected _ _ _ _ Hc).
Qed.

(** The call that saves first, and the call that saves after another one
    has stored the same claim. *)
Lemma resume_holding_any db userId objectiveId now qt key objective doc stored i st :
  progressOf qt db !! (userId, key) = Some stored ->
  findState objectiveId (IQuestProgress.Objectives doc) = Some (i, st) ->
  IObjectiveProgress.completed st = true ->
  IObjectiveProgress.claimed st = false ->
  stored = doc
  \/ stored = IQuestProgress.setObjectives
                (<[i := IObjectiveProgress.setClaimed true st]> (IQuestProgress.Objectives doc))
                doc ->
  Overlap.resume userId objectiveId now
                 (Overlap.Holding (Loaded qt key objective (Some doc))) db
  = (setProgress qt
       (<[(userId, key) :=
            IQuestProgress.setObjectives
              (<[i := IObjectiveProgress.setClaimed true st]> (IQuestProgress.Objectives doc))
              doc]> (progressOf qt db)) db,
     Returned (Overlap.Finished
                 (ClaimResult.mk true None (IQuestObjective.xpReward objective)))).
Proof.
  intros Hstored Hst Hcompleted Hclaimed Hcase.
  unfold Overlap.resume, claimFinish, claimLoaded, tryCatch.
  rewrite Hst, Hcompleted, Hclaimed. cbn [negb]. unfold bind at 1 2.
  destruct Hcase as [-> | ->].
  - by rewrite (claim_save qt userId key doc i st db Hstored).
  - rewrite (save_same_again qt userId key doc _ db Hstored);
      [| done | simpl; by rewrite length_insert].
    unfold ret. simpl. by rewrite insert_id, setProgress_same.
Qed.

(** X21. Two claims at once both succeed. Whenever a single
    [claimObjective] would succeed, two calls with the same arguments that
    both load the document before either saves it both return the
    successful result with the reward, and they leave the database that the
    single call leaves: the state is claimed once, the reward is granted
    twice. *)
Theorem claims_at_once_both_succeed db userId objectiveId now first :
  valueOf (claimObjective userId objectiveId now db) = Returned first ->
  ClaimResult.success first = true ->
  Overlap.run userId objectiveId now [true; false; true; false]
              Overlap.Waiting Overlap.Waiting db
  = (stateOf (claimObjective userId objectiveId now db),
     Returned (Overlap.Finished first, Overlap.Finished first))
  /\ first = ClaimResult.mk true None (ClaimResult.xp first).
Proof.
  intros Hr Hs.
  destruct (claimObjective_success _ _ _ _ _ Hr Hs)
    as (Hc & objective & qt & doc & i & st & Hfind & Hdoc & Hst & Hcompleted & Hclaimed
        & -> & ->).
  split; [| done].
  assert (Hc' : connected (initialized db) = true) by by rewrite connected_initialized.
  cbn [Overlap.run]. unfold bind.
  rewrite (resume_waiting db _ _ _ Hc), Hfind, Hdoc.
  rewrite (resume_waiting (initialized db) _ _ _ Hc').
  rewrite initialized_idem, allQuestsSeen_initialized, Hfind, progressOf_initialized, Hdoc.
  rewrite (resume_holding_any (initialized db) userId objectiveId now qt _ objective doc doc i st);
    [| by rewrite progressOf_initialized | done | done | done | by left].
  rewrite (resume_holding_any _ userId objectiveId now qt _ objective doc
             (IQuestProgress.setObjectives
                (<[i := IObjectiveProgress.setClaimed true st]> (IQuestProgress.Objectives doc))
                doc) i st);
    [| rewrite progressOf_setProgress; apply lookup_insert_eq | done | done | done | by right].
  unfold ret. rewrite !progressOf_setProgress, insert_insert_eq, progressOf_initialized.
  by destruct qt, (initialized db).
Qed.

Lemma claims_at_once_both_succeed_witness :
  Overlap.run "u" "daily_success1" newYearsEve [true; false; true; false]
              Overlap.Waiting Overlap.Waiting dbCompleted
  = (stateOf (claimObjective "u" "daily_success1" newYearsEve dbCompleted),
     Returned (Overlap.Finished (ClaimResult.mk true None 10),
               Overlap.Finished (ClaimResult.mk true None 10))).
Proof.
  exact (proj1 (claims_at_once_both_succeed dbCompleted "u" "daily_success1" newYearsEve
                  (ClaimResult.mk true None 10) eq_refl eq_refl)).
Defined.

End ClaimsAtOnce.
